(** * GRVT helper functions: TP/SL policy, tick rounding, rate limiter,
      emergency unwinding, configuration, pre-flight checks, formatting and
      tables, embedded from [grvt_helpers.py].

    The Python functions are embedded as Rocq functions.  A Python [float]
    is an IEEE 754 binary64 number; it is modelled exactly, as an integer
    multiple of [2^-1074] with round-to-nearest-even written out.  Python
    exceptions are modelled by a result type.  A Python [str] is kept as
    the bytes of its UTF-8 encoding; its length is its number of code
    points. *)

From Stdlib Require Import ZArith List String Ascii Bool Lia.
From Stdlib Require Import DecimalString.
From Stdlib Require Floats.SpecFloat.
Import ListNotations.

Local Open Scope string_scope.
Local Open Scope Z_scope.

(** ** Exceptions *)

(** The subclasses of Python's [Exception] that the modelled code can meet. *)
Inductive exn : Type :=
  | ZeroDivisionError
  | OverflowError
  | ValueError
  | TypeError
  | AttributeError
  | KeyError
  | IndexError
  | NameError
  | ClientError (msg : string).

Inductive result (A : Type) : Type :=
  | Ok (a : A)
  | Raise (e : exn).
Arguments Ok {A} a.
Arguments Raise {A} e.

Definition bind {A B : Type} (r : result A) (k : A -> result B) : result B :=
  match r with
  | Ok a => k a
  | Raise e => Raise e
  end.

Notation "x <- c ;; k" := (bind c (fun x => k))
  (at level 61, c at next level, right associativity).

(** ** Python floats: IEEE 754 binary64 *)

Module Binary64.

(** Every finite binary64 number is an integer multiple of [2^-1074] (the
    least subnormal).  A finite float is kept as its sign and the magnitude
    in that unit; the representable magnitudes are the [m * 2^k] with
    [m < 2^53] below [2^2098] (that is, [2^1024] in value). *)
Definition scale : Z := 2 ^ 1074.
Definition overflow_threshold : Z := 2 ^ 2098.

Inductive float : Type :=
  | Fin (neg : bool) (mag : Z)
  | Inf (neg : bool)
  | NaN.

Definition representable (z : Z) : Prop :=
  exists m k, z = m * 2 ^ k /\ 0 <= m < 2 ^ 53 /\ 0 <= k /\ z < overflow_threshold.

Definition wf (x : float) : Prop :=
  match x with
  | Fin _ mag => representable mag
  | _ => True
  end.

(** [rhe a b]: the integer nearest to [a / b], ties to the even one
    ([0 <= a], [0 < b]). *)
Definition rhe (a b : Z) : Z :=
  let q := a / b in
  let r := a mod b in
  match 2 * r ?= b with
  | Lt => q
  | Gt => q + 1
  | Eq => if Z.even q then q else q + 1
  end.

(** [round_mag a b]: the magnitude nearest to the rational [a / b] that has
    at most 53 significant bits, ties to even.  Below [2^53] the spacing is
    one unit (subnormals and the first normal binade). *)
Definition round_mag (a b : Z) : Z :=
  let k := Z.max 0 (Z.log2 (a / b) - 52) in
  rhe a (b * 2 ^ k) * 2 ^ k.

(** The correctly rounded float of the non-negative rational [a / b] units,
    with sign [neg]; overflow gives an infinity. *)
Definition mk (neg : bool) (a b : Z) : float :=
  let m := round_mag a b in
  if m <? overflow_threshold then Fin neg m else Inf neg.

Definition zero : float := Fin false 0.

Definition is_finite (x : float) : bool :=
  match x with Fin _ _ => true | _ => false end.

Definition is_zero (x : float) : bool :=
  match x with Fin _ m => m =? 0 | _ => false end.

(** [bool(x)]: a float is falsy exactly when it is a zero. *)
Definition truthy (x : float) : bool := negb (is_zero x).

Definition fneg (x : float) : float :=
  match x with
  | Fin s m => Fin (negb s) m
  | Inf s => Inf (negb s)
  | NaN => NaN
  end.

(** IEEE division (the divisor is not a zero: Python raises before). *)
Definition fdiv (x y : float) : float :=
  match x, y with
  | NaN, _ | _, NaN => NaN
  | Inf _, Inf _ => NaN
  | Inf sx, Fin sy _ => Inf (xorb sx sy)
  | Fin sx _, Inf sy => Fin (xorb sx sy) 0
  | Fin sx a, Fin sy b =>
      if b =? 0 then (if a =? 0 then NaN else Inf (xorb sx sy))
      else mk (xorb sx sy) (a * scale) b
  end.

Definition fmul (x y : float) : float :=
  match x, y with
  | NaN, _ | _, NaN => NaN
  | Inf sx, Inf sy => Inf (xorb sx sy)
  | Inf sx, Fin sy b => if b =? 0 then NaN else Inf (xorb sx sy)
  | Fin sx a, Inf sy => if a =? 0 then NaN else Inf (xorb sx sy)
  | Fin sx a, Fin sy b => mk (xorb sx sy) (a * b) scale
  end.

(** The signed magnitude of a finite float. *)
Definition signed (s : bool) (m : Z) : Z := if s then - m else m.

Definition fadd (x y : float) : float :=
  match x, y with
  | NaN, _ | _, NaN => NaN
  | Inf sx, Inf sy => if Bool.eqb sx sy then Inf sx else NaN
  | Inf sx, Fin _ _ => Inf sx
  | Fin _ _, Inf sy => Inf sy
  | Fin sx a, Fin sy b =>
      let v := signed sx a + signed sy b in
      if v =? 0 then Fin (sx && sy) 0
      else mk (v <? 0) (Z.abs v) 1
  end.

Definition fsub (x y : float) : float := fadd x (fneg y).

(** Comparisons; every comparison with NaN is false, the zeros are equal. *)
Inductive ext : Type := MinusInf | Val (v : Z) | PlusInf.

Definition to_ext (x : float) : option ext :=
  match x with
  | NaN => None
  | Inf true => Some MinusInf
  | Inf false => Some PlusInf
  | Fin s m => Some (Val (signed s m))
  end.

Definition ext_ltb (a b : ext) : bool :=
  match a, b with
  | MinusInf, MinusInf => false
  | MinusInf, _ => true
  | Val _, MinusInf => false
  | Val u, Val v => u <? v
  | Val _, PlusInf => true
  | PlusInf, _ => false
  end.

Definition ext_eqb (a b : ext) : bool :=
  match a, b with
  | MinusInf, MinusInf | PlusInf, PlusInf => true
  | Val u, Val v => u =? v
  | _, _ => false
  end.

Definition flt (x y : float) : bool :=
  match to_ext x, to_ext y with
  | Some a, Some b => ext_ltb a b
  | _, _ => false
  end.

Definition feq (x y : float) : bool :=
  match to_ext x, to_ext y with
  | Some a, Some b => ext_eqb a b
  | _, _ => false
  end.

Definition fle (x y : float) : bool := flt x y || feq x y.
Definition fgt (x y : float) : bool := flt y x.
Definition fge (x y : float) : bool := fle y x.

(** [float(n)] for a Python int: correctly rounded, [OverflowError] when
    the rounded value is not finite. *)
Definition of_Z (n : Z) : result float :=
  let m := round_mag (Z.abs n * scale) 1 in
  if m <? overflow_threshold then Ok (Fin (n <? 0) m) else Raise OverflowError.

(** The float denoted by the decimal literal [digits * 10^exp10]
    (correctly rounded, as Python's parser does). *)
Definition of_decimal (digits exp10 : Z) : float :=
  if exp10 <? 0 then mk (digits <? 0) (Z.abs digits * scale) (10 ^ (- exp10))
  else mk (digits <? 0) (Z.abs digits * 10 ^ exp10 * scale) 1.

(** Exact comparison of a float with a Python int. *)
Definition flt_int (x : float) (n : Z) : bool :=
  match to_ext x with
  | Some a => ext_ltb a (Val (n * scale))
  | None => false
  end.

(** [round(x)] with one argument: the nearest int, ties to even;
    [OverflowError] on an infinity and [ValueError] on NaN. *)
Definition py_round (x : float) : result Z :=
  match x with
  | NaN => Raise ValueError
  | Inf _ => Raise OverflowError
  | Fin s a => Ok (signed s (rhe a scale))
  end.

(** *** Decimal output *)

Definition dec (n : Z) : string := NilZero.string_of_uint (N.to_uint (Z.to_N n)).

Fixpoint zeros (n : nat) : string :=
  match n with
  | O => ""
  | S n' => String "0" (zeros n')
  end.

Definition sign_str (s : bool) : string := if s then "-" else "".

(** [format(x, '.2f')]: the exact value correctly rounded to two decimals. *)
Definition format_2f (x : float) : string :=
  match x with
  | NaN => "nan"
  | Inf s => sign_str s ++ "inf"
  | Fin s a =>
      let c := rhe (a * 100) scale in
      let frac := c mod 100 in
      sign_str s ++ dec (c / 100) ++ "." ++ (if frac <? 10 then "0" else "") ++ dec frac
  end.

(** [10^(e+1) <= a / scale], without fractions. *)
Definition ge_pow10 (a e : Z) : bool :=
  if e <? 0 then scale <=? a * 10 ^ (- e) else 10 ^ e * scale <=? a.

(** The decimal exponent of a positive magnitude: the [E] with
    [10^E <= a / scale < 10^(E+1)], searched upwards from [E0]. *)
Fixpoint find_exp10 (fuel : nat) (E a : Z) : Z :=
  match fuel with
  | O => E
  | S fuel' => if ge_pow10 a (E + 1) then find_exp10 fuel' (E + 1) a else E
  end.

Definition exp10 (a : Z) : Z := find_exp10 640 (-324) a.

(** The magnitude that the decimal [D * 10^x] rounds to. *)
Definition dec_mag (D x : Z) : Z :=
  if x <? 0 then round_mag (D * scale) (10 ^ (- x)) else round_mag (D * 10 ^ x * scale) 1.

(** The [nd]-digit decimal nearest to [a] that reads back as [a], if any. *)
Definition candidate (a E : Z) (nd : Z) : option Z :=
  let x := E + 1 - nd in
  let num := if x <? 0 then a * 10 ^ (- x) else a in
  let den := if x <? 0 then scale else scale * 10 ^ x in
  let lo := num / den in
  let hi := lo + 1 in
  let near := rhe num den in
  let far := if near =? lo then hi else lo in
  if dec_mag near x =? a then Some near
  else if dec_mag far x =? a then Some far
  else None.

(** The [nd]-digit decimal nearest to [a]. *)
Definition nearest (a E : Z) (nd : Z) : Z :=
  let x := E + 1 - nd in
  if x <? 0 then rhe (a * 10 ^ (- x)) scale else rhe a (scale * 10 ^ x).

(** The shortest decimal that reads back as [a]: [nd], [nd + 1], ... digits
    are tried in turn; seventeen digits always identify a binary64. *)
Fixpoint shortest (fuel : nat) (nd : Z) (a E : Z) : Z * Z :=
  match fuel with
  | O => (nearest a E nd, nd)
  | S fuel' =>
      match candidate a E nd with
      | Some D => (D, nd)
      | None => shortest fuel' (nd + 1) a E
      end
  end.

Fixpoint strip_zeros (fuel : nat) (D : Z) : Z :=
  match fuel with
  | O => D
  | S fuel' => if (D mod 10 =? 0) && negb (D =? 0) then strip_zeros fuel' (D / 10) else D
  end.

Definition substr_from (n : nat) (s : string) : string :=
  String.substring n (String.length s - n) s.

(** [repr(x)] (and [str(x)]) of a float: the shortest decimal that reads
    back as [x], in fixed notation when [-4 <= exponent < 16]. *)
Definition repr (x : float) : string :=
  match x with
  | NaN => "nan"
  | Inf s => sign_str s ++ "inf"
  | Fin s a =>
      if a =? 0 then sign_str s ++ "0.0"
      else
        let E := exp10 a in
        let '(D, nd) := shortest 16 1 a E in
        let len0 := Z.of_nat (String.length (dec D)) in
        let decpt := E + 1 + (len0 - nd) in
        let ds := dec (strip_zeros 20 D) in
        let n := Z.of_nat (String.length ds) in
        sign_str s ++
        (if (decpt <=? -4) || (16 <? decpt) then
           String.substring 0 1 ds
           ++ (if 1 <? n then "." ++ substr_from 1 ds else "")
           ++ "e" ++ (if decpt - 1 <? 0 then "-" else "+")
           ++ (if Z.abs (decpt - 1) <? 10 then "0" else "") ++ dec (Z.abs (decpt - 1))
         else if decpt <=? 0 then
           "0." ++ zeros (Z.to_nat (- decpt)) ++ ds
         else if n <=? decpt then
           ds ++ zeros (Z.to_nat (decpt - n)) ++ ".0"
         else
           String.substring 0 (Z.to_nat decpt) ds ++ "." ++ substr_from (Z.to_nat decpt) ds)
  end.

(** *** Agreement with the Standard Library's IEEE 754 specification *)

Definition to_spec (x : float) : SpecFloat.spec_float :=
  match x with
  | NaN => SpecFloat.S754_nan
  | Inf s => SpecFloat.S754_infinity s
  | Fin s a =>
      if a =? 0 then SpecFloat.S754_zero s
      else
        let k := Z.max 0 (Z.log2 a - 52) in
        SpecFloat.S754_finite s (Z.to_pos (a / 2 ^ k)) (k - 1074)
  end.

End Binary64.

Import Binary64.

(** ** Python values *)

(** The loosely typed payloads (orders, positions, parameter mappings).
    A [dict] keeps its entries in insertion order, as Python's does. *)
#[local] Set Warnings "-register-all".
Inductive value : Type :=
  | VNone
  | VBool (b : bool)
  | VInt (n : Z)
  | VFloat (x : float)
  | VStr (s : string)
  | VList (l : list value)
  | VDict (d : list (string * value)).

Definition dict : Type := list (string * value).

Fixpoint dict_get (d : dict) (k : string) : option value :=
  match d with
  | [] => None
  | (k', v) :: d' => if String.eqb k k' then Some v else dict_get d' k
  end.

(** [d[k] = v]: the entry is replaced in place, or appended. *)
Fixpoint dict_set (d : dict) (k : string) (v : value) : dict :=
  match d with
  | [] => [(k, v)]
  | (k', v') :: d' =>
      if String.eqb k k' then (k, v) :: d' else (k', v') :: dict_set d' k v
  end.

Definition keys (d : dict) : list string := map fst d.

(** [bool(v)] *)
Definition truthy_value (v : value) : bool :=
  match v with
  | VNone => false
  | VBool b => b
  | VInt n => negb (n =? 0)
  | VFloat x => truthy x
  | VStr s => negb (String.eqb s "")
  | VList l => match l with [] => false | _ => true end
  | VDict d => match d with [] => false | _ => true end
  end.

(** An optional float argument, [None] by default. *)
Definition truthy_opt (p : option float) : bool :=
  match p with
  | None => false
  | Some x => truthy x
  end.

(** [str.lower()] on ASCII letters. *)
Definition lower_ascii (c : ascii) : ascii :=
  let n := nat_of_ascii c in
  if ((65 <=? n) && (n <=? 90))%nat then ascii_of_nat (n + 32) else c.

Fixpoint lower (s : string) : string :=
  match s with
  | EmptyString => EmptyString
  | String c s' => String (lower_ascii c) (lower s')
  end.

(** ** Tick rounding *)

(** [price / tick_size] on floats: Python raises on a zero divisor. *)
Definition truediv (x y : float) : result float :=
  if is_zero y then Raise ZeroDivisionError else Ok (fdiv x y).

(** [n * x] for an int [n] and a float [x]: the int is converted first. *)
Definition int_mul_float (n : Z) (x : float) : result float :=
  f <- of_Z n ;;
  Ok (fmul f x).

(** [round_to_tick_size]: [round(price / tick_size) * tick_size]. *)
Definition round_to_tick_size (price tick_size : float) : result float :=
  q <- truediv price tick_size ;;
  n <- py_round q ;;
  int_mul_float n tick_size.

Definition default_tick_size : float := of_decimal 5 (-1).

(** ** TP/SL validation *)

Definition validate_tpsl_prices (side : string) (last_price : float)
    (take_profit_price stop_loss_price : option float) : bool * string :=
  if negb (truthy_opt take_profit_price) && negb (truthy_opt stop_loss_price)
  then (true, "")
  else
    let is_long := String.eqb (lower side) "sell" in
    let tp_error :=
      match take_profit_price with
      | Some tp =>
          if truthy tp then
            if is_long then
              if fle tp last_price
              then Some ("TP for LONG must be > last price ($" ++ format_2f last_price ++ ")")
              else None
            else
              if fge tp last_price
              then Some ("TP for SHORT must be < last price ($" ++ format_2f last_price ++ ")")
              else None
          else None
      | None => None
      end in
    match tp_error with
    | Some msg => (false, msg)
    | None =>
        let sl_error :=
          match stop_loss_price with
          | Some sl =>
              if truthy sl then
                if is_long then
                  if fge sl last_price
                  then Some ("SL for LONG must be < last price ($" ++ format_2f last_price ++ ")")
                  else None
                else
                  if fle sl last_price
                  then Some ("SL for SHORT must be > last price ($" ++ format_2f last_price ++ ")")
                  else None
              else None
          | None => None
          end in
        match sl_error with
        | Some msg => (false, msg)
        | None => (true, "")
        end
    end.

(** ** TP/SL parameter construction *)

(** [if price: price = round_to_tick_size(price, tick_size)] *)
Definition round_if_supplied (price : option float) (tick_size : float)
  : result (option float) :=
  match price with
  | Some p =>
      if truthy p then (r <- round_to_tick_size p tick_size ;; Ok (Some r))
      else Ok price
  | None => Ok None
  end.

Definition trigger_entry (trigger_type : string) (price : float)
    (trigger_by : string) (close_position : bool) : value :=
  VDict [("trigger",
          VDict [("trigger_type", VStr trigger_type);
                 ("tpsl",
                  VDict [("trigger_price", VStr (repr price));
                         ("trigger_by", VStr trigger_by);
                         ("close_position", VBool close_position)])])].

(** [if price: params[key] = {...}] *)
Definition add_entry (params : dict) (key trigger_type : string)
    (price : option float) (trigger_by : string) (close_position : bool) : dict :=
  match price with
  | Some p =>
      if truthy p
      then dict_set params key (trigger_entry trigger_type p trigger_by close_position)
      else params
  | None => params
  end.

Definition create_tpsl_params (side : string)
    (take_profit_price stop_loss_price : option float)
    (trigger_by : string) (close_position : bool) (tick_size : float)
  : result dict :=
  let params : dict := [] in
  take_profit_price <- round_if_supplied take_profit_price tick_size ;;
  stop_loss_price <- round_if_supplied stop_loss_price tick_size ;;
  let params :=
    add_entry params "take_profit" "TAKE_PROFIT" take_profit_price
              trigger_by close_position in
  let params :=
    add_entry params "stop_loss" "STOP_LOSS" stop_loss_price
              trigger_by close_position in
  Ok params.

(** ** Rate limiter *)

(** A [datetime] is its number of microseconds since the epoch; the wall
    clock [datetime.now()] is an input of each operation that reads it. *)
Definition datetime : Type := Z.

(** [timedelta.total_seconds()]: the microseconds divided by [10^6],
    correctly rounded. *)
Definition total_seconds (td : Z) : float :=
  mk (td <? 0) (Z.abs td * scale) (10 ^ 6).

Record RateLimiter : Type := {
  max_requests : Z;
  time_window : Z;
  requests : list datetime
}.

(** [RateLimiter(max_requests, time_window)] *)
Definition init (max_requests time_window : Z) : RateLimiter :=
  {| max_requests := max_requests; time_window := time_window; requests := [] |}.

(** [(now - req_time).total_seconds() < self.time_window] *)
Definition in_window (now : datetime) (window : Z) (req_time : datetime) : bool :=
  flt_int (total_seconds (now - req_time)) window.

Definition can_make_request (now : datetime) (rl : RateLimiter)
  : RateLimiter * bool :=
  let pruned := filter (in_window now (time_window rl)) (requests rl) in
  ({| max_requests := max_requests rl;
      time_window := time_window rl;
      requests := pruned |},
   Z.of_nat (List.length pruned) <? max_requests rl).

Definition record_request (now : datetime) (rl : RateLimiter) : RateLimiter :=
  {| max_requests := max_requests rl;
     time_window := time_window rl;
     requests := (requests rl ++ [now])%list |}.

(** [min(self.requests)]: [ValueError] on an empty list. *)
Definition py_min (l : list datetime) : result datetime :=
  match l with
  | [] => Raise ValueError
  | t :: l' => Ok (fold_left Z.min l' t)
  end.

(** What [wait_if_needed] does to the outside world. *)
Inductive event : Type :=
  | Print (msg : string)
  | Sleep (seconds : float).

(** [n - x] and [x > n] for an int [n] and a float [x]. *)
Definition int_sub_float (n : Z) (x : float) : result float :=
  f <- of_Z n ;;
  Ok (fsub f x).

Definition fgt_int (x : float) (n : Z) : bool :=
  match to_ext x with
  | Some a => ext_ltb (Val (n * scale)) a
  | None => false
  end.

Definition safety_margin : float := of_decimal 1 (-1).

Section Waiting.

(** [time.sleep] belongs to the runtime: it blocks for the duration and
    returns, or refuses the duration with an exception (one beyond the
    range of the platform's clock, for instance). *)
Variable sleep : float -> result unit.

(** [wait_if_needed]: [now1] is the clock read by [can_make_request],
    [now2] the one read when the waiting time is computed.  The notice is
    printed before [time.sleep] is called; an exception of [time.sleep] is
    not caught. *)
Definition wait_if_needed (now1 now2 : datetime) (rl : RateLimiter)
  : result (RateLimiter * list event) :=
  let '(rl', can) := can_make_request now1 rl in
  if negb can then
    oldest_request <- py_min (requests rl') ;;
    wait_time <- int_sub_float (time_window rl')
                   (total_seconds (now2 - oldest_request)) ;;
    if fgt_int wait_time 0 then
      _ <- sleep (fadd wait_time safety_margin) ;;
      Ok (rl', [Print ("⏳ Rate limit exceeded. รอ " ++ format_2f wait_time ++ " วินาที...");
                Sleep (fadd wait_time safety_margin)])
    else Ok (rl', [])
  else Ok (rl', []).

End Waiting.

(** ** Emergency unwinding *)

(** [o.get(k, default)]: only a dict has [get]. *)
Definition py_get (o : value) (k : string) (default : value) : result value :=
  match o with
  | VDict d =>
      match dict_get d k with
      | Some v => Ok v
      | None => Ok default
      end
  | _ => Raise AttributeError
  end.

(** [o[0]] *)
Definition py_index0 (o : value) : result value :=
  match o with
  | VList (x :: _) => Ok x
  | VList [] => Raise IndexError
  | VStr (String c _) => Ok (VStr (String c EmptyString))
  | VStr EmptyString => Raise IndexError
  | VDict _ => Raise KeyError
  | _ => Raise TypeError
  end.

(** [s.upper()], as far as the code depends on it: only a str has it. *)
Definition py_upper (o : value) : result unit :=
  match o with
  | VStr _ => Ok tt
  | _ => Raise AttributeError
  end.

(** The names bound at module level in [grvt_helpers.py]: its imports,
    its flag and its top-level [def]s and [class].  The helpers
    [safe_get_float] and [safe_float] are local to [create_account_table]
    and [create_positions_table] and are not among them. *)
Definition module_level_names : list string :=
  ["os"; "sys"; "logging"; "Dict"; "Any"; "Optional"; "List"; "Decimal";
   "ROUND_HALF_UP"; "datetime"; "pd"; "load_dotenv"; "Account";
   "encode_typed_data"; "GrvtCcxt"; "GrvtEnv"; "PYSDK_AVAILABLE";
   "load_grvt_config"; "validate_config"; "connect_to_grvt";
   "create_eip712_domain"; "sign_order_eip712"; "format_currency";
   "format_percentage"; "create_account_table"; "create_positions_table";
   "round_to_tick_size"; "validate_tpsl_prices"; "create_tpsl_params";
   "emergency_cancel_all"; "emergency_close_all"; "RateLimiter";
   "print_section_header"; "check_pysdk_availability";
   "get_account_public_address"; "run_preflight_checks"].

(** Looking a free name up from inside a top-level function. *)
Definition load_global (name : string) : result unit :=
  if existsb (String.eqb name) module_level_names then Ok tt
  else Raise NameError.

Section Emergency.

(** The exchange client is external: its state [S] is abstract and each
    method returns the new state with a value or an exception.  What the
    functions print does not influence what they return and is left out. *)
Variable S : Type.

Record client : Type := {
  fetch_open_orders : S -> S * result (list value);
  cancel_order : S -> value -> S * result value;
  fetch_positions : S -> S * result (list value);
  config_get : S -> string -> result value;
  create_order : S -> value -> string -> string -> float -> dict -> S * result value
}.

(** [float(s)] for a str is the runtime's parser ([None]: [ValueError]). *)
Variable float_of_str : string -> option float.

Variable c : client.

(** The part of one iteration of [emergency_cancel_all] before the call
    to the client: the order id to cancel, or [None] to skip the order. *)
Definition order_to_cancel (order : value) : result (option value) :=
  id <- py_get order "id" VNone ;;
  order_id <- py_get order "order_id" id ;;
  if negb (truthy_value order_id) then Ok None
  else
    legs <- py_get order "legs" (VList []) ;;
    _ <- (if truthy_value legs then
            leg <- py_index0 legs ;;
            symbol <- py_get leg "instrument" (VStr "N/A") ;;
            leg' <- py_index0 legs ;;
            is_buying <- py_get leg' "is_buying_asset" (VBool true) ;;
            Ok tt
          else
            symbol <- py_get order "symbol" (VStr "N/A") ;;
            side <- py_get order "side" (VStr "N/A") ;;
            py_upper side) ;;
    Ok (Some order_id).

(** [result is False or result is None or (isinstance(result, dict) and
    not result)] *)
Definition cancel_failed (r : value) : bool :=
  match r with
  | VBool false => true
  | VNone => true
  | VDict [] => true
  | _ => false
  end.

(** One iteration of the loop, its [try]/[except] included: the new client
    state and whether [count] was incremented. *)
Definition cancel_one (s : S) (order : value) : S * bool :=
  match order_to_cancel order with
  | Raise _ => (s, false)
  | Ok None => (s, false)
  | Ok (Some order_id) =>
      let '(s', r) := cancel_order c s order_id in
      match r with
      | Raise _ => (s', false)
      | Ok res => (s', negb (cancel_failed res))
      end
  end.

Fixpoint cancel_loop (s : S) (orders : list value) (count : Z) : S * Z :=
  match orders with
  | [] => (s, count)
  | order :: rest =>
      let '(s', ok) := cancel_one s order in
      cancel_loop s' rest (if ok then count + 1 else count)
  end.

Definition emergency_cancel_all (s : S) : S * Z :=
  let '(s1, r) := fetch_open_orders c s in
  match r with
  | Raise _ => (s1, 0)
  | Ok open_orders =>
      match open_orders with
      | [] => (s1, 0)
      | _ => cancel_loop s1 open_orders 0
      end
  end.

(** The helper [safe_float] as [create_positions_table] defines it. *)
Definition safe_float_local (v : value) : result float :=
  match v with
  | VNone => Ok zero
  | VStr s =>
      if String.eqb s "" || String.eqb s "N/A" then Ok zero
      else match float_of_str s with
           | Some x => Ok x
           | None => Ok zero
           end
  | VFloat x => Ok x
  | VInt n => of_Z n
  | VBool b => Ok (if b then Fin false scale else zero)
  | VList _ | VDict _ => Ok zero
  end.

(** A call [safe_float(arg)] written in a top-level function: the name is
    looked up in the module's globals before the argument is evaluated. *)
Definition call_safe_float (arg : result value) : result float :=
  _ <- load_global "safe_float" ;;
  v <- arg ;;
  safe_float_local v.

(** [[p for p in positions if safe_float(p.get('size', 0)) != 0]] *)
Fixpoint active_positions (positions : list value) : result (list value) :=
  match positions with
  | [] => Ok []
  | p :: rest =>
      size <- call_safe_float (py_get p "size" (VInt 0)) ;;
      rest' <- active_positions rest ;;
      Ok (if negb (feq size zero) then p :: rest' else rest')
  end.

(** The symbol and size read from one position. *)
Definition position_to_close (pos : value) : result (value * float) :=
  legs <- py_get pos "legs" (VList []) ;;
  if truthy_value legs then
    leg <- py_index0 legs ;;
    symbol <- py_get leg "instrument" (VStr "N/A") ;;
    size <- call_safe_float (py_get leg "size" (VInt 0)) ;;
    Ok (symbol, size)
  else
    instrument <- py_get pos "instrument" (VStr "N/A") ;;
    symbol <- py_get pos "symbol" instrument ;;
    size <- call_safe_float (py_get pos "size" (VInt 0)) ;;
    Ok (symbol, size).

Definition fabs (x : float) : float :=
  match x with
  | Fin _ m => Fin false m
  | Inf _ => Inf false
  | NaN => NaN
  end.

(** [order is None or (isinstance(order, dict) and not order)] *)
Definition close_failed (r : value) : bool :=
  match r with
  | VNone => true
  | VDict [] => true
  | _ => false
  end.

Definition close_one (s : S) (pos : value) : S * bool :=
  match position_to_close pos with
  | Raise _ => (s, false)
  | Ok (symbol, size) =>
      if feq size zero then (s, false)
      else
        let is_long := fgt size zero in
        let side := if is_long then "sell" else "buy" in
        let amount := fabs size in
        match config_get c s "GRVT_SUB_ACCOUNT_ID" with
        | Raise _ => (s, false)
        | Ok sub =>
            let '(s', r) :=
              create_order c s symbol "market" side amount
                [("sub_account_id", sub); ("reduce_only", VBool true)] in
            match r with
            | Raise _ => (s', false)
            | Ok order => (s', negb (close_failed order))
            end
        end
  end.

Fixpoint close_loop (s : S) (positions : list value) (count : Z) : S * Z :=
  match positions with
  | [] => (s, count)
  | pos :: rest =>
      let '(s', ok) := close_one s pos in
      close_loop s' rest (if ok then count + 1 else count)
  end.

Definition emergency_close_all (s : S) : S * Z :=
  let '(s1, r) := fetch_positions c s in
  match r with
  | Raise _ => (s1, 0)
  | Ok positions =>
      match active_positions positions with
      | Raise _ => (s1, 0)
      | Ok [] => (s1, 0)
      | Ok active => close_loop s1 active 0
      end
  end.

End Emergency.

Arguments fetch_open_orders {S}.
Arguments cancel_order {S}.
Arguments fetch_positions {S}.
Arguments config_get {S}.
Arguments create_order {S}.

(** ** Definitions used in the statements *)

(** The exponent of the unit in the last place chosen by [round_mag]. *)
Definition ulp_exp (a b : Z) : Z := Z.max 0 (Z.log2 (a / b) - 52).

(** A finite float above zero. *)
Definition positive_finite (x : float) : Prop :=
  match x with
  | Fin false m => 0 < m
  | _ => False
  end.

Definition tp_long_message (L : float) : string :=
  "TP for LONG must be > last price ($" ++ format_2f L ++ ")".

Definition tp_short_message (L : float) : string :=
  "TP for SHORT must be < last price ($" ++ format_2f L ++ ")".

(** What [wait_if_needed] does once the waiting time is known: nothing
    when it is not positive; otherwise the notice, then [time.sleep] for
    the waiting time and the margin, whose exception, if any, is the
    outcome. *)
Definition wait_outcome (sleep : float -> result unit) (rl : RateLimiter)
    (wait_time : float) : result (RateLimiter * list event) :=
  if fgt_int wait_time 0 then
    _ <- sleep (fadd wait_time safety_margin) ;;
    Ok (rl, [Print ("⏳ Rate limit exceeded. รอ " ++ format_2f wait_time ++ " วินาที...");
             Sleep (fadd wait_time safety_margin)])
  else Ok (rl, []).


(** A sample [time.sleep]: it accepts the durations below [limit] seconds
    and refuses the others. *)
Definition sleep_below (limit : float) (d : float) : result unit :=
  if flt d limit then Ok tt else Raise OverflowError.

(** *** A client that records its calls *)

Inductive call : Type :=
  | FetchOpenOrders
  | CancelOrder (order_id : value)
  | FetchPositions
  | CreateOrder (symbol : value) (side : string) (amount : float).

Definition one : float := Fin false scale.

(** Two open positions (long 1 BTC, short 2 ETH) and three open orders; the
    exchange refuses to cancel order "b" and accepts everything else. *)
Definition recording_client : client (list call) := {|
  fetch_open_orders := fun s =>
    ((s ++ [FetchOpenOrders])%list,
     Ok [VDict [("order_id", VStr "a"); ("symbol", VStr "BTC_USDT_Perp");
                ("side", VStr "buy")];
         VDict [("order_id", VStr "b"); ("symbol", VStr "BTC_USDT_Perp");
                ("side", VStr "sell")];
         VDict [("order_id", VStr "c");
                ("legs", VList [VDict [("instrument", VStr "ETH_USDT_Perp");
                                       ("is_buying_asset", VBool false)]])]]);
  cancel_order := fun s order_id =>
    ((s ++ [CancelOrder order_id])%list,
     match order_id with
     | VStr "b" => Raise (ClientError "order not found")
     | _ => Ok (VDict [("order_id", order_id)])
     end);
  fetch_positions := fun s =>
    ((s ++ [FetchPositions])%list,
     Ok [VDict [("instrument", VStr "BTC_USDT_Perp"); ("size", VFloat one)];
         VDict [("instrument", VStr "ETH_USDT_Perp");
                ("size", VFloat (fneg (fadd one one)))]]);
  config_get := fun _ _ => Ok (VStr "0");
  create_order := fun s symbol _ side amount _ =>
    ((s ++ [CreateOrder symbol side amount])%list, Ok (VDict [("order_id", VStr "d")]))
|}.

(** ** Configuration *)

(** A configuration is a [Dict[str, str]]. *)
Definition config : Type := list (string * string).

(** [config.get(k)] *)
Fixpoint cfg_get (c : config) (k : string) : option string :=
  match c with
  | [] => None
  | (k', v) :: c' => if String.eqb k k' then Some v else cfg_get c' k
  end.

(** [config[k]]: [KeyError] on a missing key. *)
Definition cfg_index (c : config) (k : string) : result string :=
  match cfg_get c k with
  | Some v => Ok v
  | None => Raise KeyError
  end.

(** [os.getenv(k, default)] on the environment [environ]. *)
Definition getenv (environ : string -> option string) (k default : string)
  : string :=
  match environ k with
  | Some v => v
  | None => default
  end.

(** [load_grvt_config]: [environ] is the process environment as
    [load_dotenv(env_file)] leaves it. *)
Definition load_grvt_config (environ : string -> option string) : config :=
  [("GRVT_ENV", getenv environ "GRVT_ENV" "testnet");
   ("GRVT_API_KEY", getenv environ "GRVT_API_KEY" "");
   ("GRVT_PRIVATE_KEY", getenv environ "GRVT_PRIVATE_KEY" "");
   ("GRVT_TRADING_ACCOUNT_ID", getenv environ "GRVT_TRADING_ACCOUNT_ID" "");
   ("GRVT_SUB_ACCOUNT_ID", getenv environ "GRVT_SUB_ACCOUNT_ID" "0")].

Definition required_fields : list string :=
  ["GRVT_API_KEY"; "GRVT_PRIVATE_KEY"; "GRVT_TRADING_ACCOUNT_ID"].

(** [not config.get(field) or config[field] == ''] *)
Definition field_missing (c : config) (field : string) : result bool :=
  let absent :=
    match cfg_get c field with
    | None => true
    | Some v => String.eqb v ""
    end in
  if absent then Ok true
  else (v <- cfg_index c field ;; Ok (String.eqb v "")).

(** The loop of [validate_config] over the fields left to check. *)
Fixpoint collect_missing (c : config) (fields missing : list string)
  : result (list string) :=
  match fields with
  | [] => Ok missing
  | field :: rest =>
      m <- field_missing c field ;;
      collect_missing c rest (if m then (missing ++ [field])%list else missing)
  end.

Definition validate_config (c : config) : result (bool * list string) :=
  missing <- collect_missing c required_fields [] ;;
  Ok (Nat.eqb (List.length missing) 0, missing).

(** ** Connection *)

Section Connection.

(** The SDK is external: [GrvtEnv(name)] and [GrvtCcxt(env, logger,
    parameters=params)] return a value or raise. *)
Variables Env Client : Type.
Variable GrvtEnv : string -> result Env.
Variable GrvtCcxt : Env -> list (string * string) -> result Client.

(** [connect_to_grvt]; [PYSDK_AVAILABLE] is the flag set at import.  The
    [try] covers everything after the availability test, and its handler
    returns [None] for every exception. *)
Definition connect_to_grvt (PYSDK_AVAILABLE : bool) (c : config)
  : option Client :=
  if negb PYSDK_AVAILABLE then None
  else
    match (name <- cfg_index c "GRVT_ENV" ;;
           env <- GrvtEnv name ;;
           api_key <- cfg_index c "GRVT_API_KEY" ;;
           account <- cfg_index c "GRVT_TRADING_ACCOUNT_ID" ;;
           key <- cfg_index c "GRVT_PRIVATE_KEY" ;;
           client <- GrvtCcxt env [("api_key", api_key);
                                   ("trading_account_id", account);
                                   ("private_key", key)] ;;
           _ <- cfg_index c "GRVT_ENV" ;;
           Ok client) with
    | Ok client => Some client
    | Raise _ => None
    end.

End Connection.

(** ** Keys and pre-flight checks *)

(** [s.startswith(p)] *)
Fixpoint startswith (p s : string) : bool :=
  match p, s with
  | EmptyString, _ => true
  | String a p', String b s' => Ascii.eqb a b && startswith p' s'
  | String _ _, EmptyString => false
  end.

(** [if not private_key.startswith('0x'): private_key = '0x' + private_key] *)
Definition with_0x (private_key : string) : string :=
  if startswith "0x" private_key then private_key else "0x" ++ private_key.

(** A byte that continues a UTF-8 sequence ([10xxxxxx]). *)
Definition is_continuation (c : ascii) : bool :=
  match c with
  | Ascii _ _ _ _ _ _ false true => true
  | _ => false
  end.

(** [len(s)]: the number of code points, that is of the bytes that start
    a UTF-8 sequence. *)
Fixpoint py_len (s : string) : nat :=
  match s with
  | EmptyString => O
  | String c s' => if is_continuation c then py_len s' else S (py_len s')
  end.

(** [check_pysdk_availability]: the branch taken when the SDK is missing
    formats the free name [PYSDK_PATH] into its message. *)
Definition check_pysdk_availability (PYSDK_AVAILABLE : bool) : result bool :=
  if PYSDK_AVAILABLE then Ok true
  else (_ <- load_global "PYSDK_PATH" ;; Ok false).

(** [results[k] = b] *)
Fixpoint results_set (results : list (string * bool)) (k : string) (b : bool)
  : list (string * bool) :=
  match results with
  | [] => [(k, b)]
  | (k', b') :: rest =>
      if String.eqb k k' then (k, b) :: rest else (k', b') :: results_set rest k b
  end.

Section Preflight.

(** [Account.from_key(key).address]: the signing library is external. *)
Variable address_of_key : string -> result string.

Definition get_account_public_address (private_key : string) : result string :=
  address_of_key (with_0x private_key).

Definition run_preflight_checks (PYSDK_AVAILABLE : bool) (c : config)
  : result (list (string * bool)) :=
  let results : list (string * bool) := [] in
  pysdk <- check_pysdk_availability PYSDK_AVAILABLE ;;
  let results := results_set results "pysdk" pysdk in
  v <- validate_config c ;;
  let '(is_valid, missing) := v in
  let results := results_set results "config" is_valid in
  let private_key := match cfg_get c "GRVT_PRIVATE_KEY" with
                     | Some k => k
                     | None => ""
                     end in
  if negb (String.eqb private_key "") && startswith "0x" private_key
     && Nat.eqb (py_len private_key) 66
  then
    let results := results_set results "private_key_format" true in
    _ <- get_account_public_address private_key ;;
    Ok results
  else
    Ok (results_set results "private_key_format" false).

End Preflight.

(** ** Formatting *)

(** The thousands separators of the [,] format option, on the digits in
    reverse order; [k] digits have been put since the last separator. *)
Fixpoint commas (rev_digits : list ascii) (k : nat) : list ascii :=
  match rev_digits with
  | [] => []
  | c :: rest =>
      match rest with
      | [] => [c]
      | _ => if Nat.eqb k 2 then c :: ","%char :: commas rest 0
             else c :: commas rest (S k)
      end
  end.

Definition group (digits : string) : string :=
  string_of_list_ascii (rev (commas (rev (list_ascii_of_string digits)) 0)).

(** [format(x, ',.{decimals}f')] and [format(x, '.{decimals}f')]: the exact
    value correctly rounded to [decimals] places; [ValueError] for a
    negative precision or one above [INT_MAX]. *)
Definition format_fixed (comma : bool) (decimals : Z) (x : float)
  : result string :=
  if (decimals <? 0) || (2147483647 <? decimals) then Raise ValueError
  else
    Ok match x with
       | NaN => "nan"
       | Inf s => sign_str s ++ "inf"
       | Fin s a =>
           let p := 10 ^ decimals in
           let c := rhe (a * p) scale in
           let int_digits := dec (c / p) in
           let frac_digits := dec (c mod p) in
           sign_str s ++ (if comma then group int_digits else int_digits)
           ++ (if decimals =? 0 then ""
               else "." ++ zeros (Z.to_nat decimals - String.length frac_digits)
                        ++ frac_digits)
       end.

Section Formatting.

(** [float(s)] for a str is the runtime's parser ([None]: [ValueError]). *)
Variable float_of_str : string -> option float.

(** [float(value)] *)
Definition py_float (v : value) : result float :=
  match v with
  | VFloat x => Ok x
  | VInt n => of_Z n
  | VBool b => Ok (if b then Fin false scale else zero)
  | VStr s => match float_of_str s with
              | Some x => Ok x
              | None => Raise ValueError
              end
  | VNone | VList _ | VDict _ => Raise TypeError
  end.

(** [float(value) if value is not None else 0.0], with [ValueError] and
    [TypeError] turned into [0.0]. *)
Definition float_or_zero (v : value) : result float :=
  match v with
  | VNone => Ok zero
  | _ => match py_float v with
         | Ok x => Ok x
         | Raise ValueError => Ok zero
         | Raise TypeError => Ok zero
         | Raise e => Raise e
         end
  end.

Definition format_currency (v : value) (decimals : Z) (symbol : string)
  : result string :=
  value <- float_or_zero v ;;
  if fge value zero then
    body <- format_fixed true decimals value ;;
    Ok (symbol ++ body)
  else
    body <- format_fixed true decimals (fabs value) ;;
    Ok ("-" ++ symbol ++ body).

Definition format_percentage (v : value) (decimals : Z) : result string :=
  value <- float_or_zero v ;;
  let sign := if fge value zero then "+" else "" in
  body <- format_fixed false decimals value ;;
  Ok (sign ++ body ++ "%").

(** The values that [float()] refuses with [ValueError] or [TypeError]. *)
Definition not_numeric (v : value) : Prop :=
  match v with
  | VNone | VList _ | VDict _ => True
  | VStr s => float_of_str s = None
  | _ => False
  end.

End Formatting.

(** ** Tables *)

(** A [pandas.DataFrame] is modelled by what it is built from: column
    names only, a list of row records, or a mapping from column names to
    column values. *)
Inductive table : Type :=
  | Header (columns : list string)
  | Records (rows : list dict)
  | ColumnData (columns : list (string * list value)).

Definition position_columns : list string :=
  ["Symbol"; "Side"; "Size"; "Entry Price"; "Mark Price"; "Unrealized P&L"].

(** [val.get(key, {}) if isinstance(val, dict) else default] *)
Definition descend (val : value) (key : string) : value :=
  match val with
  | VDict d => match dict_get d key with
               | Some v => v
               | None => VDict []
               end
  | _ => VFloat zero
  end.

(** [val in (None, {}, '')] *)
Definition is_blank (val : value) : bool :=
  match val with
  | VNone => true
  | VDict [] => true
  | VStr s => String.eqb s ""
  | _ => false
  end.

Definition account_metrics : list value :=
  [VStr "Total Equity"; VStr "Available Balance"; VStr "Used Margin";
   VStr "Unrealized P&L"].

Section Tables.

Variable float_of_str : string -> option float.

(** [format_currency(safe_float(pos.get(key, 0)))] *)
Definition currency_field (pos : value) (key : string) : result value :=
  raw <- py_get pos key (VInt 0) ;;
  x <- safe_float_local float_of_str raw ;;
  s <- format_currency float_of_str (VFloat x) 2 "$" ;;
  Ok (VStr s).

(** One iteration of the loop of [create_positions_table]: the row added
    for a position, if any. *)
Definition position_row (pos : value) : result (option dict) :=
  raw <- py_get pos "size" (VInt 0) ;;
  size <- safe_float_local float_of_str raw ;;
  if negb (feq size zero) then
    symbol <- py_get pos "instrument" (VStr "N/A") ;;
    let side := if fgt size zero then "LONG" else "SHORT" in
    entry <- currency_field pos "entry_price" ;;
    mark <- currency_field pos "mark_price" ;;
    pnl <- currency_field pos "unrealized_pnl" ;;
    Ok (Some [("Symbol", symbol); ("Side", VStr side);
              ("Size", VFloat (fabs size)); ("Entry Price", entry);
              ("Mark Price", mark); ("Unrealized P&L", pnl)])
  else Ok None.

Fixpoint position_rows (positions : list value) (data : list dict)
  : result (list dict) :=
  match positions with
  | [] => Ok data
  | pos :: rest =>
      row <- position_row pos ;;
      position_rows rest match row with
                         | Some r => (data ++ [r])%list
                         | None => data
                         end
  end.

Definition create_positions_table (positions : list value) : result table :=
  match positions with
  | [] => Ok (Header position_columns)
  | _ =>
      data <- position_rows positions [] ;;
      Ok (Records data)
  end.

(** The helper [safe_get_float] of [create_account_table]. *)
Definition safe_get_float (d : value) (keys : list string) : result float :=
  let val := fold_left descend keys d in
  if is_blank val then Ok zero
  else match py_float float_of_str val with
       | Ok x => Ok x
       | Raise ValueError => Ok zero
       | Raise TypeError => Ok zero
       | Raise e => Raise e
       end.

(** [format_currency(safe_get_float(account_data, key1, key2))] *)
Definition balance_field (account_data : value) (key1 key2 : string)
  : result value :=
  x <- safe_get_float account_data [key1; key2] ;;
  s <- format_currency float_of_str (VFloat x) 2 "$" ;;
  Ok (VStr s).

Definition create_account_table (account_data : value) : result table :=
  total <- balance_field account_data "total" "USDT" ;;
  free <- balance_field account_data "free" "USDT" ;;
  used <- balance_field account_data "used" "USDT" ;;
  pnl <- balance_field account_data "info" "unrealized_pnl" ;;
  Ok (ColumnData [("Metric", account_metrics);
                  ("Value", [total; free; used; pnl])]).

(** A position that [create_positions_table] leaves out: its size reads as
    zero. *)
Definition closed (pos : value) : bool :=
  match py_get pos "size" (VInt 0) with
  | Ok raw => match safe_float_local float_of_str raw with
              | Ok size => feq size zero
              | Raise _ => false
              end
  | Raise _ => false
  end.

End Tables.

(** ** Further definitions used in the statements *)

(** A window of whole seconds whose length in microseconds is at most
    [2^52]: ages are then compared exactly. *)
Definition window_ok (W : Z) : Prop := 0 < W /\ W * 10 ^ 6 <= 2 ^ 52.

Definition sl_long_message (L : float) : string :=
  "SL for LONG must be < last price ($" ++ format_2f L ++ ")".

Definition sl_short_message (L : float) : string :=
  "SL for SHORT must be > last price ($" ++ format_2f L ++ ")".

(** [2 * |p| <= |t|] for finite [p] and [t]: at most half a tick. *)
Definition at_most_half_tick (p t : float) : Prop :=
  match p, t with
  | Fin _ a, Fin _ b => 2 * a <= b
  | _, _ => False
  end.

(** A field bound to a non-empty string. *)
Definition field_set (c : config) (field : string) : bool :=
  match cfg_get c field with
  | Some v => negb (String.eqb v "")
  | None => false
  end.

(** A private key of the expected shape: 66 characters, the first two
    [0x]. *)
Definition key_format_ok (c : config) : bool :=
  match cfg_get c "GRVT_PRIVATE_KEY" with
  | Some k => startswith "0x" k && Nat.eqb (py_len k) 66
  | None => false
  end.

(** [config.get('GRVT_PRIVATE_KEY', '')] *)
Definition private_key_of (c : config) : string :=
  match cfg_get c "GRVT_PRIVATE_KEY" with
  | Some k => k
  | None => ""
  end.

(** The id that [emergency_cancel_all] reads from an order record:
    [order.get('order_id', order.get('id'))]. *)
Definition order_id_of (d : dict) : value :=
  match dict_get d "order_id" with
  | Some v => v
  | None => match dict_get d "id" with
            | Some v => v
            | None => VNone
            end
  end.

Definition is_str (v : value) : bool :=
  match v with VStr _ => true | _ => false end.

(** An order record without legs whose [side], when present, is a
    string. *)
Definition flat_order (d : dict) : Prop :=
  match dict_get d "legs" with
  | Some legs => truthy_value legs = false
  | None => True
  end /\
  match dict_get d "side" with
  | Some v => is_str v = true
  | None => True
  end.

(** Whether an order is counted as cancelled when the client answers
    [outcome order_id] to [cancel_order(order_id)]. *)
Definition cancelled (outcome : value -> result value) (order : value) : bool :=
  match order_to_cancel order with
  | Ok (Some order_id) =>
      match outcome order_id with
      | Ok r => negb (cancel_failed r)
      | Raise _ => false
      end
  | _ => false
  end.

(** The answers of [recording_client] to [cancel_order]. *)
Definition recording_outcome (order_id : value) : result value :=
  snd (cancel_order recording_client [] order_id).

(** The digits of [format_fixed], without the sign. *)
Definition fixed_digits (comma : bool) (decimals : Z) (x : float) : string :=
  match x with
  | NaN => "nan"
  | Inf _ => "inf"
  | Fin _ a =>
      let p := 10 ^ decimals in
      let c := rhe (a * p) scale in
      (if comma then group (dec (c / p)) else dec (c / p))
      ++ (if decimals =? 0 then ""
          else "." ++ zeros (Z.to_nat decimals - String.length (dec (c mod p)))
                   ++ dec (c mod p))
  end.

Definition valid_precision (decimals : Z) : Prop := 0 <= decimals <= 2147483647.

(** A float whose magnitude is not negative, as every float is. *)
Definition mag_nonneg (x : float) : Prop :=
  match x with
  | Fin _ a => 0 <= a
  | _ => True
  end.

(** The sign class of a float. *)
Inductive sign_class : Type := Positive | NegativeZero | Negative | NotANumber.

Definition classify (x : float) : sign_class :=
  match x with
  | NaN => NotANumber
  | Inf s => if s then Negative else Positive
  | Fin s a => if s then (if a =? 0 then NegativeZero else Negative) else Positive
  end.

(** What every row of the positions table looks like. *)
Definition position_row_ok (row : dict) : Prop :=
  keys row = position_columns /\
  (dict_get row "Side" = Some (VStr "LONG") \/
   dict_get row "Side" = Some (VStr "SHORT")) /\
  exists size, dict_get row "Size" = Some (VFloat (fabs size)) /\
               feq size zero = false.

(** An account record without balances. *)
Definition no_balances (account_data : value) : Prop :=
  match account_data with
  | VDict d => dict_get d "total" = None /\ dict_get d "free" = None /\
               dict_get d "used" = None /\ dict_get d "info" = None
  | _ => True
  end.

(** * Properties *)

(** ** Rounding to the nearest integer *)

Lemma rhe_cases (a b : Z) :
  0 < b ->
  (rhe a b = a / b /\ 2 * (a mod b) <= b) \/
  (rhe a b = a / b + 1 /\ b <= 2 * (a mod b)).
Proof.
  intros Hb. unfold rhe.
  destruct (Z.compare_spec (2 * (a mod b)) b) as [E|E|E].
  - destruct (Z.even (a / b)); [left | right]; split; lia.
  - left. split; lia.
  - right. split; lia.
Qed.

(** The rounded quotient is within half a unit of the exact one. *)
Lemma rhe_error (a b : Z) :
  0 < b -> 2 * Z.abs (rhe a b * b - a) <= b.
Proof.
  intros Hb.
  pose proof (Z.div_mod a b ltac:(lia)) as Hdm.
  pose proof (Z.mod_pos_bound a b Hb) as Hr.
  destruct (rhe_cases a b Hb) as [[-> H]|[-> H]]; nia.
Qed.

(** An integer within less than half a unit is the rounded quotient. *)
Lemma rhe_unique (a b n : Z) :
  0 < b -> 2 * Z.abs (a - n * b) < b -> rhe a b = n.
Proof.
  intros Hb Hn.
  pose proof (rhe_error a b Hb) as He.
  assert (Hd : - b < (rhe a b - n) * b < b) by lia.
  nia.
Qed.

Lemma rhe_exact (n b : Z) : 0 < b -> rhe (n * b) b = n.
Proof.
  intros Hb. apply rhe_unique; [exact Hb|].
  replace (n * b - n * b) with 0 by ring. simpl. lia.
Qed.

Lemma rhe_le (a b n : Z) : 0 < b -> a <= n * b -> rhe a b <= n.
Proof.
  intros Hb Hle.
  pose proof (Z.div_mod a b ltac:(lia)) as Hdm.
  pose proof (Z.mod_pos_bound a b Hb) as Hr.
  destruct (rhe_cases a b Hb) as [[-> H]|[-> H]]; nia.
Qed.

Lemma rhe_ge (a b n : Z) : 0 < b -> n * b <= a -> n <= rhe a b.
Proof.
  intros Hb Hle.
  pose proof (Z.div_mod a b ltac:(lia)) as Hdm.
  pose proof (Z.mod_pos_bound a b Hb) as Hr.
  destruct (rhe_cases a b Hb) as [[-> H]|[-> H]]; nia.
Qed.

Lemma rhe_nonneg (a b : Z) : 0 <= a -> 0 < b -> 0 <= rhe a b.
Proof. intros Ha Hb. apply rhe_ge; lia. Qed.

(** The rounded quotient depends on the fraction only. *)
Lemma rhe_scale (a b c : Z) : 0 < b -> 0 < c -> rhe (a * c) (b * c) = rhe a b.
Proof.
  intros Hb Hc. unfold rhe.
  rewrite Z.div_mul_cancel_r by lia.
  rewrite Zmult_mod_distr_r.
  replace (2 * (a mod b * c)) with (2 * (a mod b) * c) by ring.
  rewrite <- (Zmult_compare_compat_r (2 * (a mod b)) b c) by lia.
  reflexivity.
Qed.

(** ** Rounding to 53 significant bits *)

Lemma round_mag_unfold (a b : Z) :
  round_mag a b = rhe a (b * 2 ^ ulp_exp a b) * 2 ^ ulp_exp a b.
Proof. reflexivity. Qed.

Lemma ulp_exp_nonneg (a b : Z) : 0 <= ulp_exp a b.
Proof. unfold ulp_exp. lia. Qed.

(** Above the first binade the unit is at most [2^-52] of the value. *)
Lemma ulp_exp_bound (a b : Z) :
  0 < b -> 0 < ulp_exp a b -> b * 2 ^ ulp_exp a b * 2 ^ 52 <= a.
Proof.
  intros Hb Hk. unfold ulp_exp in *.
  assert (Hl : 52 < Z.log2 (a / b)) by lia.
  assert (Hq : 0 < a / b).
  { destruct (Z.lt_ge_cases 0 (a / b)) as [H|H]; [exact H|].
    rewrite (Z.log2_nonpos (a / b)) in Hl by lia. lia. }
  pose proof (Z.log2_spec (a / b) Hq) as [Hlo _].
  rewrite Z.max_r by lia.
  replace (b * 2 ^ (Z.log2 (a / b) - 52) * 2 ^ 52)
    with (b * (2 ^ (Z.log2 (a / b) - 52) * 2 ^ 52)) by ring.
  rewrite <- Z.pow_add_r by lia.
  replace (Z.log2 (a / b) - 52 + 52) with (Z.log2 (a / b)) by ring.
  pose proof (Z.mul_div_le a b Hb). nia.
Qed.

Lemma round_mag_scale (a b c : Z) :
  0 < b -> 0 < c -> round_mag (a * c) (b * c) = round_mag a b.
Proof.
  intros Hb Hc. rewrite !round_mag_unfold. unfold ulp_exp.
  rewrite Z.div_mul_cancel_r by lia.
  set (k := Z.max 0 (Z.log2 (a / b) - 52)).
  replace (b * c * 2 ^ k) with (b * 2 ^ k * c) by ring.
  rewrite rhe_scale; [reflexivity| |exact Hc].
  assert (0 < 2 ^ k) by (apply Z.pow_pos_nonneg; unfold k; lia). nia.
Qed.

Lemma round_mag_nonneg (a b : Z) : 0 <= a -> 0 < b -> 0 <= round_mag a b.
Proof.
  intros Ha Hb. rewrite round_mag_unfold.
  assert (0 < 2 ^ ulp_exp a b) by (apply Z.pow_pos_nonneg; [lia|apply ulp_exp_nonneg]).
  apply Z.mul_nonneg_nonneg; [|lia].
  apply rhe_nonneg; [exact Ha|nia].
Qed.

(** The relative error of rounding is at most [2^-53], up to half a unit
    of [2^-1074]. *)
Lemma round_mag_error (a b : Z) :
  0 <= a -> 0 < b ->
  2 ^ 53 * Z.abs (round_mag a b * b - a) <= a + 2 ^ 52 * b.
Proof.
  intros Ha Hb. rewrite round_mag_unfold.
  set (k := ulp_exp a b).
  assert (Hk : 0 <= k) by apply ulp_exp_nonneg.
  assert (Hp : 0 < 2 ^ k) by (apply Z.pow_pos_nonneg; lia).
  pose proof (rhe_error a (b * 2 ^ k) ltac:(nia)) as He.
  replace (rhe a (b * 2 ^ k) * 2 ^ k * b) with (rhe a (b * 2 ^ k) * (b * 2 ^ k)) by ring.
  destruct (Z.eq_dec k 0) as [E|E].
  - rewrite E in *. change (2 ^ 0) with 1 in *. rewrite Z.mul_1_r in *.
    change (2 ^ 53) with (2 * 2 ^ 52). nia.
  - pose proof (ulp_exp_bound a b Hb ltac:(fold k; lia)) as Hu. fold k in Hu.
    change (2 ^ 53) with (2 ^ 52 * 2).
    assert (2 ^ 52 * (2 * Z.abs (rhe a (b * 2 ^ k) * (b * 2 ^ k) - a)) <= 2 ^ 52 * (b * 2 ^ k)).
    { apply Z.mul_le_mono_nonneg_l; [lia|exact He]. }
    lia.
Qed.

(** On integers (denominator one) the error is purely relative. *)
Lemma round_mag_error_int (a : Z) :
  0 <= a -> 2 ^ 53 * Z.abs (round_mag a 1 - a) <= a.
Proof.
  intros Ha. rewrite round_mag_unfold.
  set (k := ulp_exp a 1).
  assert (Hk : 0 <= k) by apply ulp_exp_nonneg.
  assert (Hp : 0 < 2 ^ k) by (apply Z.pow_pos_nonneg; lia).
  destruct (Z.eq_dec k 0) as [E|E].
  - rewrite E. change (2 ^ 0) with 1. rewrite !Z.mul_1_r.
    replace a with (a * 1) at 1 by ring. rewrite rhe_exact by lia.
    replace (a - a) with 0 by ring. simpl. lia.
  - pose proof (ulp_exp_bound a 1 ltac:(lia) ltac:(fold k; lia)) as Hu. fold k in Hu.
    pose proof (rhe_error a (1 * 2 ^ k) ltac:(lia)) as He.
    rewrite Z.mul_1_l in *.
    change (2 ^ 53) with (2 ^ 52 * 2).
    assert (2 ^ 52 * (2 * Z.abs (rhe a (2 ^ k) * 2 ^ k - a)) <= 2 ^ 52 * 2 ^ k).
    { apply Z.mul_le_mono_nonneg_l; [lia|exact He]. }
    lia.
Qed.

(** Rounding does not cross a power of two. *)
Lemma round_mag_le_pow2 (a b J : Z) :
  0 <= a -> 0 < b -> 52 <= J -> a <= 2 ^ J * b -> round_mag a b <= 2 ^ J.
Proof.
  intros Ha Hb HJ Hle. rewrite round_mag_unfold.
  set (k := ulp_exp a b).
  assert (Hk : 0 <= k) by apply ulp_exp_nonneg.
  assert (HkJ : k <= J - 52).
  { unfold k, ulp_exp. apply Z.max_lub; [lia|].
    assert (a / b <= 2 ^ J).
    { apply Z.div_le_upper_bound; [exact Hb|]. lia. }
    assert (Z.log2 (a / b) <= Z.log2 (2 ^ J)) by (apply Z.log2_le_mono; assumption).
    rewrite Z.log2_pow2 in * by lia. lia. }
  assert (Hp : 0 < 2 ^ k) by (apply Z.pow_pos_nonneg; lia).
  assert (E : 2 ^ J = 2 ^ (J - k) * 2 ^ k).
  { rewrite <- Z.pow_add_r by lia. f_equal. ring. }
  rewrite E. apply Z.mul_le_mono_nonneg_r; [lia|].
  apply rhe_le; [nia|]. rewrite E in Hle. nia.
Qed.

(** A magnitude with at most 53 significant bits is its own rounding. *)
Lemma round_mag_exact (m j : Z) :
  0 <= m < 2 ^ 53 -> 0 <= j -> round_mag (m * 2 ^ j) 1 = m * 2 ^ j.
Proof.
  intros Hm Hj. rewrite round_mag_unfold.
  set (k := ulp_exp (m * 2 ^ j) 1).
  assert (Hk : 0 <= k) by apply ulp_exp_nonneg.
  assert (HkJ : k <= j).
  { unfold k, ulp_exp. rewrite Z.div_1_r. apply Z.max_lub; [lia|].
    destruct (Z.eq_dec m 0) as [->|Hm0]; [simpl; lia|].
    rewrite Z.log2_mul_pow2 by lia.
    assert (Z.log2 m < 53) by (apply Z.log2_lt_pow2; lia). lia. }
  assert (Hp : 0 < 2 ^ k) by (apply Z.pow_pos_nonneg; lia).
  assert (E : m * 2 ^ j = m * 2 ^ (j - k) * (1 * 2 ^ k)).
  { rewrite Z.mul_1_l, <- Z.mul_assoc, <- Z.pow_add_r by lia. do 2 f_equal. ring. }
  rewrite E at 1. rewrite rhe_exact by lia.
  rewrite <- Z.mul_assoc, <- Z.pow_add_r by lia. do 2 f_equal. ring.
Qed.

(** The mantissa kept by [round_mag] has at most 53 bits, or is [2^53]. *)
Lemma round_mag_mantissa (a b : Z) :
  0 <= a -> 0 < b -> 0 <= rhe a (b * 2 ^ ulp_exp a b) <= 2 ^ 53.
Proof.
  intros Ha Hb.
  set (k := ulp_exp a b).
  assert (Hk : 0 <= k) by apply ulp_exp_nonneg.
  assert (Hp : 0 < 2 ^ k) by (apply Z.pow_pos_nonneg; lia).
  split; [apply rhe_nonneg; [exact Ha|nia]|].
  apply rhe_le; [nia|].
  assert (Hq : a / b < 2 ^ (k + 53)).
  { destruct (Z.le_gt_cases (a / b) 0) as [H0|H0].
    - assert (0 < 2 ^ (k + 53)) by (apply Z.pow_pos_nonneg; lia). lia.
    - pose proof (Z.log2_spec (a / b) H0) as [_ Hhi].
      eapply Z.lt_le_trans; [exact Hhi|].
      apply Z.pow_le_mono_r; [lia|]. unfold k, ulp_exp. lia. }
  rewrite Z.pow_add_r in Hq by lia.
  pose proof (Z.div_mod a b ltac:(lia)) as Hdm.
  pose proof (Z.mod_pos_bound a b Hb) as Hr.
  nia.
Qed.

(** Every finite result of rounding is a binary64 magnitude. *)
Lemma round_mag_representable (a b : Z) :
  0 <= a -> 0 < b -> round_mag a b < overflow_threshold ->
  representable (round_mag a b).
Proof.
  intros Ha Hb Hlt.
  pose proof (round_mag_mantissa a b Ha Hb) as Hm.
  pose proof (ulp_exp_nonneg a b) as Hk.
  rewrite round_mag_unfold in *.
  set (k := ulp_exp a b) in *. set (m := rhe a (b * 2 ^ k)) in *.
  destruct (Z.eq_dec m (2 ^ 53)) as [E|E].
  - exists (2 ^ 52), (k + 1).
    split.
    { rewrite E, Z.pow_add_r by lia. change (2 ^ 53) with (2 ^ 52 * 2 ^ 1). ring. }
    split; [split; [apply Z.pow_nonneg; lia | apply Z.pow_lt_mono_r; lia]|].
    split; [lia|exact Hlt].
  - exists m, k. split; [reflexivity|]. split; [lia|]. split; [lia|exact Hlt].
Qed.

Lemma mk_wf (s : bool) (a b : Z) : 0 <= a -> 0 < b -> wf (mk s a b).
Proof.
  intros Ha Hb. unfold mk.
  destruct (round_mag a b <? overflow_threshold) eqn:E; [|exact I].
  apply Z.ltb_lt in E. simpl. apply round_mag_representable; assumption.
Qed.

(** A decimal literal denotes a binary64 value. *)
Lemma of_decimal_wf (digits exp10 : Z) : wf (of_decimal digits exp10).
Proof.
  unfold of_decimal.
  assert (HS : 0 < scale) by reflexivity.
  destruct (Z.ltb_spec exp10 0).
  - apply mk_wf; [nia|apply Z.pow_pos_nonneg; lia].
  - apply mk_wf; [|lia].
    assert (0 <= 10 ^ exp10) by (apply Z.pow_nonneg; lia). nia.
Qed.

(** ** Dividing a rounded multiple of the tick by the tick *)

Section Requotient.

Variables S n t R Q : Z.
Hypothesis HS : 4 <= S.
Hypothesis Hn : 0 <= n <= 2 ^ 50.
Hypothesis Ht : 0 < t.
Hypothesis ER : R = round_mag (n * t) 1.
Hypothesis EQ : Q = round_mag (R * S) t.

Lemma requotient_R_nonneg : 0 <= R.
Proof. rewrite ER. apply round_mag_nonneg; nia. Qed.

Lemma requotient_R_error : 2 ^ 53 * Z.abs (R - n * t) <= n * t.
Proof. rewrite ER. apply round_mag_error_int. nia. Qed.

Lemma requotient_Q_error : 2 ^ 53 * Z.abs (Q * t - R * S) <= R * S + 2 ^ 52 * t.
Proof.
  rewrite EQ. apply round_mag_error; [|exact Ht].
  pose proof requotient_R_nonneg. nia.
Qed.

(** The quotient of the rounded product by the tick is within half a unit
    of [n]: the two rounding errors are below [2^-52 * n] together. *)
Lemma requotient_close : 2 * Z.abs (Q - n * S) < S.
Proof.
  pose proof requotient_R_nonneg as HR.
  pose proof requotient_R_error as HB.
  pose proof requotient_Q_error as HA.
  clear ER EQ.
  set (u := n * t) in *.
  assert (Hu : 0 <= u <= 2 ^ 50 * t) by (unfold u; nia).
  set (eB := R - u) in *.
  set (eA := Q * t - R * S) in *.
  assert (HRu : R = u + eB) by (unfold eB; ring).
  assert (E : (Q - n * S) * t = eA + S * eB) by (unfold eA, eB, u; ring).
  assert (HSu : 0 <= S * u <= 2 ^ 50 * (S * t)) by nia.
  assert (HSeB : 2 ^ 53 * (S * Z.abs eB) <= S * u).
  { replace (2 ^ 53 * (S * Z.abs eB)) with (S * (2 ^ 53 * Z.abs eB)) by ring.
    apply Z.mul_le_mono_nonneg_l; lia. }
  assert (HRS : R * S <= S * u + S * Z.abs eB) by (rewrite HRu; nia).
  assert (Habs : Z.abs (eA + S * eB) <= Z.abs eA + S * Z.abs eB).
  { rewrite <- (Z.abs_eq S) at 2 by lia. rewrite <- Z.abs_mul. apply Z.abs_triangle. }
  assert (Hst : 0 < S * t) by nia.
  assert (Hfin : 2 * Z.abs ((Q - n * S) * t) < S * t).
  { rewrite E.
    assert (2 ^ 106 * (2 * Z.abs (eA + S * eB)) < 2 ^ 106 * (S * t)); [|lia].
    change (2 ^ 106) with (2 ^ 53 * 2 ^ 53).
    change (2 ^ 53) with 9007199254740992 in *.
    change (2 ^ 52) with 4503599627370496 in *.
    change (2 ^ 50) with 1125899906842624 in *.
    nia. }
  rewrite Z.abs_mul, (Z.abs_eq t) in Hfin by lia.
  nia.
Qed.

Lemma requotient_round : rhe Q S = n.
Proof. apply rhe_unique; [lia|]. apply requotient_close. Qed.

Lemma requotient_bound : Q <= (n + 1) * S.
Proof. pose proof requotient_close. lia. Qed.

End Requotient.

(** ** Tick rounding on positive finite floats *)

Lemma scale_eq : scale = 2 ^ 1074.
Proof. reflexivity. Qed.

Lemma scale_pos : 4 <= scale.
Proof.
  rewrite scale_eq. change 4 with (2 ^ 2).
  apply Z.pow_le_mono_r; lia.
Qed.

Lemma ticks_below_overflow (n : Z) :
  0 <= n <= 2 ^ 53 -> n * scale < overflow_threshold.
Proof.
  intros Hn. unfold overflow_threshold. rewrite scale_eq.
  assert (H1 : 2 ^ 53 * 2 ^ 1074 < 2 ^ 2098).
  { rewrite <- Z.pow_add_r by lia. apply Z.pow_lt_mono_r; lia. }
  assert (0 < 2 ^ 1074) by (apply Z.pow_pos_nonneg; lia).
  nia.
Qed.

Lemma mk_finite (s : bool) (a b : Z) :
  round_mag a b < overflow_threshold -> mk s a b = Fin s (round_mag a b).
Proof.
  intros H. unfold mk. apply Z.ltb_lt in H. rewrite H. reflexivity.
Qed.

(** [float(n)] is exact for an int below [2^53]. *)
Lemma of_Z_small (n : Z) :
  0 <= n < 2 ^ 53 -> of_Z n = Ok (Fin false (n * scale)).
Proof.
  intros Hn. unfold of_Z.
  rewrite Z.abs_eq by lia.
  assert (E : round_mag (n * scale) 1 = n * scale).
  { rewrite scale_eq. apply round_mag_exact; lia. }
  rewrite E.
  pose proof (ticks_below_overflow n ltac:(lia)) as Hlt.
  apply Z.ltb_lt in Hlt. rewrite Hlt.
  assert (Hs : (n <? 0) = false) by (apply Z.ltb_ge; lia).
  rewrite Hs. reflexivity.
Qed.

Lemma round_mag_scale1 (x : Z) : round_mag (x * scale) scale = round_mag x 1.
Proof.
  pose proof scale_pos as HS.
  replace scale with (1 * scale) at 2 by ring.
  apply round_mag_scale; lia.
Qed.

(** The value of [round_to_tick_size] when the quotient is finite and the
    tick count [n] is below [2^53]: the float nearest to [n * tick]. *)
Lemma round_to_tick_size_value (a t : Z) :
  0 <= a -> 0 < t ->
  round_mag (a * scale) t < overflow_threshold ->
  0 <= rhe (round_mag (a * scale) t) scale < 2 ^ 53 ->
  round_to_tick_size (Fin false a) (Fin false t)
  = Ok (mk false (rhe (round_mag (a * scale) t) scale * t) 1).
Proof.
  intros Ha Ht HQ Hn.
  unfold round_to_tick_size, truediv, is_zero, fdiv.
  assert (Ht0 : (t =? 0) = false) by (apply Z.eqb_neq; lia).
  rewrite Ht0. cbn [bind xorb].
  rewrite (mk_finite false _ _ HQ). cbn [py_round bind signed].
  unfold int_mul_float. rewrite (of_Z_small _ Hn). cbn [bind fmul xorb].
  f_equal. unfold mk.
  replace (rhe (round_mag (a * scale) t) scale * scale * t)
    with (rhe (round_mag (a * scale) t) scale * t * scale) by ring.
  rewrite round_mag_scale1. reflexivity.
Qed.

(** Rounding does not go below a representable magnitude that the exact
    value reaches. *)
Lemma round_mag_ge (a b m j : Z) :
  0 <= m < 2 ^ 53 -> 0 <= j -> 0 < b ->
  m * 2 ^ j * b <= a -> m * 2 ^ j <= round_mag a b.
Proof.
  intros Hm Hj Hb Hle. rewrite round_mag_unfold.
  set (k := ulp_exp a b).
  assert (Hk : 0 <= k) by apply ulp_exp_nonneg.
  assert (Hp : 0 < 2 ^ k) by (apply Z.pow_pos_nonneg; lia).
  assert (Hpj : 0 < 2 ^ j) by (apply Z.pow_pos_nonneg; lia).
  destruct (Z.le_gt_cases k j) as [Hkj|Hkj].
  - assert (E : 2 ^ j = 2 ^ (j - k) * 2 ^ k).
    { rewrite <- Z.pow_add_r by lia. f_equal. ring. }
    rewrite E, Z.mul_assoc.
    apply Z.mul_le_mono_nonneg_r; [lia|].
    apply rhe_ge; [nia|]. rewrite E in Hle. nia.
  - pose proof (ulp_exp_bound a b Hb ltac:(fold k; lia)) as Hu. fold k in Hu.
    assert (H52 : 2 ^ 52 <= rhe a (b * 2 ^ k)) by (apply rhe_ge; nia).
    assert (E : 2 ^ k = 2 ^ (k - j - 1) * 2 * 2 ^ j).
    { replace (2 ^ (k - j - 1) * 2) with (2 ^ (k - j - 1) * 2 ^ 1) by reflexivity.
      rewrite <- !Z.pow_add_r by lia. f_equal. ring. }
    assert (0 < 2 ^ (k - j - 1)) by (apply Z.pow_pos_nonneg; lia).
    change (2 ^ 53) with (2 ^ 52 * 2) in Hm.
    set (r := rhe a (b * 2 ^ k)) in *.
    set (c := 2 ^ (k - j - 1)) in *.
    rewrite E.
    assert (H1 : 2 ^ 52 * (2 * 2 ^ j) <= r * (c * (2 * 2 ^ j))).
    { transitivity (r * (2 * 2 ^ j)).
      - apply Z.mul_le_mono_nonneg_r; lia.
      - apply Z.mul_le_mono_nonneg_l; [lia|]. nia. }
    assert (H2 : m * 2 ^ j <= 2 ^ 52 * 2 * 2 ^ j)
      by (apply Z.mul_le_mono_nonneg_r; lia).
    lia.
Qed.

(** At a tie the rounded quotient is even. *)
Lemma rhe_tie_even (a b : Z) :
  0 < b -> 2 * Z.abs (rhe a b * b - a) = b -> Z.even (rhe a b) = true.
Proof.
  intros Hb Ht. unfold rhe in *.
  pose proof (Z.div_mod a b ltac:(lia)) as Hdm.
  pose proof (Z.mod_pos_bound a b Hb) as Hr.
  destruct (Z.compare_spec (2 * (a mod b)) b) as [E|E|E].
  - destruct (Z.even (a / b)) eqn:Ev; [exact Ev|].
    rewrite Z.add_1_r, Z.even_succ, <- Z.negb_even, Ev. reflexivity.
  - exfalso. nia.
  - exfalso. nia.
Qed.

(** Rounding is monotone in the distance to an integer: a numerator that
    is at least as close to [c * b] has a rounded quotient at least as
    close to [c]. *)
Lemma rhe_closer (a1 a2 b c : Z) :
  0 < b ->
  Z.abs (a2 - c * b) <= Z.abs (a1 - c * b) ->
  Z.abs (rhe a2 b - c) <= Z.abs (rhe a1 b - c).
Proof.
  intros Hb Hd.
  pose proof (rhe_error a1 b Hb) as E1. pose proof (rhe_error a2 b Hb) as E2.
  destruct (Z.le_gt_cases (Z.abs (rhe a2 b - c)) (Z.abs (rhe a1 b - c)))
    as [H|H]; [exact H|exfalso].
  pose proof (rhe_tie_even a1 b Hb) as Ev1.
  pose proof (rhe_tie_even a2 b Hb) as Ev2.
  set (m1 := rhe a1 b) in *. set (m2 := rhe a2 b) in *.
  assert (HP : (Z.abs (m1 - c) + 1) * b <= Z.abs (m2 - c) * b)
    by (apply Z.mul_le_mono_nonneg_r; lia).
  assert (A1 : Z.abs ((m1 - c) * b) = Z.abs (m1 - c) * b)
    by (rewrite Z.abs_mul, (Z.abs_eq b); lia).
  assert (A2 : Z.abs ((m2 - c) * b) = Z.abs (m2 - c) * b)
    by (rewrite Z.abs_mul, (Z.abs_eq b); lia).
  assert (T1 : 2 * Z.abs (m1 * b - a1) = b) by lia.
  assert (T2 : 2 * Z.abs (m2 * b - a2) = b) by lia.
  assert (X : Z.abs (m2 - c) = Z.abs (m1 - c) + 1) by nia.
  specialize (Ev1 T1). specialize (Ev2 T2).
  apply Z.even_spec in Ev1, Ev2.
  destruct Ev1 as [h1 Hh1], Ev2 as [h2 Hh2]. lia.
Qed.

(** Inside a binade the unit of [round_mag] is known. *)
Lemma round_mag_binade (x b L : Z) :
  0 < b -> 0 <= L -> 2 ^ L * b <= x < 2 ^ (L + 1) * b ->
  round_mag (x * scale) b
  = rhe (x * scale) (b * 2 ^ (L + 1022)) * 2 ^ (L + 1022).
Proof.
  intros Hb HL [Hlo Hhi]. rewrite round_mag_unfold. unfold ulp_exp.
  assert (HS : 0 < scale) by (pose proof scale_pos; lia).
  assert (E1 : 2 ^ (L + 1074) = 2 ^ L * scale)
    by (rewrite scale_eq, <- Z.pow_add_r by lia; reflexivity).
  assert (E2 : 2 ^ (L + 1074 + 1) = 2 ^ (L + 1) * scale).
  { rewrite scale_eq, <- Z.pow_add_r by lia. f_equal. ring. }
  assert (Hlog : Z.log2 (x * scale / b) = L + 1074).
  { apply Z.log2_unique; [lia|]. split.
    - apply Z.div_le_lower_bound; [lia|]. rewrite E1. nia.
    - unfold Z.succ. apply Z.div_lt_upper_bound; [lia|]. rewrite E2. nia. }
  rewrite Hlog. replace (Z.max 0 (L + 1074 - 52)) with (L + 1022) by lia.
  reflexivity.
Qed.

(** The rounded quotient is a nearest multiple of the unit. *)
Lemma rhe_nearest (x k z : Z) :
  0 < k -> Z.abs (rhe x k * k - x) <= Z.abs (z * k - x).
Proof.
  intros Hk. pose proof (rhe_error x k Hk) as He.
  destruct (Z.eq_dec z (rhe x k)) as [->|Hne]; [lia|].
  assert (Hd : k <= Z.abs ((z - rhe x k) * k)).
  { rewrite Z.abs_mul, (Z.abs_eq k) by lia.
    assert (1 <= Z.abs (z - rhe x k)) by lia. nia. }
  lia.
Qed.

(** [round_mag] returns a magnitude nearest to the integer it rounds,
    among the magnitudes of at most 53 significant bits. *)
Lemma round_mag_nearest (x m j : Z) :
  0 <= x -> 0 <= m < 2 ^ 53 -> 0 <= j ->
  Z.abs (round_mag x 1 - x) <= Z.abs (m * 2 ^ j - x).
Proof.
  intros Hx Hm Hj. rewrite round_mag_unfold.
  set (k := ulp_exp x 1).
  assert (Hk : 0 <= k) by apply ulp_exp_nonneg.
  assert (Hp : 0 < 2 ^ k) by (apply Z.pow_pos_nonneg; lia).
  rewrite Z.mul_1_l.
  destruct (Z.le_gt_cases k j) as [Hkj|Hkj].
  - assert (E : m * 2 ^ j = m * 2 ^ (j - k) * 2 ^ k).
    { rewrite <- Z.mul_assoc, <- Z.pow_add_r by lia. do 2 f_equal. ring. }
    rewrite E. apply rhe_nearest. exact Hp.
  - pose proof (ulp_exp_bound x 1 ltac:(lia) ltac:(fold k; lia)) as Hu.
    fold k in Hu. rewrite Z.mul_1_l in Hu.
    pose proof (rhe_nearest x (2 ^ k) (2 ^ 52) Hp) as Hn.
    assert (Hpj : 0 < 2 ^ j) by (apply Z.pow_pos_nonneg; lia).
    assert (Hz : m * 2 ^ j <= 2 ^ 52 * 2 ^ k).
    { assert (E : 2 ^ k = 2 ^ (k - j - 1) * 2 * 2 ^ j).
      { replace (2 ^ (k - j - 1) * 2) with (2 ^ (k - j - 1) * 2 ^ 1) by reflexivity.
        rewrite <- !Z.pow_add_r by lia. f_equal. ring. }
      assert (0 < 2 ^ (k - j - 1)) by (apply Z.pow_pos_nonneg; lia).
      change (2 ^ 53) with (2 ^ 52 * 2) in Hm.
      rewrite E.
      assert (m * 2 ^ j <= 2 ^ 52 * 2 * 2 ^ j)
        by (apply Z.mul_le_mono_nonneg_r; lia).
      assert (2 ^ 52 * 2 * 2 ^ j <= 2 ^ 52 * (2 ^ (k - j - 1) * 2 * 2 ^ j)) by nia.
      lia. }
    lia.
Qed.


(** ** Rounding the rounded price again *)

Section Reround.

(** A price of magnitude [a] (a float) at a tick of magnitude [b] is
    [n] ticks, where [n] is strictly inside the binade [2^L .. 2^(L+1)];
    [R] is the magnitude of the rounded price. *)
Variables a b n L R : Z.
Hypothesis Ha : exists m k, a = m * 2 ^ k /\ 0 <= m < 2 ^ 53 /\ 0 <= k.
Hypothesis Hb : 0 < b.
Hypothesis HL : 0 <= L.
Hypothesis HnL : 2 ^ L < n < 2 ^ (L + 1).
Hypothesis En : n = rhe (round_mag (a * scale) b) scale.
Hypothesis ER : R = round_mag (n * b) 1.

Lemma reround_a_nonneg : 0 <= a.
Proof.
  destruct Ha as (m & k & -> & Hm & Hk).
  assert (0 < 2 ^ k) by (apply Z.pow_pos_nonneg; lia). nia.
Qed.

Lemma reround_a_binade : 2 ^ L * b <= a < 2 ^ (L + 1) * b.
Proof.
  pose proof scale_pos as HS. pose proof reround_a_nonneg as Ha0.
  assert (E1 : 2 ^ (L + 1074) = 2 ^ L * scale)
    by (rewrite scale_eq, <- Z.pow_add_r by lia; reflexivity).
  assert (E2 : 2 ^ (L + 1 + 1074) = 2 ^ (L + 1) * scale)
    by (rewrite scale_eq, <- Z.pow_add_r by lia; reflexivity).
  split.
  - destruct (Z.le_gt_cases (2 ^ L * b) a) as [H|H]; [exact H|exfalso].
    assert (HQ : round_mag (a * scale) b <= 2 ^ (L + 1074)).
    { apply round_mag_le_pow2; [nia|exact Hb|lia|]. rewrite E1. nia. }
    assert (n <= 2 ^ L).
    { rewrite En. apply rhe_le; [lia|]. rewrite <- E1. exact HQ. }
    lia.
  - destruct (Z.lt_ge_cases a (2 ^ (L + 1) * b)) as [H|H]; [exact H|exfalso].
    assert (HQ : 1 * 2 ^ (L + 1 + 1074) <= round_mag (a * scale) b).
    { apply round_mag_ge; [split; [lia|reflexivity]|lia|exact Hb|].
      rewrite Z.mul_1_l, E2. nia. }
    assert (2 ^ (L + 1) <= n).
    { rewrite En. apply rhe_ge; [lia|]. rewrite <- E2. lia. }
    lia.
Qed.

Lemma reround_nearest : Z.abs (R - n * b) <= Z.abs (a - n * b).
Proof.
  destruct Ha as (m & k & -> & Hm & Hk). rewrite ER.
  assert (0 < 2 ^ L) by (apply Z.pow_pos_nonneg; lia).
  apply round_mag_nearest; [nia|exact Hm|exact Hk].
Qed.

(** The first regime: below [2^52] ticks the unit of the quotient divides
    [scale]. *)
Lemma reround_small :
  L <= 51 ->
  rhe (round_mag (R * scale) b) scale = n /\
  round_mag (R * scale) b < overflow_threshold.
Proof.
  intros HL51.
  pose proof scale_pos as HS. pose proof reround_a_nonneg as Ha0.
  pose proof reround_a_binade as Hbin. pose proof reround_nearest as Hnear.
  set (u := 2 ^ (L + 1022)). set (s := 2 ^ (52 - L)).
  assert (Hu : 0 < u) by (apply Z.pow_pos_nonneg; lia).
  assert (Hs : 2 <= s).
  { unfold s. change 2 with (2 ^ 1) at 1. apply Z.pow_le_mono_r; lia. }
  assert (Esu : scale = s * u).
  { unfold s, u. rewrite scale_eq, <- Z.pow_add_r by lia. f_equal. lia. }
  assert (Hp : 0 < 2 ^ L) by (apply Z.pow_pos_nonneg; lia).
  assert (Hp1 : 2 ^ (L + 1) = 2 * 2 ^ L).
  { rewrite Z.pow_add_r by lia. change (2 ^ 1) with 2. ring. }
  set (ja := rhe (a * scale) (b * u)).
  assert (EQ : round_mag (a * scale) b = ja * u)
    by (apply round_mag_binade; assumption).
  assert (Enj : n = rhe ja s).
  { rewrite En, EQ, Esu. apply rhe_scale; lia. }
  (* the price is less than one tick away from [n] ticks *)
  assert (P1 : 2 * Z.abs (ja * b - a * s) <= b).
  { pose proof (rhe_error (a * scale) (b * u) ltac:(nia)) as He. fold ja in He.
    replace (ja * (b * u) - a * scale) with ((ja * b - a * s) * u) in He
      by (rewrite Esu; ring).
    rewrite Z.abs_mul, (Z.abs_eq u) in He by lia. nia. }
  assert (P2 : 2 * Z.abs ((n * s - ja) * b) <= s * b).
  { pose proof (rhe_error ja s ltac:(lia)) as He. rewrite <- Enj in He.
    rewrite Z.abs_mul, (Z.abs_eq b) by lia. nia. }
  assert (P3 : Z.abs ((a - n * b) * s) = Z.abs (a - n * b) * s)
    by (rewrite Z.abs_mul, (Z.abs_eq s); lia).
  assert (Hlt : Z.abs (a - n * b) < b).
  { destruct (Z.lt_ge_cases (Z.abs (a - n * b)) b) as [H|H]; [exact H|exfalso].
    assert (b * s <= Z.abs (a - n * b) * s)
      by (apply Z.mul_le_mono_nonneg_r; lia).
    assert (2 * b <= s * b) by nia.
    lia. }
  assert (HR : 2 ^ L * b <= R < 2 ^ (L + 1) * b).
  { assert (2 ^ L * b <= (n - 1) * b) by (apply Z.mul_le_mono_nonneg_r; lia).
    assert ((n + 1) * b <= 2 ^ (L + 1) * b)
      by (apply Z.mul_le_mono_nonneg_r; lia).
    lia. }
  set (jR := rhe (R * scale) (b * u)).
  assert (EQ' : round_mag (R * scale) b = jR * u)
    by (apply round_mag_binade; assumption).
  assert (C1 : Z.abs (jR - n * s) <= Z.abs (ja - n * s)).
  { apply rhe_closer; [nia|].
    replace (R * scale - n * s * (b * u)) with ((R - n * b) * scale)
      by (rewrite Esu; ring).
    replace (a * scale - n * s * (b * u)) with ((a - n * b) * scale)
      by (rewrite Esu; ring).
    rewrite !Z.abs_mul, (Z.abs_eq scale) by lia.
    apply Z.mul_le_mono_nonneg_r; lia. }
  assert (C2 : Z.abs (rhe jR s - n) <= Z.abs (rhe ja s - n))
    by (apply rhe_closer; [lia|exact C1]).
  assert (EjR : rhe jR s = n) by lia.
  split.
  - rewrite EQ', Esu. rewrite rhe_scale by lia. exact EjR.
  - rewrite EQ'.
    pose proof (rhe_error jR s ltac:(lia)) as He. rewrite EjR in He.
    assert (HjR : jR <= (n + 1) * s) by lia.
    assert (jR * u <= (n + 1) * s * u)
      by (apply Z.mul_le_mono_nonneg_r; lia).
    assert (Hn52 : n + 1 <= 2 ^ 52).
    { assert (2 ^ (L + 1) <= 2 ^ 52) by (apply Z.pow_le_mono_r; lia). lia. }
    pose proof (ticks_below_overflow (n + 1)
                  ltac:(change (2 ^ 53) with (2 ^ 52 * 2); lia)) as Ht.
    rewrite Esu in Ht. lia.
Qed.

(** The second regime: from [2^52] ticks on the quotient is an integer and
    is found again exactly. *)
Lemma reround_large :
  52 <= L ->
  round_mag (R * scale) b = round_mag (a * scale) b.
Proof.
  intros HL52.
  pose proof scale_pos as HS. pose proof reround_a_nonneg as Ha0.
  pose proof reround_a_binade as Hbin. pose proof reround_nearest as Hnear.
  set (u := 2 ^ (L + 1022)). set (w := 2 ^ (L - 52)).
  assert (Hu : 0 < u) by (apply Z.pow_pos_nonneg; lia).
  assert (Hw : 0 < w) by (apply Z.pow_pos_nonneg; lia).
  assert (Euw : u = w * scale).
  { unfold u, w. rewrite scale_eq, <- Z.pow_add_r by lia. f_equal. lia. }
  assert (EL : 2 ^ L = 2 ^ 52 * w).
  { unfold w. rewrite <- Z.pow_add_r by lia. f_equal. lia. }
  assert (EL1 : 2 ^ (L + 1) = 2 ^ 53 * w).
  { unfold w. rewrite <- Z.pow_add_r by lia. f_equal. lia. }
  set (ja := rhe (a * scale) (b * u)).
  assert (EQ : round_mag (a * scale) b = ja * u)
    by (apply round_mag_binade; assumption).
  assert (Enj : n = ja * w).
  { rewrite En, EQ, Euw.
    replace (ja * (w * scale)) with (ja * w * scale) by ring.
    apply rhe_exact. lia. }
  assert (Hja : 2 ^ 52 < ja < 2 ^ 53) by nia.
  assert (P1 : 2 * Z.abs (n * b - a) <= b * w).
  { pose proof (rhe_error (a * scale) (b * u) ltac:(nia)) as He. fold ja in He.
    replace (ja * (b * u) - a * scale) with ((n * b - a) * scale) in He
      by (rewrite Enj, Euw; ring).
    rewrite Z.abs_mul, (Z.abs_eq scale) in He by lia.
    rewrite Euw in He. nia. }
  assert (HR : 2 ^ L * b <= R < 2 ^ (L + 1) * b).
  { rewrite EL, EL1.
    assert (2 ^ 52 * w * b <= (ja - 1) * w * b).
    { apply Z.mul_le_mono_nonneg_r; [lia|].
      apply Z.mul_le_mono_nonneg_r; lia. }
    assert ((ja + 1) * w * b <= 2 ^ 53 * w * b).
    { apply Z.mul_le_mono_nonneg_r; [lia|].
      apply Z.mul_le_mono_nonneg_r; lia. }
    assert (0 < b * w) by nia.
    assert (n * b = ja * w * b) by (rewrite Enj; ring).
    lia. }
  set (jR := rhe (R * scale) (b * u)).
  assert (EQ' : round_mag (R * scale) b = jR * u)
    by (apply round_mag_binade; assumption).
  assert (C1 : Z.abs (jR - ja) <= Z.abs (ja - ja)).
  { apply rhe_closer; [nia|].
    replace (R * scale - ja * (b * u)) with ((R - n * b) * scale)
      by (rewrite Enj, Euw; ring).
    replace (a * scale - ja * (b * u)) with ((a - n * b) * scale)
      by (rewrite Enj, Euw; ring).
    rewrite !Z.abs_mul, (Z.abs_eq scale) by lia.
    apply Z.mul_le_mono_nonneg_r; lia. }
  rewrite EQ', EQ. f_equal. lia.
Qed.

(** In both regimes [n] converts to a float exactly. *)
Lemma reround_n_exact : round_mag (n * scale) 1 = n * scale.
Proof.
  pose proof scale_pos as HS.
  assert (Hp : 0 < 2 ^ L) by (apply Z.pow_pos_nonneg; lia).
  destruct (Z.le_gt_cases L 51) as [HL51|HL52].
  - rewrite scale_eq. apply round_mag_exact; [|lia].
    assert (2 ^ (L + 1) <= 2 ^ 52) by (apply Z.pow_le_mono_r; lia).
    change (2 ^ 53) with (2 ^ 52 * 2). lia.
  - pose proof reround_a_nonneg as Ha0. pose proof reround_a_binade as Hbin.
    set (u := 2 ^ (L + 1022)). set (w := 2 ^ (L - 52)).
    assert (Hw : 0 < w) by (apply Z.pow_pos_nonneg; lia).
    assert (Euw : u = w * scale).
    { unfold u, w. rewrite scale_eq, <- Z.pow_add_r by lia. f_equal. lia. }
    assert (EL1 : 2 ^ (L + 1) = 2 ^ 53 * w).
    { unfold w. rewrite <- Z.pow_add_r by lia. f_equal. lia. }
    set (ja := rhe (a * scale) (b * u)).
    assert (EQ : round_mag (a * scale) b = ja * u)
      by (apply round_mag_binade; assumption).
    assert (Enj : n = ja * w).
    { rewrite En, EQ, Euw.
      replace (ja * (w * scale)) with (ja * w * scale) by ring.
      apply rhe_exact. lia. }
    assert (Hja : 0 <= ja < 2 ^ 53) by nia.
    replace (n * scale) with (ja * 2 ^ (L + 1022))
      by (fold u; rewrite Enj, Euw; ring).
    apply round_mag_exact; [exact Hja|lia].
Qed.

Lemma reround :
  round_mag (a * scale) b < overflow_threshold ->
  rhe (round_mag (R * scale) b) scale = n /\
  round_mag (R * scale) b < overflow_threshold.
Proof.
  intros HQ. destruct (Z.le_gt_cases L 51) as [HL51|HL52].
  - apply reround_small. exact HL51.
  - rewrite (reround_large ltac:(lia)). split; [symmetry; exact En|exact HQ].
Qed.

End Reround.

Lemma round_mag_zero (b : Z) : 0 < b -> round_mag 0 b = 0.
Proof.
  intros Hb. unfold round_mag. rewrite Z.div_0_l by lia.
  change (Z.max 0 (Z.log2 0 - 52)) with 0. change (2 ^ 0) with 1.
  rewrite !Z.mul_1_r. replace 0 with (0 * b) at 1 by ring.
  apply rhe_exact. exact Hb.
Qed.

(** [round_to_tick_size] on positive magnitudes, step by step: the
    quotient, the tick count, its conversion, the product. *)
Lemma round_to_tick_size_eval (a b : Z) :
  0 <= a -> 0 < b ->
  round_to_tick_size (Fin false a) (Fin false b)
  = if round_mag (a * scale) b <? overflow_threshold then
      if round_mag (rhe (round_mag (a * scale) b) scale * scale) 1
         <? overflow_threshold
      then Ok (mk false
                 (round_mag (rhe (round_mag (a * scale) b) scale * scale) 1 * b)
                 scale)
      else Raise OverflowError
    else Raise OverflowError.
Proof.
  intros Ha Hb. pose proof scale_pos as HS.
  unfold round_to_tick_size, truediv, is_zero, fdiv.
  assert (Hb0 : (b =? 0) = false) by (apply Z.eqb_neq; lia).
  rewrite Hb0. cbn [bind xorb]. unfold mk at 1.
  destruct (round_mag (a * scale) b <? overflow_threshold) eqn:HQ;
    [|reflexivity].
  cbn [py_round bind signed].
  set (n := rhe (round_mag (a * scale) b) scale).
  assert (Hn : 0 <= n).
  { apply rhe_nonneg; [|lia]. apply round_mag_nonneg; nia. }
  unfold int_mul_float, of_Z. rewrite Z.abs_eq by exact Hn.
  assert (Hs : (n <? 0) = false) by (apply Z.ltb_ge; exact Hn).
  rewrite Hs.
  destruct (round_mag (n * scale) 1 <? overflow_threshold); reflexivity.
Qed.

(** The tick count converts to a float exactly: it is below [2^53] or is
    the quotient itself. *)
Lemma tick_count_exact (a b : Z) :
  0 < a -> 0 < b -> representable a ->
  round_mag (rhe (round_mag (a * scale) b) scale * scale) 1
  = rhe (round_mag (a * scale) b) scale * scale.
Proof.
  intros Ha Hb Wa. pose proof scale_pos as HS.
  set (n := rhe (round_mag (a * scale) b) scale).
  assert (Hn : 0 <= n).
  { apply rhe_nonneg; [|lia]. apply round_mag_nonneg; nia. }
  destruct (Z.eq_dec n 0) as [E0|Hn0].
  - rewrite E0. cbn [Z.mul]. apply round_mag_zero. lia.
  - set (L := Z.log2 n).
    assert (HL : 0 <= L) by apply Z.log2_nonneg.
    pose proof (Z.log2_spec n ltac:(lia)) as [Hlo Hhi]. fold L in Hlo, Hhi.
    unfold Z.succ in Hhi.
    destruct (Z.eq_dec n (2 ^ L)) as [Ep|Hnp].
    + replace (n * scale) with (1 * 2 ^ (L + 1074))
        by (rewrite Ep, scale_eq, <- Z.pow_add_r by lia; ring).
      apply round_mag_exact; [split; [lia|reflexivity]|lia].
    + assert (HnL : 2 ^ L < n < 2 ^ (L + 1)) by lia.
      assert (Wa' : exists m k, a = m * 2 ^ k /\ 0 <= m < 2 ^ 53 /\ 0 <= k).
      { destruct Wa as (m & k & E & Hm' & Hk & _). exists m, k. auto. }
      apply (reround_n_exact a b n L Wa' Hb HL HnL eq_refl).
Qed.

(** The tick count found for the rounded price is the one found for the
    price. *)
Lemma requotient_any (a b : Z) :
  0 < a -> 0 < b -> representable a -> representable b ->
  round_mag (a * scale) b < overflow_threshold ->
  rhe (round_mag (a * scale) b) scale * scale < overflow_threshold ->
  rhe (round_mag (round_mag (rhe (round_mag (a * scale) b) scale * b) 1 * scale) b)
      scale
  = rhe (round_mag (a * scale) b) scale /\
  round_mag (round_mag (rhe (round_mag (a * scale) b) scale * b) 1 * scale) b
  < overflow_threshold.
Proof.
  intros Ha Hb Wa Wb HQ Hm.
  pose proof scale_pos as HS.
  set (n := rhe (round_mag (a * scale) b) scale) in *.
  assert (Hn : 0 <= n).
  { apply rhe_nonneg; [|lia]. apply round_mag_nonneg; nia. }
  destruct (Z.eq_dec n 0) as [E0|Hn0].
  - rewrite E0. cbn [Z.mul].
    assert (Z0 : round_mag 0 1 = 0) by (apply round_mag_zero; lia).
    rewrite !Z0. cbn [Z.mul]. rewrite (round_mag_zero b Hb).
    split; [|reflexivity].
    replace 0 with (0 * scale) at 1 by ring. apply rhe_exact. lia.
  - set (L := Z.log2 n).
    assert (HL : 0 <= L) by apply Z.log2_nonneg.
    pose proof (Z.log2_spec n ltac:(lia)) as [Hlo Hhi]. fold L in Hlo, Hhi.
    unfold Z.succ in Hhi.
    destruct (Z.eq_dec n (2 ^ L)) as [Ep|Hnp].
    + (* a power of two: the product is exact *)
      assert (X1 : round_mag (n * scale) 1 = n * scale).
      { replace (n * scale) with (1 * 2 ^ (L + 1074))
          by (rewrite Ep, scale_eq, <- Z.pow_add_r by lia; ring).
        apply round_mag_exact; [split; [lia|reflexivity]|lia]. }
      destruct Wb as (mb & kb & Eb & Hmb & Hkb & _).
      assert (X2 : round_mag (n * b) 1 = n * b).
      { replace (n * b) with (mb * 2 ^ (kb + L)).
        - apply round_mag_exact; [exact Hmb|lia].
        - rewrite Ep, Eb, Z.pow_add_r by lia. ring. }
      assert (X3 : round_mag (n * b * scale) b = n * scale).
      { replace (n * b * scale) with (n * scale * b) by ring.
        replace b with (1 * b) at 2 by ring.
        rewrite round_mag_scale by lia. exact X1. }
      rewrite X2, X3.
      split; [apply rhe_exact; lia|exact Hm].
    + assert (HnL : 2 ^ L < n < 2 ^ (L + 1)) by lia.
      assert (Wa' : exists m k, a = m * 2 ^ k /\ 0 <= m < 2 ^ 53 /\ 0 <= k).
      { destruct Wa as (m & k & E & Hm' & Hk & _). exists m, k. auto. }
      apply (reround a b n L _ Wa' Hb HL HnL eq_refl eq_refl HQ).
Qed.

Lemma scale_ge_million : 10 ^ 6 <= scale.
Proof.
  rewrite scale_eq. transitivity (2 ^ 20); [vm_compute; discriminate|].
  apply Z.pow_le_mono_r; lia.
Qed.

(** A timestamp is in the window exactly when its age in microseconds is
    below the window: the rounding of [total_seconds] does not matter for a
    window of up to [2^52] microseconds. *)
Lemma in_window_exact (now t W : Z) :
  0 < W -> W * 10 ^ 6 <= 2 ^ 52 ->
  (in_window now W t = true <-> now - t < W * 10 ^ 6).
Proof.
  intros HW Hbound.
  pose proof scale_pos as HS. pose proof scale_ge_million as HM.
  unfold in_window, total_seconds, flt_int.
  set (td := now - t).
  assert (HW53 : 0 <= W < 2 ^ 53).
  { change (10 ^ 6) with 1000000 in Hbound. change (2 ^ 53) with (2 ^ 52 * 2). lia. }
  destruct (Z.ltb_spec td 0) as [Hneg|Hpos].
  - assert (HR : 0 <= round_mag (Z.abs td * scale) (10 ^ 6)).
    { apply round_mag_nonneg; [|reflexivity]. nia. }
    split; [intros _; change (10 ^ 6) with 1000000; lia|intros _].
    unfold mk. destruct (_ <? overflow_threshold); cbn [to_ext ext_ltb signed];
      [|reflexivity].
    apply Z.ltb_lt. nia.
  - rewrite Z.abs_eq by lia.
    set (R := round_mag (td * scale) (10 ^ 6)).
    assert (HWlt : W * scale < overflow_threshold)
      by (apply ticks_below_overflow; lia).
    destruct (Z.lt_ge_cases td (W * 10 ^ 6)) as [Hin|Hout].
    + assert (HRlt : R < W * scale).
      { pose proof (round_mag_error (td * scale) (10 ^ 6) ltac:(nia) ltac:(reflexivity)) as He.
        fold R in He.
        change (10 ^ 6) with 1000000 in *.
        change (2 ^ 53) with 9007199254740992 in *.
        change (2 ^ 52) with 4503599627370496 in *.
        nia. }
      split; [intros _; exact Hin|intros _].
      unfold mk. fold R.
      assert (Hfin : (R <? overflow_threshold) = true) by (apply Z.ltb_lt; lia).
      rewrite Hfin. cbn [to_ext ext_ltb signed]. apply Z.ltb_lt. exact HRlt.
    + assert (HRge : W * scale <= R).
      { unfold R. rewrite scale_eq. apply round_mag_ge; [exact HW53|lia|reflexivity|].
        rewrite <- scale_eq. nia. }
      split; [|lia].
      unfold mk. fold R.
      destruct (R <? overflow_threshold); cbn [to_ext ext_ltb signed];
        [|discriminate].
      intros H. apply Z.ltb_lt in H. lia.
Qed.



(** [min] of a non-empty list is its least element. *)
Lemma fold_left_min_spec (l : list Z) (t : Z) :
  (fold_left Z.min l t = t \/ In (fold_left Z.min l t) l) /\
  fold_left Z.min l t <= t /\
  (forall x, In x l -> fold_left Z.min l t <= x).
Proof.
  revert t. induction l as [|y l IH]; intros t; simpl.
  - split; [left; reflexivity|]. split; [lia|]. intros x [].
  - destruct (IH (Z.min t y)) as (H1 & H2 & H3).
    split.
    + destruct H1 as [H1|H1]; [|right; right; exact H1].
      rewrite H1. destruct (Z.min_spec t y) as [[_ E]|[_ E]]; rewrite E;
        [left; reflexivity|right; left; reflexivity].
    + split; [lia|]. intros x [<-|Hx]; [lia|apply H3; exact Hx].
Qed.

Lemma py_min_spec (l : list Z) (m : Z) :
  py_min l = Ok m -> In m l /\ forall x, In x l -> m <= x.
Proof.
  destruct l as [|t l]; simpl; [discriminate|].
  intros [= <-]. destruct (fold_left_min_spec l t) as (H1 & H2 & H3).
  split.
  - destruct H1 as [->|H1]; [left; reflexivity|right; exact H1].
  - intros x [<-|Hx]; [exact H2|apply H3; exact Hx].
Qed.

Lemma py_min_nonempty (l : list Z) :
  l <> [] -> exists m, py_min l = Ok m.
Proof. destruct l as [|t l]; [congruence|]. intros _. eexists. reflexivity. Qed.


(** ** Agreement with the Standard Library's IEEE 754 operations *)

(** On the inputs of the scenarios below, division and multiplication
    agree with [SFdiv] and [SFmul] of the Standard Library's specification
    of binary64 (precision 53, maximal exponent 1024). *)
Example fdiv_agrees_with_SFdiv :
  to_spec (fdiv (of_decimal 8648617 (-2)) (of_decimal 5 (-1)))
  = SpecFloat.SFdiv 53 1024 (to_spec (of_decimal 8648617 (-2)))
                            (to_spec (of_decimal 5 (-1))) /\
  to_spec (fdiv (of_decimal 8648617 (-2)) (of_decimal 1 (-2)))
  = SpecFloat.SFdiv 53 1024 (to_spec (of_decimal 8648617 (-2)))
                            (to_spec (of_decimal 1 (-2))) /\
  to_spec (fdiv (of_decimal 17976931348623157 292)
                (of_decimal 18331754821942408 (-16)))
  = SpecFloat.SFdiv 53 1024 (to_spec (of_decimal 17976931348623157 292))
                            (to_spec (of_decimal 18331754821942408 (-16))).
Proof. vm_compute. repeat split. Qed.

Example fmul_agrees_with_SFmul :
  to_spec (fmul (of_decimal 172972 0) (of_decimal 5 (-1)))
  = SpecFloat.SFmul 53 1024 (to_spec (of_decimal 172972 0))
                            (to_spec (of_decimal 5 (-1))) /\
  to_spec (fmul (of_decimal 8648617 0) (of_decimal 1 (-2)))
  = SpecFloat.SFmul 53 1024 (to_spec (of_decimal 8648617 0))
                            (to_spec (of_decimal 1 (-2))) /\
  to_spec (fmul (of_decimal 98064798766000760 291)
                (of_decimal 18331754821942408 (-16)))
  = SpecFloat.SFmul 53 1024 (to_spec (of_decimal 98064798766000760 291))
                            (to_spec (of_decimal 18331754821942408 (-16))).
Proof. vm_compute. repeat split. Qed.

(** ** Comparisons *)

Lemma flt_not_fle (x y : float) : flt x y = true -> fle y x = false.
Proof.
  unfold fle, flt, feq.
  destruct (to_ext x) as [a|], (to_ext y) as [b|]; try discriminate.
  destruct a, b; simpl; try discriminate; try reflexivity.
  intros H. apply Z.ltb_lt in H.
  apply orb_false_iff. split; [apply Z.ltb_ge | apply Z.eqb_neq]; lia.
Qed.

Lemma fgt_not_fge (x y : float) : fgt x y = true -> fge y x = false.
Proof. unfold fgt, fge. apply flt_not_fle. Qed.

Lemma flt_fle (x y : float) : flt x y = true -> fle x y = true.
Proof. unfold fle. intros ->. reflexivity. Qed.

(** ** TP/SL validation *)


(** C1, as stated, fails for a take-profit price of zero: [0.0] is
    supplied and is below the last price, yet it counts as not supplied and
    the call is accepted. *)
Lemma validate_tpsl_prices_accepts_zero_tp :
  fgt (of_decimal 100 0) zero = true /\
  flt zero (of_decimal 100 0) = true /\
  validate_tpsl_prices "sell" (of_decimal 100 0) (Some zero) None = (true, "").
Proof. vm_compute. repeat split. Qed.

(** C1, amended.  For a last price [L > 0]: closing a long ('sell') with
    [tp > L] and [sl < L] is accepted with an empty message, and a supplied
    non-zero [tp < L] is refused with the message
    "TP for LONG must be > last price ($L)", [L] with two decimals; closing
    a short ('buy') behaves the same with the inequalities reversed and the
    message "TP for SHORT must be < last price ($L)". *)
Theorem validate_tpsl_prices_direction (L tp sl : float) :
  fgt L zero = true ->
  (fgt tp L = true -> flt sl L = true ->
     validate_tpsl_prices "sell" L (Some tp) (Some sl) = (true, "")) /\
  (truthy tp = true -> flt tp L = true ->
     forall sl', validate_tpsl_prices "sell" L (Some tp) sl'
                 = (false, tp_long_message L)) /\
  (flt tp L = true -> fgt sl L = true ->
     validate_tpsl_prices "buy" L (Some tp) (Some sl) = (true, "")) /\
  (truthy tp = true -> fgt tp L = true ->
     forall sl', validate_tpsl_prices "buy" L (Some tp) sl'
                 = (false, tp_short_message L)).
Proof.
  intros _. unfold validate_tpsl_prices, tp_long_message, tp_short_message.
  repeat split.
  - intros Htp Hsl. simpl.
    rewrite (flt_not_fle _ _ Htp), (fgt_not_fge _ _ Hsl).
    destruct (truthy tp), (truthy sl); reflexivity.
  - intros Ht Htp sl'. simpl. rewrite Ht. simpl.
    rewrite (flt_fle _ _ Htp). reflexivity.
  - intros Htp Hsl. simpl.
    rewrite (fgt_not_fge _ _ Htp), (flt_not_fle _ _ Hsl).
    destruct (truthy tp), (truthy sl); reflexivity.
  - intros Ht Htp sl'. simpl. rewrite Ht. simpl.
    unfold fge. rewrite (flt_fle _ _ Htp). reflexivity.
Qed.

Lemma validate_tpsl_prices_direction_witness :
  validate_tpsl_prices "sell" (of_decimal 100 0)
    (Some (of_decimal 110 0)) (Some (of_decimal 90 0)) = (true, "") /\
  validate_tpsl_prices "sell" (of_decimal 100 0) (Some (of_decimal 95 0)) None
    = (false, "TP for LONG must be > last price ($100.00)") /\
  validate_tpsl_prices "buy" (of_decimal 100 0)
    (Some (of_decimal 90 0)) (Some (of_decimal 110 0)) = (true, "") /\
  validate_tpsl_prices "buy" (of_decimal 100 0) (Some (of_decimal 105 0)) None
    = (false, "TP for SHORT must be < last price ($100.00)").
Proof.
  assert (HL : fgt (of_decimal 100 0) zero = true) by (vm_compute; reflexivity).
  assert (Hup : fgt (of_decimal 110 0) (of_decimal 100 0) = true)
    by (vm_compute; reflexivity).
  assert (Hdn : flt (of_decimal 90 0) (of_decimal 100 0) = true)
    by (vm_compute; reflexivity).
  assert (H95 : flt (of_decimal 95 0) (of_decimal 100 0) = true)
    by (vm_compute; reflexivity).
  assert (H105 : fgt (of_decimal 105 0) (of_decimal 100 0) = true)
    by (vm_compute; reflexivity).
  assert (T95 : truthy (of_decimal 95 0) = true) by (vm_compute; reflexivity).
  assert (T105 : truthy (of_decimal 105 0) = true) by (vm_compute; reflexivity).
  assert (M1 : (false, tp_long_message (of_decimal 100 0))
               = (false, "TP for LONG must be > last price ($100.00)"))
    by (vm_compute; reflexivity).
  assert (M2 : (false, tp_short_message (of_decimal 100 0))
               = (false, "TP for SHORT must be < last price ($100.00)"))
    by (vm_compute; reflexivity).
  destruct (validate_tpsl_prices_direction (of_decimal 100 0)
              (of_decimal 110 0) (of_decimal 90 0) HL) as (H1 & _ & _ & _).
  destruct (validate_tpsl_prices_direction (of_decimal 100 0)
              (of_decimal 95 0) zero HL) as (_ & H2 & _ & _).
  destruct (validate_tpsl_prices_direction (of_decimal 100 0)
              (of_decimal 90 0) (of_decimal 110 0) HL) as (_ & _ & H3 & _).
  destruct (validate_tpsl_prices_direction (of_decimal 100 0)
              (of_decimal 105 0) zero HL) as (_ & _ & _ & H4).
  exact (conj (H1 Hup Hdn)
          (conj (eq_trans (H2 T95 H95 None) M1)
             (conj (H3 Hdn Hup) (eq_trans (H4 T105 H105 None) M2)))).
Defined.

(** ** TP/SL parameter construction *)

(** C3. [create_tpsl_params('sell', take_profit_price=86486.17,
    tick_size=0.5)], with the defaults [trigger_by='LAST_PRICE'] and
    [close_position=True], returns the one-entry mapping whose trigger price
    is the string '86486.0'. *)
Theorem create_tpsl_params_scenario :
  create_tpsl_params "sell" (Some (of_decimal 8648617 (-2))) None
                     "LAST_PRICE" true (of_decimal 5 (-1))
  = Ok [("take_profit",
         VDict [("trigger",
                 VDict [("trigger_type", VStr "TAKE_PROFIT");
                        ("tpsl",
                         VDict [("trigger_price", VStr "86486.0");
                                ("trigger_by", VStr "LAST_PRICE");
                                ("close_position", VBool true)])])])].
Proof. vm_compute. reflexivity. Qed.

(** C10. The mapping built by [create_tpsl_params] does not depend on its
    [side] argument. *)
Theorem create_tpsl_params_ignores_side
    (side1 side2 : string) (tp sl : option float)
    (trigger_by : string) (close_position : bool) (tick_size : float) :
  create_tpsl_params side1 tp sl trigger_by close_position tick_size
  = create_tpsl_params side2 tp sl trigger_by close_position tick_size.
Proof. reflexivity. Qed.

Lemma round_if_supplied_falsy (p : option float) (tick_size : float) :
  truthy_opt p = false -> round_if_supplied p tick_size = Ok p.
Proof.
  destruct p as [x|]; simpl; [|reflexivity].
  intros ->. reflexivity.
Qed.

Lemma add_entry_falsy (params : dict) (key ty : string) (p : option float)
    (trigger_by : string) (close_position : bool) :
  truthy_opt p = false ->
  add_entry params key ty p trigger_by close_position = params.
Proof.
  destruct p as [x|]; simpl; [|reflexivity].
  intros ->. reflexivity.
Qed.

Lemma validate_falsy_tp (side : string) (L : float) (tp sl : option float) :
  truthy_opt tp = false ->
  validate_tpsl_prices side L tp sl = validate_tpsl_prices side L None sl.
Proof.
  intros H. unfold validate_tpsl_prices. rewrite H.
  destruct tp as [x|]; [|reflexivity].
  simpl in H. rewrite H. reflexivity.
Qed.

Lemma validate_falsy_sl (side : string) (L : float) (tp sl : option float) :
  truthy_opt sl = false ->
  validate_tpsl_prices side L tp sl = validate_tpsl_prices side L tp None.
Proof.
  intros H. unfold validate_tpsl_prices. rewrite H.
  destruct sl as [x|]; [|reflexivity].
  simpl in H. rewrite H. reflexivity.
Qed.

Lemma create_falsy_tp (side : string) (tp sl : option float)
    (trigger_by : string) (close_position : bool) (tick_size : float) :
  truthy_opt tp = false ->
  create_tpsl_params side tp sl trigger_by close_position tick_size
  = create_tpsl_params side None sl trigger_by close_position tick_size.
Proof.
  intros H. unfold create_tpsl_params.
  rewrite (round_if_supplied_falsy tp tick_size H). simpl.
  destruct (round_if_supplied sl tick_size); simpl; [|reflexivity].
  rewrite (add_entry_falsy [] _ _ tp _ _ H). reflexivity.
Qed.

Lemma create_falsy_sl (side : string) (tp sl : option float)
    (trigger_by : string) (close_position : bool) (tick_size : float) :
  truthy_opt sl = false ->
  create_tpsl_params side tp sl trigger_by close_position tick_size
  = create_tpsl_params side tp None trigger_by close_position tick_size.
Proof.
  intros H. unfold create_tpsl_params.
  destruct (round_if_supplied tp tick_size); simpl; [|reflexivity].
  rewrite (round_if_supplied_falsy sl tick_size H). simpl.
  rewrite (add_entry_falsy _ _ _ sl _ _ H). reflexivity.
Qed.

(** C8. A take-profit or stop-loss price that is zero (falsy) is treated
    exactly like an absent one: [validate_tpsl_prices] and
    [create_tpsl_params] return what they return for [None]; with both
    prices falsy the validation succeeds with an empty message, and the
    mapping has no entry for a falsy price. *)
Theorem falsy_price_is_absent
    (side : string) (L : float) (tp sl : option float)
    (trigger_by : string) (close_position : bool) (tick_size : float) :
  (truthy_opt tp = false ->
     validate_tpsl_prices side L tp sl = validate_tpsl_prices side L None sl /\
     create_tpsl_params side tp sl trigger_by close_position tick_size
     = create_tpsl_params side None sl trigger_by close_position tick_size /\
     forall d, create_tpsl_params side tp sl trigger_by close_position tick_size
               = Ok d -> dict_get d "take_profit" = None) /\
  (truthy_opt sl = false ->
     validate_tpsl_prices side L tp sl = validate_tpsl_prices side L tp None /\
     create_tpsl_params side tp sl trigger_by close_position tick_size
     = create_tpsl_params side tp None trigger_by close_position tick_size /\
     forall d, create_tpsl_params side tp sl trigger_by close_position tick_size
               = Ok d -> dict_get d "stop_loss" = None) /\
  (truthy_opt tp = false -> truthy_opt sl = false ->
     validate_tpsl_prices side L tp sl = (true, "") /\
     create_tpsl_params side tp sl trigger_by close_position tick_size = Ok []).
Proof.
  repeat split.
  - now apply validate_falsy_tp.
  - now apply create_falsy_tp.
  - intros d. rewrite (create_falsy_tp _ _ _ _ _ _ H).
    unfold create_tpsl_params. simpl.
    destruct (round_if_supplied sl tick_size) as [sl'|]; simpl; [|discriminate].
    intros [= <-]. destruct sl' as [x|]; simpl; [|reflexivity].
    destruct (truthy x); reflexivity.
  - now apply validate_falsy_sl.
  - now apply create_falsy_sl.
  - intros d. rewrite (create_falsy_sl _ _ _ _ _ _ H).
    unfold create_tpsl_params.
    destruct (round_if_supplied tp tick_size) as [tp'|]; simpl; [|discriminate].
    intros [= <-]. destruct tp' as [x|]; simpl; [|reflexivity].
    destruct (truthy x); reflexivity.
  - unfold validate_tpsl_prices. rewrite H, H0. reflexivity.
  - rewrite (create_falsy_tp _ _ _ _ _ _ H), (create_falsy_sl _ _ _ _ _ _ H0).
    reflexivity.
Qed.

Lemma falsy_price_is_absent_witness :
  validate_tpsl_prices "sell" (of_decimal 100 0) (Some zero) (Some (of_decimal 90 0))
  = validate_tpsl_prices "sell" (of_decimal 100 0) None (Some (of_decimal 90 0)) /\
  create_tpsl_params "sell" (Some (of_decimal 110 0)) (Some (Fin true 0))
                     "LAST_PRICE" true default_tick_size
  = create_tpsl_params "sell" (Some (of_decimal 110 0)) None
                       "LAST_PRICE" true default_tick_size /\
  validate_tpsl_prices "buy" (of_decimal 100 0) (Some zero) (Some zero) = (true, "").
Proof.
  destruct (falsy_price_is_absent "sell" (of_decimal 100 0) (Some zero)
              (Some (of_decimal 90 0)) "LAST_PRICE" true default_tick_size)
    as (H1 & _ & _).
  destruct (falsy_price_is_absent "sell" (of_decimal 100 0)
              (Some (of_decimal 110 0)) (Some (Fin true 0))
              "LAST_PRICE" true default_tick_size) as (_ & H2 & _).
  destruct (falsy_price_is_absent "buy" (of_decimal 100 0) (Some zero)
              (Some zero) "LAST_PRICE" true default_tick_size) as (_ & _ & H3).
  exact (conj (proj1 (H1 eq_refl))
          (conj (proj1 (proj2 (H2 eq_refl))) (proj1 (H3 eq_refl eq_refl)))).
Defined.

(** C2, as stated, fails: with both prices supplied and non-zero, a price
    below half a tick is rounded to [0.0], which is falsy, and its entry is
    left out.  Here both 0.1 and 0.2 round to 0.0 at tick 0.5. *)
Lemma create_tpsl_params_drops_price_rounded_to_zero :
  truthy (of_decimal 1 (-1)) = true /\
  truthy (of_decimal 2 (-1)) = true /\
  create_tpsl_params "sell" (Some (of_decimal 1 (-1))) (Some (of_decimal 2 (-1)))
                     "LAST_PRICE" true (of_decimal 5 (-1)) = Ok [] /\
  keys [] <> ["take_profit"; "stop_loss"].
Proof.
  split; [vm_compute; reflexivity|].
  split; [vm_compute; reflexivity|].
  split; [vm_compute; reflexivity|].
  discriminate.
Qed.

(** C2, amended.  When both prices are supplied (non-zero) and each is
    rounded by [round_to_tick_size] to a non-zero price, the mapping has
    exactly the keys [take_profit] and [stop_loss], holding the two trigger
    descriptors of the rounded prices; with neither price supplied the
    mapping is empty, for every tick size. *)
Theorem create_tpsl_params_keys
    (side trigger_by : string) (close_position : bool)
    (tick_size tp sl tp' sl' : float) :
  (truthy tp = true -> truthy sl = true ->
   round_to_tick_size tp tick_size = Ok tp' ->
   round_to_tick_size sl tick_size = Ok sl' ->
   truthy tp' = true -> truthy sl' = true ->
   exists d,
     create_tpsl_params side (Some tp) (Some sl) trigger_by close_position tick_size
     = Ok d /\
     d = [("take_profit", trigger_entry "TAKE_PROFIT" tp' trigger_by close_position);
          ("stop_loss", trigger_entry "STOP_LOSS" sl' trigger_by close_position)] /\
     keys d = ["take_profit"; "stop_loss"]) /\
  create_tpsl_params side None None trigger_by close_position tick_size = Ok [].
Proof.
  split; [|reflexivity].
  intros Htp Hsl Rtp Rsl Htp' Hsl'.
  eexists. split; [|split; [reflexivity|reflexivity]].
  unfold create_tpsl_params, round_if_supplied, add_entry.
  rewrite Htp, Hsl, Rtp, Rsl. simpl. rewrite Htp', Hsl'. reflexivity.
Qed.

Lemma create_tpsl_params_keys_witness :
  exists d,
    create_tpsl_params "sell" (Some (of_decimal 95000 0)) (Some (of_decimal 91000 0))
                       "LAST_PRICE" true (of_decimal 5 (-1)) = Ok d /\
    keys d = ["take_profit"; "stop_loss"].
Proof.
  assert (R1 : round_to_tick_size (of_decimal 95000 0) (of_decimal 5 (-1))
               = Ok (of_decimal 95000 0)) by (vm_compute; reflexivity).
  assert (R2 : round_to_tick_size (of_decimal 91000 0) (of_decimal 5 (-1))
               = Ok (of_decimal 91000 0)) by (vm_compute; reflexivity).
  assert (T1 : truthy (of_decimal 95000 0) = true) by (vm_compute; reflexivity).
  assert (T2 : truthy (of_decimal 91000 0) = true) by (vm_compute; reflexivity).
  destruct (create_tpsl_params_keys "sell" "LAST_PRICE" true (of_decimal 5 (-1))
              (of_decimal 95000 0) (of_decimal 91000 0)
              (of_decimal 95000 0) (of_decimal 91000 0)) as (H & _).
  destruct (H T1 T2 R1 R2 T1 T2) as (d & Hd & _ & Hk).
  exists d. exact (conj Hd Hk).
Defined.

(** ** Tick rounding with a bad tick size *)

(** C7, as stated, fails for a negative tick size: nothing rejects it, and
    [round_to_tick_size(86486.17, -0.5)] returns 86486.0. *)
Lemma round_to_tick_size_accepts_negative_tick :
  flt (of_decimal (-5) (-1)) zero = true /\
  round_to_tick_size (of_decimal 8648617 (-2)) (of_decimal (-5) (-1))
  = Ok (of_decimal 86486 0).
Proof. split; vm_compute; reflexivity. Qed.

(** C7, amended.  With a zero tick size (either zero), [round_to_tick_size]
    raises [ZeroDivisionError] for every price, an infinity or NaN
    included. *)
Theorem round_to_tick_size_zero_tick (price tick_size : float) :
  is_zero tick_size = true ->
  round_to_tick_size price tick_size = Raise ZeroDivisionError.
Proof.
  intros H. unfold round_to_tick_size, truediv. rewrite H. reflexivity.
Qed.

Lemma round_to_tick_size_zero_tick_witness :
  round_to_tick_size (of_decimal 8648617 (-2)) zero = Raise ZeroDivisionError /\
  round_to_tick_size NaN (Fin true 0) = Raise ZeroDivisionError.
Proof.
  split.
  - exact (round_to_tick_size_zero_tick (of_decimal 8648617 (-2)) zero eq_refl).
  - exact (round_to_tick_size_zero_tick NaN (Fin true 0) eq_refl).
Defined.

(** ** Idempotence of tick rounding *)

(** C4, as stated, fails near the top of the float range.  For the largest
    finite float and the tick 1.8331754821942408 the first rounding
    overflows to [inf], and rounding [inf] again raises [OverflowError]:
    the second application does not return the first result. *)
Lemma round_to_tick_size_not_idempotent_near_overflow :
  positive_finite (of_decimal 17976931348623157 292) /\
  positive_finite (of_decimal 18331754821942408 (-16)) /\
  round_to_tick_size (of_decimal 17976931348623157 292)
                     (of_decimal 18331754821942408 (-16)) = Ok (Inf false) /\
  round_to_tick_size (Inf false) (of_decimal 18331754821942408 (-16))
  = Raise OverflowError.
Proof.
  split; [vm_compute; reflexivity|].
  split; [vm_compute; reflexivity|].
  split; vm_compute; reflexivity.
Qed.

(** A quotient beyond the float range is an error at the first call. *)
Example round_to_tick_size_overflow :
  round_to_tick_size (of_decimal 1 308) (of_decimal 5 (-1)) = Raise OverflowError.
Proof. vm_compute. reflexivity. Qed.

(** C4, amended.  [round_to_tick_size] is idempotent wherever it returns a
    finite price: for all finite strictly positive binary64 floats [p] and
    [t], if [round_to_tick_size p t] returns a finite [r], then rounding
    [r] again, at the same tick, returns [r].  ([wf] says that the
    magnitude is one of binary64, as that of every float is.) *)
Theorem round_to_tick_size_idempotent (p t r : float) :
  positive_finite p -> wf p ->
  positive_finite t -> wf t ->
  round_to_tick_size p t = Ok r ->
  is_finite r = true ->
  round_to_tick_size r t = Ok r.
Proof.
  destruct p as [[|] a| |]; cbn [positive_finite wf]; try tauto.
  destruct t as [[|] b| |]; cbn [positive_finite wf]; try tauto.
  intros Ha Wa Hb Wb Hr Hfin.
  pose proof scale_pos as HS.
  rewrite round_to_tick_size_eval in Hr by lia.
  rewrite (tick_count_exact a b Ha Hb Wa) in Hr.
  destruct (round_mag (a * scale) b <? overflow_threshold) eqn:HQ;
    [|discriminate].
  set (n := rhe (round_mag (a * scale) b) scale) in *.
  destruct (n * scale <? overflow_threshold) eqn:Hm; [|discriminate].
  injection Hr as Hr.
  replace (n * scale * b) with (n * b * scale) in Hr by ring.
  unfold mk in Hr. rewrite round_mag_scale1 in Hr.
  destruct (round_mag (n * b) 1 <? overflow_threshold) eqn:HR;
    [|rewrite <- Hr in Hfin; discriminate].
  apply Z.ltb_lt in HQ, Hm.
  destruct (requotient_any a b Ha Hb Wa Wb HQ Hm) as (Hq & HQ').
  fold n in Hq, HQ'.
  assert (HR0 : 0 <= round_mag (n * b) 1).
  { apply round_mag_nonneg; [|lia].
    assert (0 <= n) by (apply rhe_nonneg; [|lia]; apply round_mag_nonneg; nia).
    nia. }
  rewrite <- Hr.
  rewrite round_to_tick_size_eval by lia.
  apply Z.ltb_lt in HQ'. rewrite HQ', Hq.
  assert (X1 : round_mag (n * scale) 1 = n * scale)
    by (apply (tick_count_exact a b Ha Hb Wa)).
  rewrite X1. apply Z.ltb_lt in Hm. rewrite Hm.
  replace (n * scale * b) with (n * b * scale) by ring.
  unfold mk. rewrite round_mag_scale1, HR. reflexivity.
Qed.

Lemma round_to_tick_size_idempotent_witness :
  round_to_tick_size (of_decimal 86486 0) (of_decimal 5 (-1))
  = Ok (of_decimal 86486 0) /\
  round_to_tick_size (of_decimal 1 300) (of_decimal 3 (-1))
  = Ok (of_decimal 1 300).
Proof.
  assert (Hp : positive_finite (of_decimal 8648617 (-2)))
    by (vm_compute; reflexivity).
  assert (Ht : positive_finite (of_decimal 5 (-1))) by (vm_compute; reflexivity).
  assert (Hr : round_to_tick_size (of_decimal 8648617 (-2)) (of_decimal 5 (-1))
               = Ok (of_decimal 86486 0)) by (vm_compute; reflexivity).
  assert (Hf : is_finite (of_decimal 86486 0) = true) by (vm_compute; reflexivity).
  assert (Hp' : positive_finite (of_decimal 1 300)) by (vm_compute; reflexivity).
  assert (Ht' : positive_finite (of_decimal 3 (-1))) by (vm_compute; reflexivity).
  assert (Hr' : round_to_tick_size (of_decimal 1 300) (of_decimal 3 (-1))
                = Ok (of_decimal 1 300)) by (vm_compute; reflexivity).
  assert (Hf' : is_finite (of_decimal 1 300) = true) by (vm_compute; reflexivity).
  exact (conj
           (round_to_tick_size_idempotent _ _ _ Hp (of_decimal_wf _ _)
              Ht (of_decimal_wf _ _) Hr Hf)
           (round_to_tick_size_idempotent _ _ _ Hp' (of_decimal_wf _ _)
              Ht' (of_decimal_wf _ _) Hr' Hf')).
Defined.

(** ** Rate limiter *)



(** The scenario of the specification: a limiter for 2 requests per 10
    seconds refuses a third request 3 seconds after two recorded ones and
    accepts it again 10 seconds after them. *)
Example rate_limiter_scenario :
  let rl := record_request 1000000 (record_request 0 (init 2 10)) in
  snd (can_make_request 3000000 rl) = false /\
  snd (can_make_request 11000000 rl) = true /\
  requests (fst (can_make_request 10500000 rl)) = [1000000].
Proof. vm_compute. repeat split. Qed.

(** C6, as stated, fails for a window so large that it does not convert to
    a float: with [max_requests = 1], [time_window = 2^1024] and one stored
    request, computing the waiting time raises [OverflowError] before
    [time.sleep] is reached. *)
Lemma wait_if_needed_overflowing_window :
  let rl := record_request 0 (init 1 (2 ^ 1024)) in
  0 < max_requests rl /\ 0 < time_window rl /\
  snd (can_make_request 0 rl) = false /\
  wait_if_needed (fun _ => Ok tt) 0 0 rl = Raise OverflowError.
Proof. vm_compute. repeat split. Qed.

(** C6, amended.  For a limiter with a positive [max_requests] and a
    [time_window] that converts to a float [w], whatever [time.sleep]
    does: when [can_make_request] is true, [wait_if_needed] returns at
    once and [time.sleep] is not called; when it is false, the waiting
    time is [w] minus the age in seconds of the oldest stored request (the
    least timestamp left after pruning), and if that is positive the
    notice is printed and [time.sleep] is called for it plus the margin of
    0.1 second: the call returns when [time.sleep] does, and raises what
    [time.sleep] raises when it refuses the duration; otherwise nothing
    happens.  The stored requests are the pruned ones in each case that
    returns. *)
Theorem wait_if_needed_spec (sleep : float -> result unit)
    (now1 now2 : datetime) (rl : RateLimiter) (w : float) :
  0 < max_requests rl ->
  of_Z (time_window rl) = Ok w ->
  let rl' := fst (can_make_request now1 rl) in
  (snd (can_make_request now1 rl) = true ->
     wait_if_needed sleep now1 now2 rl = Ok (rl', [])) /\
  (snd (can_make_request now1 rl) = false ->
     exists oldest,
       py_min (requests rl') = Ok oldest /\
       In oldest (requests rl') /\
       (forall t, In t (requests rl') -> oldest <= t) /\
       wait_if_needed sleep now1 now2 rl
       = wait_outcome sleep rl' (fsub w (total_seconds (now2 - oldest)))).
Proof.
  intros Hmax Hw rl'. unfold wait_if_needed.
  destruct (can_make_request now1 rl) as [rl0 can] eqn:E.
  subst rl'. cbn [fst snd].
  assert (Hwin : time_window rl0 = time_window rl).
  { unfold can_make_request in E. injection E as <- _. reflexivity. }
  split; intros ->; [reflexivity|].
  cbn [negb].
  assert (Hne : requests rl0 <> []).
  { unfold can_make_request in E. injection E as <- Hc.
    cbn [requests]. intros Hnil. rewrite Hnil in Hc. simpl in Hc.
    apply Z.ltb_ge in Hc. lia. }
  destruct (py_min_nonempty _ Hne) as [oldest Hmin].
  destruct (py_min_spec _ _ Hmin) as [Hin Hleast].
  exists oldest.
  split; [exact Hmin|]. split; [exact Hin|]. split; [exact Hleast|].
  rewrite Hmin. cbn [bind]. rewrite Hwin. unfold int_sub_float.
  rewrite Hw. cbn [bind]. reflexivity.
Qed.

Lemma wait_if_needed_spec_witness :
  wait_if_needed (fun _ => Raise OverflowError) 0 0 (init 2 10)
  = Ok (fst (can_make_request 0 (init 2 10)), []) /\
  exists oldest,
    py_min (requests (fst (can_make_request 3000000
                             (record_request 0 (init 1 10))))) = Ok oldest /\
    wait_if_needed (fun _ => Ok tt) 3000000 3000000
                   (record_request 0 (init 1 10))
    = wait_outcome (fun _ => Ok tt)
        (fst (can_make_request 3000000 (record_request 0 (init 1 10))))
        (fsub (of_decimal 10 0) (total_seconds (3000000 - oldest))).
Proof.
  assert (W : of_Z 10 = Ok (of_decimal 10 0)) by (vm_compute; reflexivity).
  destruct (wait_if_needed_spec (fun _ => Raise OverflowError) 0 0 (init 2 10)
              (of_decimal 10 0) eq_refl W) as [H1 _].
  destruct (wait_if_needed_spec (fun _ => Ok tt) 3000000 3000000
              (record_request 0 (init 1 10)) (of_decimal 10 0) eq_refl W)
    as [_ H2].
  split; [exact (H1 eq_refl)|].
  assert (C : snd (can_make_request 3000000 (record_request 0 (init 1 10))) = false)
    by (vm_compute; reflexivity).
  destruct (H2 C) as (oldest & Hmin & _ & _ & Hw).
  exists oldest. exact (conj Hmin Hw).
Defined.

(** The same call, evaluated: 3 seconds after the only allowed request of a
    10-second window, the caller sleeps 7.1 seconds. *)
Example wait_if_needed_sleeps :
  wait_if_needed (fun _ => Ok tt) 3000000 3000000 (record_request 0 (init 1 10))
  = Ok (record_request 0 (init 1 10),
        [Print "⏳ Rate limit exceeded. รอ 7.00 วินาที...";
         Sleep (of_decimal 71 (-1))]).
Proof. vm_compute. reflexivity. Qed.

(** With a window of [10^10] seconds and a [time.sleep] that refuses
    [9 * 10^9] seconds or more, the call raises what [time.sleep]
    raises. *)
Example wait_if_needed_sleep_refused :
  wait_if_needed (sleep_below (of_decimal 9 9)) 3000000 3000000
                 (record_request 0 (init 1 (10 ^ 10)))
  = Raise OverflowError.
Proof. vm_compute. reflexivity. Qed.

(** ** Emergency unwinding *)

Section EmergencyFacts.

Variable S : Type.
Variable float_of_str : string -> option float.
Variable c : client S.

(** A free use of [safe_float] in a top-level function does not resolve. *)
Lemma call_safe_float_fails (arg : result value) :
  call_safe_float float_of_str arg = Raise NameError.
Proof. reflexivity. Qed.

Lemma active_positions_fails (p : value) (rest : list value) :
  active_positions float_of_str (p :: rest) = Raise NameError.
Proof. reflexivity. Qed.

(** [emergency_close_all] never reaches its loop: whatever the client
    returns, the count is zero and the client is left as
    [fetch_positions] left it (no order is ever created). *)
Lemma emergency_close_all_closes_nothing (s : S) :
  emergency_close_all S float_of_str c s = (fst (fetch_positions c s), 0).
Proof.
  unfold emergency_close_all.
  destruct (fetch_positions c s) as [s1 [positions|e]]; [|reflexivity].
  destruct positions as [|p rest]; reflexivity.
Qed.

(** The count kept by the cancelling loop: a failing order leaves it as it
    is and the rest of the orders are still processed. *)
Lemma cancel_loop_step (s : S) (order : value) (rest : list value) (count : Z) :
  cancel_loop S c s (order :: rest) count
  = cancel_loop S c (fst (cancel_one S c s order)) rest
      (if snd (cancel_one S c s order) then count + 1 else count).
Proof. simpl. destruct (cancel_one S c s order); reflexivity. Qed.

Lemma cancel_loop_count (orders : list value) (s : S) (count : Z) :
  count <= snd (cancel_loop S c s orders count)
        <= count + Z.of_nat (List.length orders).
Proof.
  revert s count. induction orders as [|o rest IH]; intros s count.
  - simpl. lia.
  - rewrite cancel_loop_step.
    destruct (snd (cancel_one S c s o)).
    + specialize (IH (fst (cancel_one S c s o)) (count + 1)).
      cbn [List.length]. lia.
    + specialize (IH (fst (cancel_one S c s o)) count).
      cbn [List.length]. lia.
Qed.

(** When the initial fetch raises, [emergency_cancel_all] returns zero. *)
Lemma emergency_cancel_all_fetch_fails (s s1 : S) (e : exn) :
  fetch_open_orders c s = (s1, Raise e) ->
  emergency_cancel_all S c s = (s1, 0).
Proof. unfold emergency_cancel_all. intros ->. reflexivity. Qed.

End EmergencyFacts.


(** [emergency_cancel_all] on this client: the refusal of order "b" is
    caught, order "c" is still cancelled, and two cancellations are
    counted. *)
Example emergency_cancel_all_continues :
  emergency_cancel_all (list call) recording_client []
  = ([FetchOpenOrders; CancelOrder (VStr "a"); CancelOrder (VStr "b");
      CancelOrder (VStr "c")], 2).
Proof. reflexivity. Qed.

(** C9, at the failing input.  On a client that holds two open positions
    and accepts every order, the [emergency_close_all] in effect returns 0
    and creates no order: its filter calls [safe_float], which is local to
    [create_positions_table], the [NameError] is caught by the outer
    handler, and the loop that would close and count the positions is never
    reached. *)
Theorem emergency_close_all_never_closes (float_of_str : string -> option float) :
  emergency_close_all (list call) float_of_str recording_client []
  = ([FetchPositions], 0).
Proof. reflexivity. Qed.

(** * Further properties *)

(** ** Rate limiter: exact pruning *)

Lemma filter_filter_implied {A : Type} (f g : A -> bool) (l : list A) :
  (forall x, In x l -> g x = true -> f x = true) ->
  filter g (filter f l) = filter g l.
Proof.
  induction l as [|x l IH]; intros H; simpl; [reflexivity|].
  destruct (f x) eqn:Ef; simpl.
  - destruct (g x); rewrite IH; auto using in_cons.
  - destruct (g x) eqn:Eg.
    + rewrite (H x (in_eq _ _) Eg) in Ef. discriminate.
    + apply IH. auto using in_cons.
Qed.

Lemma filter_all {A : Type} (f : A -> bool) (l : list A) :
  (forall x, In x l -> f x = true) -> filter f l = l.
Proof.
  induction l as [|x l IH]; intros H; simpl; [reflexivity|].
  rewrite (H x (in_eq _ _)). f_equal. apply IH. auto using in_cons.
Qed.

Lemma filter_none {A : Type} (f : A -> bool) (l : list A) :
  (forall x, In x l -> f x = false) -> filter f l = [].
Proof.
  induction l as [|x l IH]; intros H; simpl; [reflexivity|].
  rewrite (H x (in_eq _ _)). apply IH. auto using in_cons.
Qed.

Lemma in_window_now (now W : Z) : 0 < W -> in_window now W now = true.
Proof.
  intros HW. unfold in_window, total_seconds, flt_int.
  rewrite Z.sub_diag. cbn [Z.ltb Z.compare Z.abs Z.mul].
  assert (E : mk false 0 (10 ^ 6) = Fin false 0) by reflexivity.
  rewrite E. cbn [to_ext signed ext_ltb].
  apply Z.ltb_lt. pose proof scale_pos. nia.
Qed.

(** X1. For a window of [W] whole seconds with [0 < W] and
    [W * 10^6 <= 2^52], the float comparison of [can_make_request] is exact:
    a stored timestamp is kept exactly when its age in microseconds is
    strictly below [W * 10^6].  A request made exactly [W] seconds ago is
    dropped, and a timestamp in the future is kept. *)
Theorem can_make_request_exact (now : datetime) (rl : RateLimiter) :
  window_ok (time_window rl) ->
  forall t, In t (requests (fst (can_make_request now rl))) <->
            In t (requests rl) /\ now - t < time_window rl * 10 ^ 6.
Proof.
  intros [HW Hb] t. unfold can_make_request. cbn [fst requests].
  rewrite filter_In, (in_window_exact now t _ HW Hb). reflexivity.
Qed.

Lemma can_make_request_exact_witness :
  In 1000000
     (requests (fst (can_make_request 3000000
                       (record_request 1000000 (record_request 0 (init 2 10)))))) /\
  ~ In 0
     (requests (fst (can_make_request 10000000
                       (record_request 1000000 (record_request 0 (init 2 10)))))).
Proof.
  assert (W : window_ok 10) by (split; [reflexivity | vm_compute; discriminate]).
  destruct (can_make_request_exact 3000000
              (record_request 1000000 (record_request 0 (init 2 10))) W 1000000)
    as [_ H1].
  destruct (can_make_request_exact 10000000
              (record_request 1000000 (record_request 0 (init 2 10))) W 0)
    as [H2 _].
  split.
  - apply H1. split; [simpl; auto | reflexivity].
  - intros Hin. destruct (H2 Hin) as [_ Hlt]. vm_compute in Hlt. discriminate Hlt.
Defined.

(** X2. Pruning is monotone in time: for such a window, a check at [now]
    followed by a check at a later time [now'] leaves the limiter in the
    state, and gives the answer, of a single check at [now'].  Nothing that
    a later check would keep is lost by an earlier one. *)
Theorem can_make_request_later (now now' : datetime) (rl : RateLimiter) :
  window_ok (time_window rl) -> now <= now' ->
  can_make_request now' (fst (can_make_request now rl)) = can_make_request now' rl.
Proof.
  intros [HW Hb] Hle.
  unfold can_make_request. cbn [fst requests max_requests time_window].
  rewrite filter_filter_implied; [reflexivity|].
  intros t _ H. apply (in_window_exact _ _ _ HW Hb) in H.
  apply (in_window_exact _ _ _ HW Hb). lia.
Qed.

Lemma can_make_request_later_witness :
  can_make_request 11000000
    (fst (can_make_request 3000000
            (record_request 1000000 (record_request 0 (init 2 10)))))
  = can_make_request 11000000
      (record_request 1000000 (record_request 0 (init 2 10))).
Proof.
  assert (W : window_ok 10) by (split; [reflexivity | vm_compute; discriminate]).
  assert (Hle : 3000000 <= 11000000) by lia.
  exact (can_make_request_later 3000000 11000000
           (record_request 1000000 (record_request 0 (init 2 10))) W Hle).
Defined.

(** X3. While every stored request is younger than the window and at
    least [max_requests] of them are stored, [can_make_request] answers
    [False] and removes nothing. *)
Theorem can_make_request_refuses (now : datetime) (rl : RateLimiter) :
  window_ok (time_window rl) ->
  (forall t, In t (requests rl) -> now - t < time_window rl * 10 ^ 6) ->
  max_requests rl <= Z.of_nat (List.length (requests rl)) ->
  snd (can_make_request now rl) = false /\
  requests (fst (can_make_request now rl)) = requests rl.
Proof.
  intros [HW Hb] Hin Hfull.
  unfold can_make_request. cbn [fst snd requests].
  rewrite filter_all.
  - split; [apply Z.ltb_ge; exact Hfull|reflexivity].
  - intros t Ht. apply (in_window_exact _ _ _ HW Hb). auto.
Qed.

Lemma can_make_request_refuses_witness :
  snd (can_make_request 3000000
         (record_request 1000000 (record_request 0 (init 2 10)))) = false /\
  requests (fst (can_make_request 3000000
                   (record_request 1000000 (record_request 0 (init 2 10)))))
  = [0; 1000000].
Proof.
  assert (W : window_ok 10) by (split; [reflexivity | vm_compute; discriminate]).
  assert (Hin : forall t, In t [0; 1000000] -> 3000000 - t < 10 * 10 ^ 6)
    by (intros t [<-|[<-|[]]]; reflexivity).
  assert (Hfull : 2 <= Z.of_nat (List.length [0; 1000000]))
    by (simpl; lia).
  exact (can_make_request_refuses 3000000
           (record_request 1000000 (record_request 0 (init 2 10))) W Hin Hfull).
Defined.

(** X4. Once every stored request is at least as old as the window, a
    limiter with a positive [max_requests] answers [True] and forgets them
    all. *)
Theorem can_make_request_after_window (now : datetime) (rl : RateLimiter) :
  window_ok (time_window rl) ->
  0 < max_requests rl ->
  (forall t, In t (requests rl) -> time_window rl * 10 ^ 6 <= now - t) ->
  snd (can_make_request now rl) = true /\
  requests (fst (can_make_request now rl)) = [].
Proof.
  intros [HW Hb] Hmax Hold.
  unfold can_make_request. cbn [fst snd requests].
  rewrite filter_none.
  - split; [apply Z.ltb_lt; simpl; lia|reflexivity].
  - intros t Ht. destruct (in_window now (time_window rl) t) eqn:E; [|reflexivity].
    apply (in_window_exact _ _ _ HW Hb) in E. specialize (Hold t Ht). lia.
Qed.

Lemma can_make_request_after_window_witness :
  snd (can_make_request 11000000
         (record_request 1000000 (record_request 0 (init 2 10)))) = true /\
  requests (fst (can_make_request 11000000
                   (record_request 1000000 (record_request 0 (init 2 10)))))
  = [].
Proof.
  assert (W : window_ok 10) by (split; [reflexivity | vm_compute; discriminate]).
  assert (Hmax : 0 < 2) by lia.
  assert (Hold : forall t, In t [0; 1000000] -> 10 * 10 ^ 6 <= 11000000 - t)
    by (intros t [<-|[<-|[]]]; vm_compute; discriminate).
  exact (can_make_request_after_window 11000000
           (record_request 1000000 (record_request 0 (init 2 10))) W Hmax Hold).
Defined.

(** X5. A request recorded at [now] is seen by a check at the same
    instant: with a positive window, the requests kept after
    [record_request] and [can_make_request] are those a check alone would
    keep, followed by the new timestamp. *)
Theorem record_request_counts (now : datetime) (rl : RateLimiter) :
  0 < time_window rl ->
  requests (fst (can_make_request now (record_request now rl)))
  = (requests (fst (can_make_request now rl)) ++ [now])%list.
Proof.
  intros HW. unfold can_make_request, record_request.
  cbn [fst requests time_window].
  rewrite filter_app. simpl. rewrite (in_window_now now _ HW). reflexivity.
Qed.

Lemma record_request_counts_witness :
  requests (fst (can_make_request 5 (record_request 5 (init 2 10))))
  = (requests (fst (can_make_request 5 (init 2 10))) ++ [5])%list.
Proof.
  assert (HW : 0 < time_window (init 2 10)) by reflexivity.
  exact (record_request_counts 5 (init 2 10) HW).
Defined.

(** X6. A fresh limiter whose [max_requests] is zero or negative cannot
    wait: [wait_if_needed] takes the minimum of an empty list and raises
    [ValueError], whatever [time.sleep] does. *)
Theorem wait_if_needed_no_quota (sleep : float -> result unit)
    (quota window : Z) (now1 now2 : datetime) :
  quota <= 0 ->
  wait_if_needed sleep now1 now2 (init quota window) = Raise ValueError.
Proof.
  intros H. unfold wait_if_needed, can_make_request, init.
  cbn [requests max_requests time_window filter List.length Z.of_nat].
  assert (E : (0 <? quota) = false) by (apply Z.ltb_ge; exact H).
  rewrite E. reflexivity.
Qed.

Lemma wait_if_needed_no_quota_witness :
  wait_if_needed (fun _ => Ok tt) 0 0 (init 0 10) = Raise ValueError.
Proof.
  assert (H : 0 <= 0) by lia.
  exact (wait_if_needed_no_quota (fun _ => Ok tt) 0 10 0 0 H).
Defined.

(** The sign of [time_window - seconds]: positive exactly when the seconds
    are below the window. *)
Lemma fgt_int_sub (W : Z) (ts : float) :
  fgt_int (fsub (Fin false (W * scale)) ts) 0 = flt_int ts W.
Proof.
  unfold fgt_int, flt_int, fsub.
  destruct ts as [s R|s|]; [|destruct s; reflexivity|reflexivity].
  cbn [fneg fadd signed].
  set (v := W * scale + signed (negb s) R).
  assert (Hv : v = W * scale - signed s R) by (unfold v; destruct s; simpl; lia).
  cbn [to_ext ext_ltb]. change (0 * scale) with 0.
  destruct (Z.eqb_spec v 0) as [E|E].
  - cbn [to_ext ext_ltb signed]. symmetry. apply Z.ltb_ge. lia.
  - unfold mk.
    assert (Hrm : v <> 0 -> 1 <= round_mag (Z.abs v) 1).
    { intros _. change 1 with (1 * 2 ^ 0) at 1.
      apply round_mag_ge; [split; [lia|reflexivity]|lia|lia|]. simpl. lia. }
    specialize (Hrm E).
    destruct (Z.ltb_spec v 0) as [Hneg|Hpos];
      destruct (round_mag (Z.abs v) 1 <? overflow_threshold);
      cbn [to_ext ext_ltb signed];
      destruct (Z.ltb_spec (signed s R) (W * scale));
      try (destruct (Z.ltb_spec 0 (- round_mag (Z.abs v) 1)));
      try (destruct (Z.ltb_spec 0 (round_mag (Z.abs v) 1)));
      try reflexivity; lia.
Qed.

(** A positive waiting time gives a positive duration to sleep. *)
Lemma sleep_duration_positive (x : float) :
  fgt_int x 0 = true -> fgt (fadd x safety_margin) zero = true.
Proof.
  assert (Hk : exists k, safety_margin = Fin false k /\ 0 < k).
  { eexists. split; [vm_compute; reflexivity|reflexivity]. }
  destruct Hk as (k & -> & Hk).
  unfold fgt_int, fgt, flt, zero.
  destruct x as [s m|[|]|]; cbn [to_ext ext_ltb fadd signed]; try discriminate;
    [|reflexivity].
  change (0 * scale) with 0. intros H. apply Z.ltb_lt in H.
  assert (Hv : 0 < signed s m + k) by lia.
  destruct (Z.eqb_spec (signed s m + k) 0) as [E|_]; [lia|].
  assert (Hs : (signed s m + k <? 0) = false) by (apply Z.ltb_ge; lia).
  rewrite Hs, Z.abs_eq by lia. unfold mk.
  assert (1 * 2 ^ 0 <= round_mag (signed s m + k) 1).
  { apply round_mag_ge; [split; [lia|reflexivity]|lia|lia|]. simpl. lia. }
  destruct (_ <? overflow_threshold); cbn [to_ext ext_ltb signed];
    [|reflexivity].
  apply Z.ltb_lt. simpl in *. lia.
Qed.

(** X7. For a limiter with a positive [max_requests] and such a window,
    whatever [time.sleep] does: [time.sleep] is called exactly when the
    request is refused and, at the second reading of the clock, the oldest
    stored request is still younger than the window; it is then called
    once, after the notice, with a positive duration, and
    [wait_if_needed] returns the pruned limiter when it returns and raises
    what it raises otherwise.  In every other case [wait_if_needed]
    returns the pruned limiter at once: it never fails by itself. *)
Theorem wait_if_needed_sleeps_iff (sleep : float -> result unit)
    (now1 now2 : datetime) (rl : RateLimiter) :
  0 < max_requests rl ->
  window_ok (time_window rl) ->
  let rl' := fst (can_make_request now1 rl) in
  let must_wait :=
    snd (can_make_request now1 rl) = false /\
    exists oldest,
      py_min (requests rl') = Ok oldest /\
      now2 - oldest < time_window rl * 10 ^ 6 in
  (must_wait ->
   exists d msg,
     fgt d zero = true /\
     wait_if_needed sleep now1 now2 rl
     = (_ <- sleep d ;; Ok (rl', [Print msg; Sleep d]))) /\
  (~ must_wait -> wait_if_needed sleep now1 now2 rl = Ok (rl', [])).
Proof.
  intros Hmax [HW Hb]. cbn zeta. unfold wait_if_needed.
  destruct (can_make_request now1 rl) as [rl0 can] eqn:E. cbn [fst snd].
  assert (Hw : time_window rl0 = time_window rl).
  { unfold can_make_request in E. injection E as <- _. reflexivity. }
  destruct can; cbn [negb].
  - split; [intros [H _]; discriminate H|intros _; reflexivity].
  - assert (Hne : requests rl0 <> []).
    { unfold can_make_request in E. injection E as <- Hc.
      cbn [requests]. intros Hnil. rewrite Hnil in Hc. simpl in Hc.
      apply Z.ltb_ge in Hc. lia. }
    destruct (py_min_nonempty _ Hne) as [oldest Hmin].
    rewrite Hmin. cbn [bind]. rewrite Hw.
    assert (HW53 : 0 <= time_window rl < 2 ^ 53).
    { change (10 ^ 6) with 1000000 in Hb. change (2 ^ 53) with (2 ^ 52 * 2). lia. }
    unfold int_sub_float. rewrite (of_Z_small _ HW53). cbn [bind].
    destruct (fgt_int (fsub (Fin false (time_window rl * scale))
                         (total_seconds (now2 - oldest))) 0) eqn:Epos.
    + split.
      * intros _. eexists _, _. split; [|reflexivity].
        apply sleep_duration_positive. exact Epos.
      * intros Hn. exfalso. apply Hn. split; [reflexivity|].
        exists oldest. split; [reflexivity|].
        apply (in_window_exact _ _ _ HW Hb).
        unfold in_window. rewrite <- fgt_int_sub. exact Epos.
    + split.
      * intros [_ (o & Ho & Hlt)]. injection Ho as <-.
        apply (in_window_exact _ _ _ HW Hb) in Hlt.
        unfold in_window in Hlt. rewrite <- fgt_int_sub in Hlt. congruence.
      * intros _. reflexivity.
Qed.

Lemma wait_if_needed_sleeps_iff_witness :
  (exists d msg,
     fgt d zero = true /\
     wait_if_needed (sleep_below (of_decimal 9 9)) 3000000 3000000
                    (record_request 0 (init 1 10))
     = (_ <- sleep_below (of_decimal 9 9) d ;;
        Ok (fst (can_make_request 3000000 (record_request 0 (init 1 10))),
            [Print msg; Sleep d]))) /\
  wait_if_needed (fun _ => Raise OverflowError) 10000000 10000000
                 (record_request 0 (init 1 10))
  = Ok (fst (can_make_request 10000000 (record_request 0 (init 1 10))), []).
Proof.
  assert (Hm : 0 < max_requests (record_request 0 (init 1 10))) by reflexivity.
  assert (W : window_ok (time_window (record_request 0 (init 1 10))))
    by (split; [reflexivity | vm_compute; discriminate]).
  assert (Hc : snd (can_make_request 3000000 (record_request 0 (init 1 10))) = false)
    by (vm_compute; reflexivity).
  assert (Ho : py_min (requests (fst (can_make_request 3000000
                                        (record_request 0 (init 1 10))))) = Ok 0)
    by (vm_compute; reflexivity).
  assert (Hlt : 3000000 - 0 < time_window (record_request 0 (init 1 10)) * 10 ^ 6)
    by (vm_compute; reflexivity).
  assert (Hno : ~ (snd (can_make_request 10000000
                          (record_request 0 (init 1 10))) = false /\
                   exists oldest,
                     py_min (requests (fst (can_make_request 10000000
                                (record_request 0 (init 1 10))))) = Ok oldest /\
                     10000000 - oldest
                     < time_window (record_request 0 (init 1 10)) * 10 ^ 6))
    by (intros [H _]; vm_compute in H; discriminate H).
  destruct (wait_if_needed_sleeps_iff (sleep_below (of_decimal 9 9))
              3000000 3000000 (record_request 0 (init 1 10)) Hm W) as [Hs _].
  destruct (wait_if_needed_sleeps_iff (fun _ => Raise OverflowError)
              10000000 10000000 (record_request 0 (init 1 10)) Hm W) as [_ Hn].
  exact (conj (Hs (conj Hc (ex_intro _ 0 (conj Ho Hlt)))) (Hn Hno)).
Defined.

(** ** Tick rounding and TP/SL parameters: edge cases *)

Lemma rhe_half (a b : Z) : 0 <= a -> 0 < b -> 2 * a <= b -> rhe a b = 0.
Proof.
  intros Ha Hb Hh. unfold rhe.
  rewrite Z.div_small, Z.mod_small by lia.
  destruct (Z.compare_spec (2 * a) b); try reflexivity; lia.
Qed.

Lemma round_to_tick_size_half_tick_mag (a b : Z) :
  0 <= a -> 0 < b -> 2 * a <= b ->
  round_to_tick_size (Fin false a) (Fin false b) = Ok (Fin false 0).
Proof.
  intros Ha Hb Hh.
  pose proof scale_pos as HS.
  assert (E : scale = 2 * 2 ^ 1073).
  { rewrite scale_eq. change 2 with (2 ^ 1) at 2.
    rewrite <- Z.pow_add_r by lia. reflexivity. }
  assert (HQ : round_mag (a * scale) b <= 2 ^ 1073).
  { apply round_mag_le_pow2; [nia|exact Hb|lia|]. nia. }
  assert (HQ0 : 0 <= round_mag (a * scale) b) by (apply round_mag_nonneg; nia).
  assert (Hn : rhe (round_mag (a * scale) b) scale = 0).
  { apply rhe_half; lia. }
  rewrite round_to_tick_size_value; try assumption.
  - rewrite Hn. reflexivity.
  - assert (H1 : 0 <= 1 <= 2 ^ 53) by (split; [lia|discriminate]).
    pose proof (ticks_below_overflow 1 H1).
    assert (0 < 2 ^ 1073) by (apply Z.pow_pos_nonneg; lia). lia.
  - rewrite Hn. split; [lia|reflexivity].
Qed.

Lemma round_if_supplied_half_tick (p t : float) :
  positive_finite p -> positive_finite t -> at_most_half_tick p t ->
  round_if_supplied (Some p) t = Ok (Some zero).
Proof.
  destruct p as [[|] a| |]; cbn [positive_finite at_most_half_tick]; try tauto.
  destruct t as [[|] b| |]; cbn [positive_finite at_most_half_tick]; try tauto.
  intros Ha Hb Hh. unfold round_if_supplied, truthy, is_zero.
  assert (E : (a =? 0) = false) by (apply Z.eqb_neq; lia).
  rewrite E. cbn [negb].
  rewrite round_to_tick_size_half_tick_mag by lia. reflexivity.
Qed.

(** X8. A positive price of at most half a tick is rounded to [0.0] (a
    price of exactly half a tick included: ties go to the even multiple),
    and [create_tpsl_params] then treats it as not supplied, as take-profit
    and as stop-loss price, whatever the other price is. *)
Theorem create_tpsl_params_half_tick
    (side trigger_by : string) (close_position : bool)
    (p t : float) (other : option float) :
  positive_finite p -> positive_finite t -> at_most_half_tick p t ->
  round_to_tick_size p t = Ok zero /\
  create_tpsl_params side (Some p) other trigger_by close_position t
  = create_tpsl_params side None other trigger_by close_position t /\
  create_tpsl_params side other (Some p) trigger_by close_position t
  = create_tpsl_params side other None trigger_by close_position t.
Proof.
  intros Hp Ht Hh. split.
  { destruct p as [[|] a| |]; cbn [positive_finite at_most_half_tick] in *;
      try tauto.
    destruct t as [[|] b| |]; cbn [positive_finite at_most_half_tick] in *;
      try tauto.
    apply round_to_tick_size_half_tick_mag; lia. }
  unfold create_tpsl_params.
  rewrite (round_if_supplied_half_tick p t Hp Ht Hh).
  split.
  - cbn [bind round_if_supplied].
    destruct (round_if_supplied other t); reflexivity.
  - destruct (round_if_supplied other t); reflexivity.
Qed.

Lemma create_tpsl_params_half_tick_witness :
  round_to_tick_size (of_decimal 25 (-2)) default_tick_size = Ok zero /\
  create_tpsl_params "sell" (Some (of_decimal 25 (-2))) (Some (of_decimal 91000 0))
                     "LAST_PRICE" true default_tick_size
  = create_tpsl_params "sell" None (Some (of_decimal 91000 0))
                       "LAST_PRICE" true default_tick_size.
Proof.
  assert (Hp : positive_finite (of_decimal 25 (-2))) by (vm_compute; reflexivity).
  assert (Ht : positive_finite default_tick_size) by (vm_compute; reflexivity).
  assert (Hh : at_most_half_tick (of_decimal 25 (-2)) default_tick_size)
    by (vm_compute; discriminate).
  destruct (create_tpsl_params_half_tick "sell" "LAST_PRICE" true
              (of_decimal 25 (-2)) default_tick_size (Some (of_decimal 91000 0))
              Hp Ht Hh) as (H1 & H2 & _).
  exact (conj H1 H2).
Defined.

(** X9. A price that is already on the grid stays where it is: for a
    positive finite tick [t] and an int [0 <= n <= 2^50], the finite float
    [n * t] is returned unchanged by [round_to_tick_size]. *)
Theorem round_to_tick_size_fixes_ticks (n : Z) (t p : float) :
  positive_finite t -> 0 <= n <= 2 ^ 50 ->
  int_mul_float n t = Ok p -> is_finite p = true ->
  round_to_tick_size p t = Ok p.
Proof.
  destruct t as [[|] b| |]; cbn [positive_finite]; try tauto.
  intros Hb Hn Hp Hfin.
  pose proof scale_pos as HS.
  unfold int_mul_float in Hp.
  assert (H53 : 0 <= n < 2 ^ 53).
  { change (2 ^ 53) with (2 ^ 50 * 8). change (2 ^ 50) with 1125899906842624 in *. lia. }
  rewrite (of_Z_small n H53) in Hp. cbn [bind fmul xorb] in Hp.
  injection Hp as Hp. unfold mk in Hp.
  replace (n * scale * b) with (n * b * scale) in Hp by ring.
  rewrite round_mag_scale1 in Hp.
  destruct (round_mag (n * b) 1 <? overflow_threshold) eqn:Hov;
    [|rewrite <- Hp in Hfin; discriminate].
  set (R := round_mag (n * b) 1) in *.
  assert (HR : 0 <= R) by (apply round_mag_nonneg; nia).
  pose proof (requotient_round scale n b R _ HS Hn Hb eq_refl eq_refl) as Hq.
  pose proof (requotient_bound scale n b R _ HS Hn Hb eq_refl eq_refl) as Hbd.
  assert (HQ : round_mag (R * scale) b < overflow_threshold).
  { assert (H1 : 0 <= n + 1 <= 2 ^ 53).
    { change (2 ^ 53) with (2 ^ 50 * 8). change (2 ^ 50) with 1125899906842624 in *. lia. }
    pose proof (ticks_below_overflow (n + 1) H1). lia. }
  rewrite <- Hp.
  rewrite (round_to_tick_size_value R b HR Hb HQ) by (rewrite Hq; lia).
  rewrite Hq. unfold mk. fold R. rewrite Hov. reflexivity.
Qed.

Lemma round_to_tick_size_fixes_ticks_witness :
  round_to_tick_size (of_decimal 3 (-1)) (of_decimal 1 (-1))
  = Ok (of_decimal 30000000000000004 (-17)) /\
  round_to_tick_size (of_decimal 30000000000000004 (-17)) (of_decimal 1 (-1))
  = Ok (of_decimal 30000000000000004 (-17)).
Proof.
  assert (Ht : positive_finite (of_decimal 1 (-1))) by (vm_compute; reflexivity).
  assert (Hn : 0 <= 3 <= 2 ^ 50) by (split; [lia | vm_compute; discriminate]).
  assert (Hp : int_mul_float 3 (of_decimal 1 (-1))
               = Ok (of_decimal 30000000000000004 (-17)))
    by (vm_compute; reflexivity).
  assert (Hf : is_finite (of_decimal 30000000000000004 (-17)) = true)
    by (vm_compute; reflexivity).
  assert (R : round_to_tick_size (of_decimal 3 (-1)) (of_decimal 1 (-1))
              = Ok (of_decimal 30000000000000004 (-17)))
    by (vm_compute; reflexivity).
  exact (conj R (round_to_tick_size_fixes_ticks 3 (of_decimal 1 (-1))
                   (of_decimal 30000000000000004 (-17)) Ht Hn Hp Hf)).
Defined.

Lemma round_to_tick_size_zero_tick_aux (price tick_size : float) :
  is_zero tick_size = true ->
  round_to_tick_size price tick_size = Raise ZeroDivisionError.
Proof.
  intros H. unfold round_to_tick_size, truediv. rewrite H. reflexivity.
Qed.

(** X10. With a tick size of zero ([0.0] or [-0.0]), [create_tpsl_params]
    raises [ZeroDivisionError] as soon as one supplied price is non-zero,
    and returns the empty mapping otherwise: the tick size is not looked at
    when there is nothing to round. *)
Theorem create_tpsl_params_zero_tick
    (side trigger_by : string) (close_position : bool)
    (tp sl : option float) (tick_size : float) :
  is_zero tick_size = true ->
  create_tpsl_params side tp sl trigger_by close_position tick_size
  = if truthy_opt tp || truthy_opt sl then Raise ZeroDivisionError else Ok [].
Proof.
  intros Hz. unfold create_tpsl_params, round_if_supplied, add_entry.
  destruct tp as [x|], sl as [y|]; cbn [truthy_opt orb];
    try destruct (truthy x) eqn:Ex; try destruct (truthy y) eqn:Ey;
    cbn [orb bind];
    rewrite ?(round_to_tick_size_zero_tick_aux _ _ Hz); cbn [bind];
    rewrite ?Ex, ?Ey; reflexivity.
Qed.

Lemma create_tpsl_params_zero_tick_witness :
  create_tpsl_params "sell" None (Some (of_decimal 91000 0)) "LAST_PRICE" true zero
  = Raise ZeroDivisionError /\
  create_tpsl_params "sell" (Some zero) None "LAST_PRICE" true zero = Ok [].
Proof.
  assert (Hz : is_zero zero = true) by reflexivity.
  exact (conj (create_tpsl_params_zero_tick "sell" "LAST_PRICE" true
                 None (Some (of_decimal 91000 0)) zero Hz)
              (create_tpsl_params_zero_tick "sell" "LAST_PRICE" true
                 (Some zero) None zero Hz)).
Defined.

Lemma round_if_supplied_truthy (p : option float) (tick_size r : float) :
  round_if_supplied p tick_size = Ok (Some r) -> truthy r = true ->
  exists p0, p = Some p0 /\ truthy p0 = true /\
             round_to_tick_size p0 tick_size = Ok r.
Proof.
  unfold round_if_supplied. destruct p as [p0|]; [|discriminate].
  destruct (truthy p0) eqn:E.
  - destruct (round_to_tick_size p0 tick_size) as [r0|ex] eqn:R; cbn [bind];
      [|discriminate].
    intros [= <-] _. exists p0. auto.
  - intros [= <-] Hr. congruence.
Qed.

(** X11. Whatever [create_tpsl_params] returns, an entry is never invented:
    a [take_profit] (or [stop_loss]) entry is present only if that price
    was supplied and non-zero and its rounded value is non-zero, and the
    entry is the trigger descriptor of the rounded value.  The mapping has
    no key besides [take_profit] and [stop_loss], each at most once. *)
Theorem create_tpsl_params_entries
    (side trigger_by : string) (close_position : bool)
    (tp sl : option float) (tick_size : float) (d : dict) :
  create_tpsl_params side tp sl trigger_by close_position tick_size = Ok d ->
  (forall e, dict_get d "take_profit" = Some e ->
     exists p r, tp = Some p /\ truthy p = true /\
                 round_to_tick_size p tick_size = Ok r /\ truthy r = true /\
                 e = trigger_entry "TAKE_PROFIT" r trigger_by close_position) /\
  (forall e, dict_get d "stop_loss" = Some e ->
     exists p r, sl = Some p /\ truthy p = true /\
                 round_to_tick_size p tick_size = Ok r /\ truthy r = true /\
                 e = trigger_entry "STOP_LOSS" r trigger_by close_position) /\
  (forall k, In k (keys d) -> k = "take_profit" \/ k = "stop_loss") /\
  NoDup (keys d).
Proof.
  unfold create_tpsl_params.
  destruct (round_if_supplied tp tick_size) as [tp'|ex] eqn:Rtp; cbn [bind];
    [|discriminate].
  destruct (round_if_supplied sl tick_size) as [sl'|ex] eqn:Rsl; cbn [bind];
    [|discriminate].
  intros [= <-]. unfold add_entry.
  assert (Htp : forall r, tp' = Some r -> truthy r = true ->
            exists p, tp = Some p /\ truthy p = true /\
                      round_to_tick_size p tick_size = Ok r).
  { intros r -> Hr. eapply round_if_supplied_truthy; eassumption. }
  assert (Hsl : forall r, sl' = Some r -> truthy r = true ->
            exists p, sl = Some p /\ truthy p = true /\
                      round_to_tick_size p tick_size = Ok r).
  { intros r -> Hr. eapply round_if_supplied_truthy; eassumption. }
  clear Rtp Rsl.
  destruct tp' as [rx|]; [destruct (truthy rx) eqn:Erx|];
    (destruct sl' as [ry|]; [destruct (truthy ry) eqn:Ery|]);
    cbn [dict_set dict_get keys map fst String.eqb Ascii.eqb Bool.eqb];
    (split; [intros e He; try discriminate He; injection He as <-;
             destruct (Htp _ eq_refl Erx) as (p & ? & ? & ?);
             exists p, rx; auto|]);
    (split; [intros e He; try discriminate He; injection He as <-;
             destruct (Hsl _ eq_refl Ery) as (p & ? & ? & ?);
             exists p, ry; auto|]);
    (split; [intros k Hk; cbn in Hk; intuition|]);
    repeat constructor; cbn; intuition; discriminate.
Qed.

Lemma create_tpsl_params_entries_witness :
  exists d e,
    create_tpsl_params "sell" (Some (of_decimal 8648617 (-2))) None
                       "LAST_PRICE" true (of_decimal 5 (-1)) = Ok d /\
    dict_get d "take_profit" = Some e /\
    NoDup (keys d) /\
    exists p r,
      Some (of_decimal 8648617 (-2)) = Some p /\ truthy p = true /\
      round_to_tick_size p (of_decimal 5 (-1)) = Ok r /\ truthy r = true /\
      e = trigger_entry "TAKE_PROFIT" r "LAST_PRICE" true.
Proof.
  assert (E : create_tpsl_params "sell" (Some (of_decimal 8648617 (-2))) None
                "LAST_PRICE" true (of_decimal 5 (-1))
              = Ok [("take_profit",
                     VDict [("trigger",
                             VDict [("trigger_type", VStr "TAKE_PROFIT");
                                    ("tpsl",
                                     VDict [("trigger_price", VStr "86486.0");
                                            ("trigger_by", VStr "LAST_PRICE");
                                            ("close_position", VBool true)])])])])
    by (vm_compute; reflexivity).
  destruct (create_tpsl_params_entries "sell" "LAST_PRICE" true
              (Some (of_decimal 8648617 (-2))) None (of_decimal 5 (-1)) _ E)
    as (H1 & _ & _ & H4).
  eexists _, _.
  exact (conj E (conj eq_refl (conj H4 (H1 _ eq_refl)))).
Defined.

(** ** TP/SL validation: side, stop loss and NaN *)

(** X12. [validate_tpsl_prices] knows two sides only: a [side] that is
    'sell' up to letter case is validated as closing a long, and every
    other string ('buy', 'long', 'short', the empty string, a misspelling)
    is validated as closing a short. *)
Theorem validate_tpsl_prices_side (side : string) (L : float)
    (tp sl : option float) :
  (lower side = "sell" ->
   validate_tpsl_prices side L tp sl = validate_tpsl_prices "sell" L tp sl) /\
  (lower side <> "sell" ->
   validate_tpsl_prices side L tp sl = validate_tpsl_prices "buy" L tp sl).
Proof.
  unfold validate_tpsl_prices. split; intros H.
  - rewrite H. reflexivity.
  - apply String.eqb_neq in H. rewrite H. reflexivity.
Qed.

Lemma validate_tpsl_prices_side_witness :
  validate_tpsl_prices "SeLL" (of_decimal 100 0) (Some (of_decimal 110 0)) None
  = validate_tpsl_prices "sell" (of_decimal 100 0) (Some (of_decimal 110 0)) None /\
  validate_tpsl_prices "long" (of_decimal 100 0) (Some (of_decimal 110 0)) None
  = validate_tpsl_prices "buy" (of_decimal 100 0) (Some (of_decimal 110 0)) None.
Proof.
  assert (H1 : lower "SeLL" = "sell") by reflexivity.
  assert (H2 : lower "long" <> "sell") by (vm_compute; discriminate).
  destruct (validate_tpsl_prices_side "SeLL" (of_decimal 100 0)
              (Some (of_decimal 110 0)) None) as [A _].
  destruct (validate_tpsl_prices_side "long" (of_decimal 100 0)
              (Some (of_decimal 110 0)) None) as [_ B].
  exact (conj (A H1) (B H2)).
Defined.

(** X13. When the take-profit price passes, a non-zero stop loss on the
    wrong side of the last price, or equal to it, is refused with the SL
    message that carries the last price with two decimals: [sl >= L] when
    closing a long, [sl <= L] when closing a short. *)
Theorem validate_tpsl_prices_stop_loss (L sl : float) (tp : option float) :
  truthy sl = true ->
  (fst (validate_tpsl_prices "sell" L tp None) = true -> fge sl L = true ->
   validate_tpsl_prices "sell" L tp (Some sl) = (false, sl_long_message L)) /\
  (fst (validate_tpsl_prices "buy" L tp None) = true -> fle sl L = true ->
   validate_tpsl_prices "buy" L tp (Some sl) = (false, sl_short_message L)).
Proof.
  intros Hsl. unfold validate_tpsl_prices, sl_long_message, sl_short_message.
  cbn [truthy_opt lower lower_ascii String.eqb]. simpl String.eqb.
  rewrite Hsl. cbn [negb andb].
  rewrite !andb_false_r.
  split; intros Htp Hcmp; rewrite Hcmp;
    destruct tp as [x|]; try reflexivity;
    cbn [truthy_opt] in Htp; destruct (truthy x); cbn [negb andb] in Htp |- *;
    try reflexivity.
  - destruct (fle x L); [discriminate Htp|reflexivity].
  - destruct (fge x L); [discriminate Htp|reflexivity].
Qed.

Lemma validate_tpsl_prices_stop_loss_witness :
  validate_tpsl_prices "sell" (of_decimal 100 0) (Some (of_decimal 110 0))
                       (Some (of_decimal 100 0))
  = (false, sl_long_message (of_decimal 100 0)) /\
  validate_tpsl_prices "buy" (of_decimal 100 0) None (Some (of_decimal 90 0))
  = (false, sl_short_message (of_decimal 100 0)).
Proof.
  assert (T1 : truthy (of_decimal 100 0) = true) by (vm_compute; reflexivity).
  assert (T2 : truthy (of_decimal 90 0) = true) by (vm_compute; reflexivity).
  assert (V1 : fst (validate_tpsl_prices "sell" (of_decimal 100 0)
                      (Some (of_decimal 110 0)) None) = true)
    by (vm_compute; reflexivity).
  assert (V2 : fst (validate_tpsl_prices "buy" (of_decimal 100 0) None None) = true)
    by (vm_compute; reflexivity).
  assert (G1 : fge (of_decimal 100 0) (of_decimal 100 0) = true)
    by (vm_compute; reflexivity).
  assert (G2 : fle (of_decimal 90 0) (of_decimal 100 0) = true)
    by (vm_compute; reflexivity).
  destruct (validate_tpsl_prices_stop_loss (of_decimal 100 0) (of_decimal 100 0)
              (Some (of_decimal 110 0)) T1) as [A _].
  destruct (validate_tpsl_prices_stop_loss (of_decimal 100 0) (of_decimal 90 0)
              None T2) as [_ B].
  exact (conj (A V1 G1) (B V2 G2)).
Defined.

Lemma fle_nan_r (x : float) : fle x NaN = false.
Proof. unfold fle, flt, feq. cbn [to_ext]. destruct (to_ext x); reflexivity. Qed.

Lemma fle_nan_l (x : float) : fle NaN x = false.
Proof. reflexivity. Qed.

(** X14. NaN defeats the validation: with a NaN last price every pair of
    prices is accepted, for every side, and NaN trigger prices are accepted
    against every last price. *)
Theorem validate_tpsl_prices_nan (side : string) (L : float)
    (tp sl : option float) :
  validate_tpsl_prices side NaN tp sl = (true, "") /\
  validate_tpsl_prices side L (Some NaN) (Some NaN) = (true, "").
Proof.
  unfold validate_tpsl_prices, fge. split.
  - destruct tp as [x|], sl as [y|]; cbn [truthy_opt];
      rewrite ?fle_nan_l, ?fle_nan_r;
      try destruct (truthy x); try destruct (truthy y);
      destruct (lower side =? "sell")%string; reflexivity.
  - rewrite ?fle_nan_l, ?fle_nan_r.
    destruct (lower side =? "sell")%string; reflexivity.
Qed.

(** ** Configuration *)

Lemma field_missing_spec (c : config) (field : string) :
  field_missing c field = Ok (negb (field_set c field)).
Proof.
  unfold field_missing, field_set, cfg_index.
  destruct (cfg_get c field) as [v|]; [|reflexivity].
  destruct (String.eqb v "") eqn:E; cbn [negb bind]; [reflexivity|].
  rewrite E. reflexivity.
Qed.

Lemma collect_missing_spec (c : config) (fields missing : list string) :
  collect_missing c fields missing
  = Ok (missing ++ filter (fun f => negb (field_set c f)) fields)%list.
Proof.
  revert missing. induction fields as [|f rest IH]; intros missing; simpl.
  - rewrite app_nil_r. reflexivity.
  - rewrite field_missing_spec. cbn [bind]. rewrite IH.
    destruct (field_set c f); cbn [negb]; [reflexivity|].
    rewrite <- app_assoc. reflexivity.
Qed.

Lemma validate_config_value (c : config) :
  validate_config c
  = Ok (forallb (field_set c) required_fields,
        filter (fun f => negb (field_set c f)) required_fields).
Proof.
  unfold validate_config. rewrite collect_missing_spec. cbn [bind app].
  f_equal. f_equal. unfold required_fields. cbn [filter forallb].
  destruct (field_set c "GRVT_API_KEY"), (field_set c "GRVT_PRIVATE_KEY"),
    (field_set c "GRVT_TRADING_ACCOUNT_ID"); reflexivity.
Qed.

Lemma field_set_true (c : config) (field : string) :
  field_set c field = true <->
  exists v, cfg_get c field = Some v /\ v <> "".
Proof.
  unfold field_set. destruct (cfg_get c field) as [v|].
  - destruct (String.eqb_spec v "") as [->|Hne]; cbn [negb]; split.
    + discriminate.
    + intros (v & [= <-] & Hv). congruence.
    + intros _. exists v. auto.
    + reflexivity.
  - split; [discriminate|]. intros (v & Hv & _). discriminate.
Qed.

(** X15. [validate_config] never raises, whatever keys the configuration
    has.  It is valid exactly when nothing is missing, that is when each of
    the three required fields is bound to a non-empty string; the missing
    fields are the required fields that are absent or empty, in the order
    API key, private key, trading account, each once. *)
Theorem validate_config_spec (c : config) :
  exists is_valid missing,
    validate_config c = Ok (is_valid, missing) /\
    (is_valid = true <-> missing = []) /\
    (is_valid = true <->
     forall field, In field required_fields ->
       exists v, cfg_get c field = Some v /\ v <> "") /\
    (forall field, In field missing <->
       In field required_fields /\ field_set c field = false) /\
    missing = filter (fun f => negb (field_set c f)) required_fields.
Proof.
  rewrite validate_config_value. eexists _, _. split; [reflexivity|].
  split; [|split; [|split; [|reflexivity]]].
  - unfold required_fields. cbn [filter forallb].
    destruct (field_set c "GRVT_API_KEY"), (field_set c "GRVT_PRIVATE_KEY"),
      (field_set c "GRVT_TRADING_ACCOUNT_ID"); cbn; split; congruence.
  - rewrite forallb_forall. split; intros H field Hin.
    + apply field_set_true. apply H. exact Hin.
    + apply field_set_true. apply H. exact Hin.
  - intros field. rewrite filter_In, negb_true_iff. reflexivity.
Qed.

Lemma field_set_load (environ : string -> option string) (field : string) :
  In field required_fields ->
  field_set (load_grvt_config environ) field
  = match environ field with
    | Some v => negb (String.eqb v "")
    | None => false
    end.
Proof.
  unfold required_fields, field_set, load_grvt_config, getenv.
  intros [<-|[<-|[<-|[]]]]; cbn; destruct (environ _); reflexivity.
Qed.

Lemma field_set_load_true (environ : string -> option string) (field : string) :
  In field required_fields ->
  (field_set (load_grvt_config environ) field = true <->
   exists v, environ field = Some v /\ v <> "").
Proof.
  intros Hin. rewrite (field_set_load environ field Hin).
  destruct (environ field) as [v|].
  - destruct (String.eqb_spec v "") as [->|Hne]; cbn [negb]; split.
    + discriminate.
    + intros (v & [= <-] & Hv). congruence.
    + intros _. exists v. auto.
    + reflexivity.
  - split; [discriminate|]. intros (v & Hv & _). discriminate.
Qed.

(** X16. Loading then validating: the configuration read by
    [load_grvt_config] passes [validate_config] with nothing missing
    exactly when the environment binds the API key, the private key and
    the trading account id to non-empty strings.  The defaults of
    [GRVT_ENV] and [GRVT_SUB_ACCOUNT_ID] play no part. *)
Theorem validate_loaded_config (environ : string -> option string) :
  validate_config (load_grvt_config environ) = Ok (true, []) <->
  forall field, In field required_fields ->
    exists v, environ field = Some v /\ v <> "".
Proof.
  rewrite validate_config_value.
  set (c := load_grvt_config environ).
  assert (Hall : (forall field, In field required_fields ->
                    field_set c field = true) <->
                 (forall field, In field required_fields ->
                    exists v, environ field = Some v /\ v <> "")).
  { split; intros H field Hin; apply (field_set_load_true environ field Hin);
      apply H; exact Hin. }
  rewrite <- Hall. unfold required_fields. cbn [forallb filter].
  split.
  - intros H field [<-|[<-|[<-|[]]]];
      destruct (field_set c "GRVT_API_KEY"), (field_set c "GRVT_PRIVATE_KEY"),
        (field_set c "GRVT_TRADING_ACCOUNT_ID"); cbn in H; congruence.
  - intros H.
    rewrite (H "GRVT_API_KEY"), (H "GRVT_PRIVATE_KEY"),
      (H "GRVT_TRADING_ACCOUNT_ID") by (simpl; auto).
    reflexivity.
Qed.

(** ** Connection *)

Section ConnectionFacts.

Variables Env Client : Type.
Variable GrvtEnv : string -> result Env.
Variable GrvtCcxt : Env -> list (string * string) -> result Client.

(** X17. [connect_to_grvt] never raises.  It returns a client exactly when
    the SDK was imported, the configuration has the four keys it indexes
    ([GRVT_ENV], [GRVT_API_KEY], [GRVT_TRADING_ACCOUNT_ID],
    [GRVT_PRIVATE_KEY]), and both SDK constructors succeed; the client is
    the one built from these values.  In every other case, a missing key
    included, the result is [None]. *)
Theorem connect_to_grvt_spec (available : bool) (c : config) (client : Client) :
  connect_to_grvt Env Client GrvtEnv GrvtCcxt available c = Some client <->
  available = true /\
  exists name env api_key account key,
    cfg_get c "GRVT_ENV" = Some name /\
    GrvtEnv name = Ok env /\
    cfg_get c "GRVT_API_KEY" = Some api_key /\
    cfg_get c "GRVT_TRADING_ACCOUNT_ID" = Some account /\
    cfg_get c "GRVT_PRIVATE_KEY" = Some key /\
    GrvtCcxt env [("api_key", api_key); ("trading_account_id", account);
                  ("private_key", key)] = Ok client.
Proof.
  unfold connect_to_grvt, cfg_index.
  destruct available; cbn [negb].
  2:{ split; [discriminate|]. intros [H _]. discriminate. }
  destruct (cfg_get c "GRVT_ENV") as [name|]; cbn [bind].
  2:{ split; [discriminate|]. intros (_ & ? & ? & ? & ? & ? & H & _). discriminate. }
  destruct (GrvtEnv name) as [env|e] eqn:Eenv; cbn [bind].
  2:{ split; [discriminate|].
      intros (_ & ? & ? & ? & ? & ? & [= <-] & H & _). congruence. }
  destruct (cfg_get c "GRVT_API_KEY") as [api_key|]; cbn [bind].
  2:{ split; [discriminate|].
      intros (_ & ? & ? & ? & ? & ? & _ & _ & H & _). discriminate. }
  destruct (cfg_get c "GRVT_TRADING_ACCOUNT_ID") as [account|]; cbn [bind].
  2:{ split; [discriminate|].
      intros (_ & ? & ? & ? & ? & ? & _ & _ & _ & H & _). discriminate. }
  destruct (cfg_get c "GRVT_PRIVATE_KEY") as [key|]; cbn [bind].
  2:{ split; [discriminate|].
      intros (_ & ? & ? & ? & ? & ? & _ & _ & _ & _ & H & _). discriminate. }
  destruct (GrvtCcxt env _) as [cl|e] eqn:Ecl; cbn [bind].
  - split.
    + intros [= <-]. split; [reflexivity|].
      exists name, env, api_key, account, key. auto 10.
    + intros (_ & ? & ? & ? & ? & ? & [= <-] & He & [= <-] & [= <-] & [= <-] & Hc).
      rewrite Eenv in He. injection He as <-. rewrite Ecl in Hc.
      injection Hc as <-. reflexivity.
  - split; [discriminate|].
    intros (_ & ? & ? & ? & ? & ? & [= <-] & He & [= <-] & [= <-] & [= <-] & Hc).
    rewrite Eenv in He. injection He as <-. rewrite Ecl in Hc. discriminate.
Qed.

End ConnectionFacts.

(** ** Keys and pre-flight checks *)

Section PreflightFacts.

Variable address_of_key : string -> result string.

Lemma prefix_0x_append (s : string) : startswith "0x" ("0x" ++ s) = true.
Proof. reflexivity. Qed.

(** X18. A private key may be given with or without its [0x] prefix:
    [get_account_public_address] returns for a key without the prefix what
    it returns for the prefixed key, an exception of the signing library
    included. *)
Theorem get_account_public_address_prefix (k : string) :
  startswith "0x" k = false ->
  get_account_public_address address_of_key k
  = get_account_public_address address_of_key ("0x" ++ k).
Proof.
  intros H. unfold get_account_public_address, with_0x.
  rewrite H, prefix_0x_append. reflexivity.
Qed.

(** A key of 34 characters is not taken for one of 66, whatever the number
    of bytes of its encoding. *)
Example py_len_counts_characters :
  py_len "0xéééééééééééééééééééééééééééééééé" = 34%nat /\
  String.length "0xéééééééééééééééééééééééééééééééé" = 66%nat.
Proof. split; reflexivity. Qed.

Lemma key_format_test (c : config) :
  negb (String.eqb (private_key_of c) "") && startswith "0x" (private_key_of c)
  && Nat.eqb (py_len (private_key_of c)) 66 = key_format_ok c.
Proof.
  unfold key_format_ok, private_key_of.
  destruct (cfg_get c "GRVT_PRIVATE_KEY") as [k|]; [|reflexivity].
  destruct (String.eqb_spec k "") as [->|Hne]; reflexivity.
Qed.

(** X19. [run_preflight_checks] when the SDK is missing raises
    [NameError] (the message of [check_pysdk_availability] names the unbound
    [PYSDK_PATH]) and returns no result.  When the SDK is present the
    result has the keys [pysdk], [config], [private_key_format] in this
    order: [pysdk] is true, [config] tells whether the three required
    fields are set, and [private_key_format] tells whether the private key
    has 66 characters (code points) starting with [0x]; when it has, the address is
    derived from the key as it is, and a failure of the signing library is
    raised instead of a result. *)
Theorem run_preflight_checks_spec (available : bool) (c : config) :
  run_preflight_checks address_of_key available c
  = if available then
      if key_format_ok c then
        match address_of_key (private_key_of c) with
        | Ok _ => Ok [("pysdk", true);
                      ("config", forallb (field_set c) required_fields);
                      ("private_key_format", true)]
        | Raise e => Raise e
        end
      else Ok [("pysdk", true);
               ("config", forallb (field_set c) required_fields);
               ("private_key_format", false)]
    else Raise NameError.
Proof.
  destruct available; [|reflexivity].
  unfold run_preflight_checks. cbn [check_pysdk_availability bind].
  rewrite validate_config_value. cbn [bind].
  fold (private_key_of c). rewrite key_format_test.
  destruct (key_format_ok c) eqn:E; [|reflexivity].
  unfold get_account_public_address, with_0x.
  assert (Hp : startswith "0x" (private_key_of c) = true).
  { unfold key_format_ok, private_key_of in *.
    destruct (cfg_get c "GRVT_PRIVATE_KEY"); [|discriminate].
    apply andb_true_iff in E. tauto. }
  rewrite Hp. destruct (address_of_key (private_key_of c)); reflexivity.
Qed.

End PreflightFacts.

Lemma get_account_public_address_prefix_witness :
  get_account_public_address (fun k => Ok (String.append "address of " k)) "ab12"
  = get_account_public_address (fun k => Ok (String.append "address of " k)) "0xab12".
Proof.
  assert (H : startswith "0x" "ab12" = false) by reflexivity.
  exact (get_account_public_address_prefix
           (fun k => Ok (String.append "address of " k)) "ab12" H).
Defined.

(** ** Cancelling orders *)

Section CancelFacts.

Variable S : Type.
Variable c : client S.

Lemma order_to_cancel_id (d : dict) :
  truthy_value (order_id_of d) = false ->
  order_to_cancel (VDict d) = Ok None.
Proof.
  unfold order_to_cancel, order_id_of, py_get.
  destruct (dict_get d "id") as [i|]; destruct (dict_get d "order_id") as [o|];
    cbn [bind]; intros ->; reflexivity.
Qed.

(** X20. An order without a usable id is skipped and the client is not
    called.  The id is the value of [order_id] when that key is present,
    and of [id] otherwise: a record whose [order_id] is [None] or empty is
    skipped even if it has an [id]. *)
Theorem cancel_one_skips_without_id (s : S) (d : dict) :
  truthy_value (order_id_of d) = false ->
  cancel_one S c s (VDict d) = (s, false).
Proof.
  intros H. unfold cancel_one. rewrite (order_to_cancel_id d H). reflexivity.
Qed.

Lemma order_to_cancel_flat (d : dict) :
  truthy_value (order_id_of d) = true -> flat_order d ->
  order_to_cancel (VDict d) = Ok (Some (order_id_of d)).
Proof.
  intros Hid [Hlegs Hside].
  unfold order_to_cancel, order_id_of, py_get in *.
  destruct (dict_get d "id") as [i|]; destruct (dict_get d "order_id") as [o|];
    cbn [bind]; rewrite Hid; cbn [negb];
    destruct (dict_get d "legs") as [legs|]; cbn [bind];
    rewrite ?Hlegs; cbn [truthy_value bind];
    destruct (dict_get d "symbol"); cbn [bind];
    destruct (dict_get d "side") as [[]|]; try discriminate Hside; reflexivity.
Qed.

(** X21. For an order with an id, no legs and a string (or no) [side],
    exactly one call is made, [cancel_order(order_id)], and the order is
    counted unless the call raises or returns [False], [None] or an empty
    dict. *)
Theorem cancel_one_flat (s : S) (d : dict) :
  truthy_value (order_id_of d) = true -> flat_order d ->
  cancel_one S c s (VDict d)
  = (fst (cancel_order c s (order_id_of d)),
     match snd (cancel_order c s (order_id_of d)) with
     | Ok r => negb (cancel_failed r)
     | Raise _ => false
     end).
Proof.
  intros Hid Hflat. unfold cancel_one.
  rewrite (order_to_cancel_flat d Hid Hflat).
  destruct (cancel_order c s (order_id_of d)) as [s' [r|e]]; reflexivity.
Qed.

(** X22. An order without legs whose [side] is present but not a string
    ([None], a number) is never cancelled: building the log line fails
    first, the client is not called, and the order is not counted. *)
Theorem cancel_one_bad_side (s : S) (d : dict) (v : value) :
  match dict_get d "legs" with
  | Some legs => truthy_value legs = false
  | None => True
  end ->
  dict_get d "side" = Some v -> is_str v = false ->
  cancel_one S c s (VDict d) = (s, false).
Proof.
  intros Hlegs Hside Hv. unfold cancel_one.
  destruct (truthy_value (order_id_of d)) eqn:Hid;
    [|rewrite (order_to_cancel_id d Hid); reflexivity].
  assert (E : order_to_cancel (VDict d) = Raise AttributeError).
  { unfold order_to_cancel, order_id_of, py_get in *.
    destruct (dict_get d "id") as [i|]; destruct (dict_get d "order_id") as [o|];
      cbn [bind]; rewrite Hid; cbn [negb];
      destruct (dict_get d "legs") as [legs|]; cbn [bind];
      rewrite ?Hlegs; cbn [truthy_value bind];
      destruct (dict_get d "symbol"); cbn [bind];
      rewrite Hside; destruct v; try discriminate Hv; reflexivity. }
  rewrite E. reflexivity.
Qed.

Lemma cancel_loop_independent (outcome : value -> result value)
    (orders : list value) (s : S) (count : Z) :
  (forall s order_id, snd (cancel_order c s order_id) = outcome order_id) ->
  snd (cancel_loop S c s orders count)
  = count + Z.of_nat (List.length (filter (cancelled outcome) orders)).
Proof.
  intros Hout. revert s count.
  induction orders as [|o rest IH]; intros s count.
  - simpl. lia.
  - cbn [cancel_loop filter].
    assert (E : snd (cancel_one S c s o) = cancelled outcome o).
    { unfold cancel_one, cancelled.
      destruct (order_to_cancel o) as [[oid|]|e]; try reflexivity.
      specialize (Hout s oid).
      destruct (cancel_order c s oid) as [s' r]. cbn [snd] in *. subst r.
      destruct (outcome oid); reflexivity. }
    destruct (cancel_one S c s o) as [s' ok]. cbn [snd] in E. subst ok.
    rewrite IH. destruct (cancelled outcome o); cbn [List.length]; lia.
Qed.

(** X23. The count returned by [emergency_cancel_all] is the number of
    fetched orders that were cancelled: with a client whose answer to
    [cancel_order] depends on the order id only, each order is judged on
    its own, so an order that is malformed, refused or failing neither
    stops the loop nor changes what happens to the others. *)
Theorem emergency_cancel_all_count (outcome : value -> result value)
    (s : S) (orders : list value) :
  (forall s order_id, snd (cancel_order c s order_id) = outcome order_id) ->
  snd (fetch_open_orders c s) = Ok orders ->
  snd (emergency_cancel_all S c s)
  = Z.of_nat (List.length (filter (cancelled outcome) orders)).
Proof.
  intros Hout Hfetch. unfold emergency_cancel_all.
  destruct (fetch_open_orders c s) as [s1 r]. cbn [snd] in Hfetch. subst r.
  destruct orders as [|o rest]; [reflexivity|].
  rewrite (cancel_loop_independent outcome (o :: rest) s1 0 Hout). lia.
Qed.

End CancelFacts.

Lemma cancel_one_skips_without_id_witness :
  cancel_one (list call) recording_client []
             (VDict [("order_id", VNone); ("id", VStr "a")])
  = ([], false).
Proof.
  assert (H : truthy_value (order_id_of [("order_id", VNone); ("id", VStr "a")])
              = false) by reflexivity.
  exact (cancel_one_skips_without_id (list call) recording_client []
           [("order_id", VNone); ("id", VStr "a")] H).
Defined.

Lemma cancel_one_flat_witness :
  cancel_one (list call) recording_client []
             (VDict [("id", VStr "a"); ("symbol", VStr "BTC_USDT_Perp");
                     ("side", VStr "buy")])
  = ([CancelOrder (VStr "a")], true).
Proof.
  assert (Hid : truthy_value (order_id_of [("id", VStr "a");
                                           ("symbol", VStr "BTC_USDT_Perp");
                                           ("side", VStr "buy")]) = true)
    by reflexivity.
  assert (Hflat : flat_order [("id", VStr "a"); ("symbol", VStr "BTC_USDT_Perp");
                              ("side", VStr "buy")])
    by (split; [exact I | reflexivity]).
  exact (cancel_one_flat (list call) recording_client []
           [("id", VStr "a"); ("symbol", VStr "BTC_USDT_Perp");
            ("side", VStr "buy")] Hid Hflat).
Defined.

Lemma cancel_one_bad_side_witness :
  cancel_one (list call) recording_client []
             (VDict [("order_id", VStr "a"); ("side", VNone)])
  = ([], false).
Proof.
  assert (Hlegs : match dict_get [("order_id", VStr "a"); ("side", VNone)] "legs" with
                  | Some legs => truthy_value legs = false
                  | None => True
                  end) by exact I.
  assert (Hside : dict_get [("order_id", VStr "a"); ("side", VNone)] "side"
                  = Some VNone) by reflexivity.
  assert (Hv : is_str VNone = false) by reflexivity.
  exact (cancel_one_bad_side (list call) recording_client []
           [("order_id", VStr "a"); ("side", VNone)] VNone Hlegs Hside Hv).
Defined.

Lemma emergency_cancel_all_count_witness :
  snd (emergency_cancel_all (list call) recording_client []) = 2.
Proof.
  assert (Hout : forall s order_id,
             snd (cancel_order recording_client s order_id)
             = recording_outcome order_id) by (intros; reflexivity).
  assert (Hfetch : snd (fetch_open_orders recording_client [])
                   = Ok (match snd (fetch_open_orders recording_client []) with
                         | Ok orders => orders
                         | Raise _ => []
                         end)) by reflexivity.
  assert (E : Z.of_nat (List.length
                (filter (cancelled recording_outcome)
                   (match snd (fetch_open_orders recording_client []) with
                    | Ok orders => orders
                    | Raise _ => []
                    end))) = 2) by (vm_compute; reflexivity).
  exact (eq_trans (emergency_cancel_all_count (list call) recording_client
                     recording_outcome [] _ Hout Hfetch) E).
Defined.

(** ** Formatting *)

Lemma format_fixed_ok (comma : bool) (decimals : Z) (x : float) :
  valid_precision decimals ->
  format_fixed comma decimals x
  = Ok (match x with
        | NaN => ""
        | Inf s | Fin s _ => sign_str s
        end ++ fixed_digits comma decimals x).
Proof.
  intros [H0 H1]. unfold format_fixed, fixed_digits.
  assert (E : (decimals <? 0) || (2147483647 <? decimals) = false).
  { apply orb_false_iff. split; apply Z.ltb_ge; lia. }
  rewrite E. destruct x as [s a|s|]; try reflexivity.
Qed.

Lemma fixed_digits_fabs (comma : bool) (decimals : Z) (x : float) :
  fixed_digits comma decimals (fabs x) = fixed_digits comma decimals x.
Proof. destruct x; reflexivity. Qed.

Lemma fge_zero_classify (x : float) :
  mag_nonneg x ->
  fge x zero = match classify x with
               | Positive | NegativeZero => true
               | Negative | NotANumber => false
               end.
Proof.
  unfold fge, fle, flt, feq, classify, mag_nonneg, zero.
  destruct x as [[|] a|[|]|]; cbn [to_ext signed ext_ltb ext_eqb]; intros Ha;
    try reflexivity.
  - destruct (Z.eqb_spec a 0) as [->|Hne]; [reflexivity|].
    apply orb_false_iff. split; [apply Z.ltb_ge|apply Z.eqb_neq]; lia.
  - destruct (Z.ltb_spec 0 a); [reflexivity|].
    replace a with 0 by lia. reflexivity.
Qed.

Lemma of_Z_raises (n : Z) (e : exn) : of_Z n = Raise e -> e = OverflowError.
Proof.
  unfold of_Z. destruct (_ <? overflow_threshold); [discriminate|].
  intros [= <-]. reflexivity.
Qed.

Section FormattingFacts.

Variable float_of_str : string -> option float.

(** X24. Where [format_currency] puts the sign, for a float and a
    precision between 0 and [INT_MAX]: a positive value gives the symbol
    and the digits; a negative value or NaN gives ["-"], the symbol and the
    digits of the absolute value (so NaN reads "-$nan"); negative zero is
    not below zero and gives the symbol followed by ["-"] and the digits
    ("$-0.00").  A negative value that rounds to zero still carries its
    sign ("-$0.00"). *)
Theorem format_currency_sign (x : float) (decimals : Z) (symbol : string) :
  valid_precision decimals -> mag_nonneg x ->
  format_currency float_of_str (VFloat x) decimals symbol
  = Ok (match classify x with
        | Positive => symbol ++ fixed_digits true decimals x
        | NegativeZero => symbol ++ "-" ++ fixed_digits true decimals x
        | Negative | NotANumber => "-" ++ symbol ++ fixed_digits true decimals x
        end).
Proof.
  intros Hd Hx. unfold format_currency. cbn [float_or_zero py_float bind].
  rewrite (fge_zero_classify x Hx), !(format_fixed_ok _ _ _ Hd), fixed_digits_fabs.
  destruct x as [[|] a|[|]|]; cbn [classify fabs bind sign_str];
    try destruct (a =? 0); reflexivity.
Qed.

(** X25. Where [format_percentage] puts the sign: ["+"] before a positive
    value, nothing before a negative value (whose digits carry their own
    ["-"]) and before NaN, and ["+-"] before negative zero; the digits have
    no thousands separator and ["%"] follows. *)
Theorem format_percentage_sign (x : float) (decimals : Z) :
  valid_precision decimals -> mag_nonneg x ->
  format_percentage float_of_str (VFloat x) decimals
  = Ok (match classify x with
        | Positive => "+"
        | NegativeZero => "+-"
        | Negative => "-"
        | NotANumber => ""
        end ++ fixed_digits false decimals x ++ "%").
Proof.
  intros Hd Hx. unfold format_percentage. cbn [float_or_zero py_float bind].
  rewrite (fge_zero_classify x Hx), (format_fixed_ok _ _ _ Hd).
  destruct x as [[|] a|[|]|]; cbn [classify bind sign_str];
    try destruct (a =? 0); cbn [append];
    reflexivity.
Qed.

Lemma float_or_zero_not_numeric (v : value) :
  not_numeric float_of_str v -> float_or_zero float_of_str v = Ok zero.
Proof.
  destruct v; cbn; try tauto. intros ->. reflexivity.
Qed.

(** X26. A value that [float()] refuses ([None], a list, a dict, a string
    that is not a number) is formatted as [0.0] by [format_currency] and
    [format_percentage], for every precision and symbol: no such value
    makes them fail. *)
Theorem format_degrades_to_zero (v : value) (decimals : Z) (symbol : string) :
  not_numeric float_of_str v ->
  format_currency float_of_str v decimals symbol
  = format_currency float_of_str (VFloat zero) decimals symbol /\
  format_percentage float_of_str v decimals
  = format_percentage float_of_str (VFloat zero) decimals.
Proof.
  intros H. unfold format_currency, format_percentage.
  rewrite (float_or_zero_not_numeric v H). split; reflexivity.
Qed.

Lemma float_or_zero_cases (v : value) :
  (exists x, float_or_zero float_of_str v = Ok x) \/
  (exists n, v = VInt n /\ of_Z n = Raise OverflowError /\
             float_or_zero float_of_str v = Raise OverflowError).
Proof.
  destruct v as [| b | n | x | s | l | d];
    try (left; eexists; reflexivity).
  - cbn [float_or_zero py_float].
    destruct (of_Z n) as [x|e] eqn:E.
    + left. eexists. reflexivity.
    + right. exists n. pose proof (of_Z_raises n e E) as ->.
      split; [reflexivity|]. split; [exact E|reflexivity].
  - cbn [float_or_zero py_float].
    destruct (float_of_str s); left; eexists; reflexivity.
Qed.

(** X27. With a precision between 0 and [INT_MAX], [format_currency]
    returns a string for every value, with one exception: an int too large
    for a float, whose [OverflowError] is not among the exceptions it
    catches. *)
Theorem format_currency_total (v : value) (decimals : Z) (symbol : string) :
  valid_precision decimals ->
  (exists s, format_currency float_of_str v decimals symbol = Ok s) \/
  (exists n, v = VInt n /\ of_Z n = Raise OverflowError /\
             format_currency float_of_str v decimals symbol
             = Raise OverflowError).
Proof.
  intros Hd. unfold format_currency.
  destruct (float_or_zero_cases v) as [[x ->]|(n & -> & Hn & ->)].
  - left. cbn [bind]. rewrite !(format_fixed_ok _ _ _ Hd).
    destruct (fge x zero); cbn [bind]; eexists; reflexivity.
  - right. exists n. auto.
Qed.

End FormattingFacts.

Lemma format_currency_sign_witness :
  format_currency (fun _ => None) (VFloat (of_decimal (-12345678) (-3))) 2 "$"
  = Ok "-$12,345.68" /\
  format_currency (fun _ => None) (VFloat (Fin true 0)) 2 "$" = Ok "$-0.00" /\
  format_currency (fun _ => None) (VFloat NaN) 2 "$" = Ok "-$nan".
Proof.
  assert (Hd : valid_precision 2) by (split; [lia | vm_compute; discriminate]).
  assert (H1 : mag_nonneg (of_decimal (-12345678) (-3)))
    by (vm_compute; discriminate).
  assert (H2 : mag_nonneg (Fin true 0)) by (simpl; lia).
  assert (H3 : mag_nonneg NaN) by exact I.
  assert (E1 : Ok (match classify (of_decimal (-12345678) (-3)) with
                   | Positive =>
                       "$" ++ fixed_digits true 2 (of_decimal (-12345678) (-3))
                   | NegativeZero =>
                       "$" ++ "-" ++ fixed_digits true 2 (of_decimal (-12345678) (-3))
                   | Negative | NotANumber =>
                       "-" ++ "$" ++ fixed_digits true 2 (of_decimal (-12345678) (-3))
                   end) = @Ok string "-$12,345.68") by (vm_compute; reflexivity).
  exact (conj (eq_trans (format_currency_sign (fun _ => None)
                           (of_decimal (-12345678) (-3)) 2 "$" Hd H1) E1)
          (conj (format_currency_sign (fun _ => None) (Fin true 0) 2 "$" Hd H2)
                (format_currency_sign (fun _ => None) NaN 2 "$" Hd H3))).
Defined.

Lemma format_percentage_sign_witness :
  format_percentage (fun _ => None) (VFloat (of_decimal 567 (-2))) 2 = Ok "+5.67%" /\
  format_percentage (fun _ => None) (VFloat (Fin true 0)) 2 = Ok "+-0.00%".
Proof.
  assert (Hd : valid_precision 2) by (split; [lia | vm_compute; discriminate]).
  assert (H1 : mag_nonneg (of_decimal 567 (-2))) by (vm_compute; discriminate).
  assert (H2 : mag_nonneg (Fin true 0)) by (simpl; lia).
  assert (E1 : Ok (match classify (of_decimal 567 (-2)) with
                   | Positive => "+"
                   | NegativeZero => "+-"
                   | Negative => "-"
                   | NotANumber => ""
                   end ++ fixed_digits false 2 (of_decimal 567 (-2)) ++ "%")
               = @Ok string "+5.67%") by (vm_compute; reflexivity).
  exact (conj (eq_trans (format_percentage_sign (fun _ => None)
                           (of_decimal 567 (-2)) 2 Hd H1) E1)
              (format_percentage_sign (fun _ => None) (Fin true 0) 2 Hd H2)).
Defined.

Lemma format_degrades_to_zero_witness :
  format_currency (fun _ => None) (VStr "n/a") 2 "$"
  = format_currency (fun _ => None) (VFloat zero) 2 "$" /\
  format_percentage (fun _ => None) (VStr "n/a") 2
  = format_percentage (fun _ => None) (VFloat zero) 2.
Proof.
  assert (H : not_numeric (fun _ => None) (VStr "n/a")) by reflexivity.
  exact (format_degrades_to_zero (fun _ => None) (VStr "n/a") 2 "$" H).
Defined.

Lemma format_currency_total_witness :
  (exists s, format_currency (fun _ => None) (VInt (10 ^ 400)) 2 "$" = Ok s) \/
  (exists n, VInt (10 ^ 400) = VInt n /\ of_Z n = Raise OverflowError /\
             format_currency (fun _ => None) (VInt (10 ^ 400)) 2 "$"
             = Raise OverflowError).
Proof.
  assert (Hd : valid_precision 2) by (split; [lia | vm_compute; discriminate]).
  exact (format_currency_total (fun _ => None) (VInt (10 ^ 400)) 2 "$" Hd).
Defined.

(** ** Tables *)

Section TableFacts.

Variable float_of_str : string -> option float.

Lemma position_row_cases (pos : value) (row : option dict) :
  position_row float_of_str pos = Ok row ->
  match row with
  | Some r => closed float_of_str pos = false /\ position_row_ok r
  | None => closed float_of_str pos = true
  end.
Proof.
  unfold position_row, closed.
  destruct (py_get pos "size" (VInt 0)) as [raw|e]; cbn [bind]; [|discriminate].
  destruct (safe_float_local float_of_str raw) as [size|e]; cbn [bind];
    [|discriminate].
  destruct (feq size zero) eqn:Ez; cbn [negb]; [intros [= <-]; reflexivity|].
  destruct (py_get pos "instrument" (VStr "N/A")) as [symbol|e]; cbn [bind];
    [|discriminate].
  destruct (currency_field float_of_str pos "entry_price") as [entry|e];
    cbn [bind]; [|discriminate].
  destruct (currency_field float_of_str pos "mark_price") as [mark|e];
    cbn [bind]; [|discriminate].
  destruct (currency_field float_of_str pos "unrealized_pnl") as [pnl|e];
    cbn [bind]; [|discriminate].
  intros [= <-]. split; [reflexivity|]. unfold position_row_ok.
  split; [reflexivity|]. split.
  - destruct (fgt size zero); [left|right]; reflexivity.
  - exists size. split; [reflexivity|exact Ez].
Qed.

Lemma position_rows_spec (positions : list value) (data rows : list dict) :
  position_rows float_of_str positions data = Ok rows ->
  exists new,
    rows = (data ++ new)%list /\
    List.length new
    = List.length (filter (fun p => negb (closed float_of_str p)) positions) /\
    Forall position_row_ok new.
Proof.
  revert data. induction positions as [|pos rest IH]; intros data; simpl.
  - intros [= <-]. exists []. rewrite app_nil_r. auto.
  - destruct (position_row float_of_str pos) as [row|e] eqn:Hrow; cbn [bind];
      [|discriminate].
    pose proof (position_row_cases pos row Hrow) as Hc.
    intros Hrest. destruct (IH _ Hrest) as (new & -> & Hlen & Hall).
    destruct row as [r|].
    + destruct Hc as [Hcl Hok]. rewrite Hcl. cbn [negb List.length].
      exists (r :: new). rewrite <- app_assoc. cbn [app List.length].
      split; [reflexivity|]. split; [lia|]. constructor; assumption.
    + rewrite Hc. cbn [negb]. exists new. auto.
Qed.

(** X28. What [create_positions_table] returns when it returns: for an
    empty list, the table of the six column names with no row; otherwise
    one row for each position whose size does not read as zero, and none
    for the others.  Each row has the six columns in order, its [Side] is
    'LONG' or 'SHORT', and its [Size] is the absolute value of a size that
    is not zero. *)
Theorem create_positions_table_rows (positions : list value) (t : table) :
  create_positions_table float_of_str positions = Ok t ->
  (positions = [] /\ t = Header position_columns) \/
  (positions <> [] /\
   exists rows,
     t = Records rows /\
     List.length rows
     = List.length (filter (fun p => negb (closed float_of_str p)) positions) /\
     Forall position_row_ok rows).
Proof.
  unfold create_positions_table. destruct positions as [|pos rest].
  - intros [= <-]. left. auto.
  - destruct (position_rows float_of_str (pos :: rest) []) as [rows|e] eqn:E;
      cbn [bind]; [|discriminate].
    intros [= <-]. right. split; [discriminate|].
    destruct (position_rows_spec _ _ _ E) as (new & -> & Hlen & Hall).
    exists new. auto.
Qed.

Lemma position_row_closed (pos : value) :
  closed float_of_str pos = true -> position_row float_of_str pos = Ok None.
Proof.
  unfold position_row, closed.
  destruct (py_get pos "size" (VInt 0)) as [raw|e]; cbn [bind]; [|discriminate].
  destruct (safe_float_local float_of_str raw) as [size|e]; cbn [bind];
    [|discriminate].
  intros ->. reflexivity.
Qed.

Lemma position_rows_closed (positions : list value) (data : list dict) :
  forallb (closed float_of_str) positions = true ->
  position_rows float_of_str positions data = Ok data.
Proof.
  revert data. induction positions as [|pos rest IH]; intros data; simpl.
  - reflexivity.
  - intros H. apply andb_true_iff in H. destruct H as [Hp Hr].
    rewrite (position_row_closed pos Hp). cbn [bind]. apply IH. exact Hr.
Qed.

(** X29. A non-empty list of positions that are all closed does not give
    the table that an empty list gives: the result is built from an empty
    list of rows, while for an empty list of positions it is the table with
    the six named columns. *)
Theorem create_positions_table_all_closed (positions : list value) :
  positions <> [] ->
  forallb (closed float_of_str) positions = true ->
  create_positions_table float_of_str positions = Ok (Records []) /\
  create_positions_table float_of_str [] = Ok (Header position_columns).
Proof.
  intros Hne Hall. split; [|reflexivity].
  unfold create_positions_table. destruct positions as [|pos rest];
    [congruence|].
  rewrite (position_rows_closed _ [] Hall). reflexivity.
Qed.

Lemma format_currency_zero :
  format_currency float_of_str (VFloat zero) 2 "$" = Ok "$0.00".
Proof. vm_compute. reflexivity. Qed.

Lemma balance_field_missing (account_data : value) (key1 key2 : string) :
  match account_data with
  | VDict d => dict_get d key1 = None
  | _ => True
  end ->
  balance_field float_of_str account_data key1 key2 = Ok (VStr "$0.00").
Proof.
  intros H. unfold balance_field, safe_get_float. cbn [fold_left].
  assert (E : descend (descend account_data key1) key2 = VDict []
              \/ descend (descend account_data key1) key2 = VFloat zero).
  { destruct account_data; cbn [descend]; auto.
    rewrite H. cbn [descend dict_get]. auto. }
  destruct E as [-> | ->]; cbn [is_blank py_float bind];
    rewrite format_currency_zero; reflexivity.
Qed.

(** X30. [create_account_table] on an account record that is not a dict,
    or is a dict without the keys [total], [free], [used] and [info], does
    not fail: it returns the table of the four metrics, each valued
    "$0.00". *)
Theorem create_account_table_no_balances (account_data : value) :
  no_balances account_data ->
  create_account_table float_of_str account_data
  = Ok (ColumnData [("Metric", account_metrics);
                    ("Value", [VStr "$0.00"; VStr "$0.00"; VStr "$0.00";
                               VStr "$0.00"])]).
Proof.
  intros H. unfold create_account_table.
  rewrite !balance_field_missing; [reflexivity| | | |];
    destruct account_data; try exact I; cbn [no_balances] in H; tauto.
Qed.

End TableFacts.

Lemma create_positions_table_rows_witness :
  create_positions_table (fun _ => None)
    [VDict [("instrument", VStr "BTC_USDT_Perp"); ("size", VFloat (fneg one));
            ("entry_price", VInt 65000);
            ("mark_price", VFloat (of_decimal 650005 (-1)));
            ("unrealized_pnl", VStr "n/a")];
     VDict [("instrument", VStr "ETH_USDT_Perp"); ("size", VStr "")]]
  = Ok (Records [[("Symbol", VStr "BTC_USDT_Perp"); ("Side", VStr "SHORT");
                  ("Size", VFloat one); ("Entry Price", VStr "$65,000.00");
                  ("Mark Price", VStr "$65,000.50");
                  ("Unrealized P&L", VStr "$0.00")]]) /\
  Forall position_row_ok
    [[("Symbol", VStr "BTC_USDT_Perp"); ("Side", VStr "SHORT");
      ("Size", VFloat one); ("Entry Price", VStr "$65,000.00");
      ("Mark Price", VStr "$65,000.50");
      ("Unrealized P&L", VStr "$0.00")]].
Proof.
  assert (E : create_positions_table (fun _ => None)
                [VDict [("instrument", VStr "BTC_USDT_Perp");
                        ("size", VFloat (fneg one));
                        ("entry_price", VInt 65000);
                        ("mark_price", VFloat (of_decimal 650005 (-1)));
                        ("unrealized_pnl", VStr "n/a")];
                 VDict [("instrument", VStr "ETH_USDT_Perp"); ("size", VStr "")]]
              = Ok (Records [[("Symbol", VStr "BTC_USDT_Perp");
                              ("Side", VStr "SHORT");
                              ("Size", VFloat one);
                              ("Entry Price", VStr "$65,000.00");
                              ("Mark Price", VStr "$65,000.50");
                              ("Unrealized P&L", VStr "$0.00")]]))
    by (vm_compute; reflexivity).
  destruct (create_positions_table_rows (fun _ => None) _ _ E)
    as [[H _]|(_ & rows & Ht & _ & Hall)].
  - discriminate H.
  - injection Ht as <-. exact (conj E Hall).
Defined.

Lemma create_positions_table_all_closed_witness :
  create_positions_table (fun _ => None)
    [VDict [("instrument", VStr "BTC_USDT_Perp"); ("size", VInt 0)];
     VDict [("instrument", VStr "ETH_USDT_Perp")]]
  = Ok (Records []) /\
  create_positions_table (fun _ => None) [] = Ok (Header position_columns).
Proof.
  assert (Hne : [VDict [("instrument", VStr "BTC_USDT_Perp"); ("size", VInt 0)];
                 VDict [("instrument", VStr "ETH_USDT_Perp")]] <> [])
    by discriminate.
  assert (Hall : forallb (closed (fun _ => None))
                   [VDict [("instrument", VStr "BTC_USDT_Perp"); ("size", VInt 0)];
                    VDict [("instrument", VStr "ETH_USDT_Perp")]] = true)
    by (vm_compute; reflexivity).
  exact (create_positions_table_all_closed (fun _ => None) _ Hne Hall).
Defined.

Lemma create_account_table_no_balances_witness :
  create_account_table (fun _ => None) (VDict [("timestamp", VInt 0)])
  = Ok (ColumnData [("Metric", account_metrics);
                    ("Value", [VStr "$0.00"; VStr "$0.00"; VStr "$0.00";
                               VStr "$0.00"])]).
Proof.
  assert (H : no_balances (VDict [("timestamp", VInt 0)]))
    by (repeat split).
  exact (create_account_table_no_balances (fun _ => None)
           (VDict [("timestamp", VInt 0)]) H).
Defined.
